(** * rgb2yuv: a shallow embedding of [include/rgb2yuv.hpp]

    The header converts raw RGB rasters to YUV rasters.  This development
    embeds, function by function, the parts of the header that the
    specification talks about:

    - the fixed-point colour matrix ([convertor], [factor_matrix],
      [pixel_convert]);
    - the buffer-size table ([detail_create_buffer_], [calculate_size]);
    - the owning/borrowing memory block ([scope_block]) over an allocator;
    - the RGB normaliser ([detail_rgb_format_], [rgb_formatter]);
    - the chroma-subsampling writers ([detail_transform_.transform_to]),
      the 4:2:0 and 4:1:0 ones with the accumulator arrays they allocate
      and free.

    Conventions.  Fixed-width integers are values of [Z]; every conversion to
    a narrower type is written out ([to_uint8], [to_uint16], [to_size_t]).
    [size_t] is 64 bits wide.  An access outside an array, a failed [assert]
    and a template instantiation that does not exist are all [None].  *)

From stdpp Require Import base option list numbers gmap.
From Stdlib Require Import ZArith Lia ZifyNat.

Open Scope Z_scope.

(** ** Fixed-width integers *)

Definition to_uint8 (x : Z) : Z := x mod 2 ^ 8.
Definition to_uint16 (x : Z) : Z := x mod 2 ^ 16.
Definition size_bits : Z := 64.
Definition to_size_t (x : Z) : Z := x mod 2 ^ size_bits.

Definition is_uint8 (x : Z) : Prop := 0 ≤ x < 2 ^ 8.
Definition is_uint16 (x : Z) : Prop := 0 ≤ x < 2 ^ 16.
Definition is_int32 (x : Z) : Prop := - 2 ^ 31 ≤ x < 2 ^ 31.
Definition is_size_t (x : Z) : Prop := 0 ≤ x < 2 ^ size_bits.

(** ** Basic universal types and constants *)

Definition byte_t : Type := Z.

(** [typedef struct { uint8_t b_, g_, r_; } rgb_t;] *)
Module rgb_t.
Record t : Type := mk { b_ : Z; g_ : Z; r_ : Z }.
Definition wf (p : t) : Prop := is_uint8 (b_ p) ∧ is_uint8 (g_ p) ∧ is_uint8 (r_ p).
End rgb_t.

(** [typedef struct { uint8_t v_, u_, y_; } yuv_t;] *)
Module yuv_t.
Record t : Type := mk { v_ : Z; u_ : Z; y_ : Z }.
End yuv_t.

(** [enum supported], sentinels included.  The aliases [yuv_YUYV],
    [yuv_I420] and [yuv_Y411] name existing enumerators. *)
Inductive supported : Type :=
  | rgb_MIN | rgb_888 | rgb_565 | rgb_555 | rgb_444 | rgb_888X | rgb_MAX
  | yuv_MIN | yuv_NV24 | yuv_NV42 | yuv_YUY2 | yuv_YVYU | yuv_UYVY | yuv_VYUY
  | yuv_422P | yuv_YV12 | yuv_YU12 | yuv_NV12 | yuv_NV21 | yuv_Y41P
  | yuv_411P | yuv_YVU9 | yuv_YUV9 | yuv_MAX.

Definition yuv_YUYV : supported := yuv_YUY2.
Definition yuv_I420 : supported := yuv_YU12.
Definition yuv_Y411 : supported := yuv_Y41P.

Definition supported_value (S : supported) : Z :=
  match S with
  | rgb_MIN => 0 | rgb_888 => 1 | rgb_565 => 2 | rgb_555 => 3 | rgb_444 => 4
  | rgb_888X => 5 | rgb_MAX => 6
  | yuv_MIN => 7 | yuv_NV24 => 8 | yuv_NV42 => 9 | yuv_YUY2 => 10
  | yuv_YVYU => 11 | yuv_UYVY => 12 | yuv_VYUY => 13 | yuv_422P => 14
  | yuv_YV12 => 15 | yuv_YU12 => 16 | yuv_NV12 => 17 | yuv_NV21 => 18
  | yuv_Y41P => 19 | yuv_411P => 20 | yuv_YVU9 => 21 | yuv_YUV9 => 22
  | yuv_MAX => 23
  end.

Inductive plane_type : Type :=
  | plane_Y | plane_U | plane_V | plane_R | plane_G | plane_B.

Definition plane_value (P : plane_type) : nat :=
  match P with
  | plane_Y => 0 | plane_U => 1 | plane_V => 2
  | plane_R => 3 | plane_G => 4 | plane_B => 5
  end%nat.

(** ** Tools for SFINAE *)

Definition is_rgb (S : supported) : bool :=
  (supported_value rgb_MIN <? supported_value S)
  && (supported_value S <? supported_value rgb_MAX).

Definition is_yuv (S : supported) : bool :=
  (supported_value yuv_MIN <? supported_value S)
  && (supported_value S <? supported_value yuv_MAX).

(** [enable_if<B, T>]: an overload that is not enabled does not exist. *)
Definition enable_if (b : bool) : option unit := if b then Some () else None.

(** [S == S'] on enumerators. *)
Definition tag_eqb (S S' : supported) : bool :=
  supported_value S =? supported_value S'.

Definition is_rgb_plane (P : plane_type) : bool :=
  match P with plane_R | plane_G | plane_B => true | _ => false end.

Definition is_yuv_plane (P : plane_type) : bool :=
  match P with plane_Y | plane_U | plane_V => true | _ => false end.

(** ** Converting between RGB and YUV/YCbCr planes *)

(** [struct planes_t { uint8_t c_, b_, a_; ... }].  [cast] reinterprets the
    three bytes of an [rgb_t] (or of a [yuv_t]) in declaration order. *)
Module planes_t.
Record t : Type := mk { c_ : Z; b_ : Z; a_ : Z }.

Definition cast_rgb (p : rgb_t.t) : t :=
    {| c_ := rgb_t.b_ p; b_ := rgb_t.g_ p; a_ := rgb_t.r_ p |}.

Definition cast_yuv (p : yuv_t.t) : t :=
    {| c_ := yuv_t.v_ p; b_ := yuv_t.u_ p; a_ := yuv_t.y_ p |}.
End planes_t.

Module convertor.
(** [int32_t fa_, fb_, fc_, fd_, fe_;] *)
Record t : Type := mk { fa_ : Z; fb_ : Z; fc_ : Z; fd_ : Z; fe_ : Z }.

Definition clip (value : Z) : Z :=
    to_uint8 (if value <? 0 then 0 else if 255 <? value then 255 else value).

(** The sum is computed in [int32_t]; [>>] on a negative value is the
      arithmetic shift. *)
Definition raw (m : t) (in_p : planes_t.t) : Z :=
    fa_ m * planes_t.a_ in_p + fb_ m * planes_t.b_ in_p
    + fc_ m * planes_t.c_ in_p + fd_ m.

Definition convert (m : t) (in_p : planes_t.t) : Z :=
    clip (Z.shiftr (raw m in_p) 8 + fe_ m).
End convertor.

Definition factor_matrix : list convertor.t :=
  [ convertor.mk 66 129 25 128 16          (* Y *)
  ; convertor.mk (-38) (-74) 112 128 128   (* U/Cb *)
  ; convertor.mk 112 (-94) (-18) 128 128   (* V/Cr *)
  ; convertor.mk 298 0 409 (-56992) 0      (* R *)
  ; convertor.mk 298 (-100) (-208) 34784 0 (* G *)
  ; convertor.mk 298 516 0 (-70688) 0      (* B *)
  ].

(** [factor_matrix()[P].convert(in_p)]; the index is always inside the table. *)
Definition pixel_convert_planes (P : plane_type) (in_p : planes_t.t) : Z :=
  match factor_matrix !! plane_value P with
  | Some m => convertor.convert m in_p
  | None => 0
  end.

(** The overload on [rgb_t] exists for the YUV planes only. *)
Definition pixel_convert (P : plane_type) (in_p : rgb_t.t) : Z :=
  pixel_convert_planes P (planes_t.cast_rgb in_p).

(** The overload on [yuv_t] exists for the RGB planes only. *)
Definition pixel_convert_yuv (P : plane_type) (in_p : yuv_t.t) : Z :=
  pixel_convert_planes P (planes_t.cast_yuv in_p).

(** ** Buffer sizes *)

Definition sizeof_rgb_t : Z := 3.
Definition sizeof_yuv_t : Z := 3.
Definition sizeof_uint16_t : Z := 2.
Definition sizeof_uint32_t : Z := 4.

Definition assert (b : bool) : option unit := if b then Some () else None.

(** ** Loops *)

(** [for (j = j0; j < j0 + n; ++j) body], the body leaving [j] alone. *)
Fixpoint for_ {St : Type} (n : nat) (j : nat) (body : nat → St → option St)
      (st : St) : option St :=
    match n with
    | O => Some st
    | S n => st ← body j st; for_ n (S j) body st
    end.

(** [for (...; cond; ) body], the body advancing the loop variable.  The
      fuel bounds the number of iterations; running out of it is [None]. *)
Fixpoint while_ {St : Type} (fuel : nat) (cond : St → bool)
      (body : St → option St) (st : St) : option St :=
    if cond st then
      match fuel with
      | O => None
      | S fuel => st ← body st; while_ fuel cond body st
      end
    else Some st.

Module detail_create_buffer_.
(** [impl_<S>::size].  The sentinels have no specialisation.  All the
      arithmetic is [size_t] arithmetic. *)
Definition size (S : supported) (in_w in_h : Z) : option Z :=
    let s := to_size_t (in_w * in_h) in
    match S with
    | rgb_888 => Some (to_size_t (s * sizeof_rgb_t))
    | rgb_565 | rgb_555 => Some (to_size_t (s * sizeof_uint16_t))
    | rgb_444 =>
        Some (Z.shiftr (to_size_t (to_size_t (to_size_t (in_w * in_h) * 3) + 1)) 1)
    | rgb_888X => Some (to_size_t (s * sizeof_uint32_t))
    | yuv_NV24 | yuv_NV42 => Some (to_size_t (s * sizeof_yuv_t))
    | yuv_YUY2 | yuv_YVYU | yuv_UYVY | yuv_VYUY | yuv_422P =>
        _ ← assert (Z.land s 1 =? 0);
        Some (to_size_t (Z.shiftl s 1))
    | yuv_Y41P =>
        _ ← assert (Z.land s 7 =? 0);
        Some (to_size_t (s + Z.shiftr s 1))
    | yuv_411P | yuv_YV12 | yuv_YU12 | yuv_NV12 | yuv_NV21 =>
        _ ← assert (Z.land s 3 =? 0);
        Some (to_size_t (s + Z.shiftr s 1))
    | yuv_YVU9 | yuv_YUV9 =>
        _ ← assert (Z.land s 15 =? 0);
        Some (to_size_t (s + Z.shiftr s 3))
    | rgb_MIN | rgb_MAX | yuv_MIN | yuv_MAX => None
    end.
End detail_create_buffer_.

Definition calculate_size (S : supported) (in_w in_h : Z) : option Z :=
  detail_create_buffer_.size S in_w in_h.

(** ** Memory and the default allocator *)

(** Addresses are integers, [NULL] is address 0, and a heap maps every
    allocated address to the byte it holds. *)
Abbreviation ptr := Z.
Definition NULL : ptr := 0.
Abbreviation heap := (gmap Z Z).

(** The template parameter [AllocT]: two static functions. *)
Class AllocT : Type := {
  alloc : Z → heap → ptr * heap;
  free : ptr → heap → heap
}.

(** [struct allocator], over the global [operator new (size, nothrow)] and
    [operator delete (ptr, nothrow)], which live outside the header. *)
Definition allocator (operator_new : Z → heap → ptr * heap)
    (operator_delete : ptr → heap → heap) : AllocT :=
  {| alloc size h := if size =? 0 then (NULL, h) else operator_new size h;
     free p h := operator_delete p h |}.

(** ** The limited garbage collection facility for memory blocks *)

(** An element type is known to [scope_block] through [sizeof] only. *)
Record elem_type : Type := { sizeof : Z; sizeof_pos : 0 < sizeof }.

Definition elem_byte_t : elem_type := {| sizeof := 1; sizeof_pos := eq_refl |}.
Definition elem_rgb_t : elem_type := {| sizeof := sizeof_rgb_t; sizeof_pos := eq_refl |}.
Definition elem_uint16_t : elem_type := {| sizeof := sizeof_uint16_t; sizeof_pos := eq_refl |}.

Module scope_block.
Record t (T : elem_type) : Type := mk { block_ : ptr; count_ : Z; trust_ : bool }.
Arguments mk {T} _ _ _.
Arguments block_ {T} _.
Arguments count_ {T} _.
Arguments trust_ {T} _.

Section members.
Context {A : AllocT} {T : elem_type}.

Definition data (this : t T) : ptr := block_ this.
Definition count (this : t T) : Z := count_ this.
Definition size (this : t T) : Z := to_size_t (count this * sizeof T).
Definition is_trusted (this : t T) : bool := trust_ this.

(** The member initialisers shared by all three constructors. *)
Definition init : t T := mk NULL 0 false.

(** [~scope_block] *)
Definition destroy (this : t T) (h : heap) : heap :=
      if trust_ this then free (block_ this) h else h.

(** [reset(size_t count)] *)
Definition reset (count : Z) (this : t T) (h : heap) : t T * heap :=
      let h := destroy this h in
      let counted : t T := mk (block_ this) count (trust_ this) in
      let '(p, h) := alloc (size counted) h in
      (mk p count true, h).

(** [reset(T * block, size_t count)] *)
Definition reset_block (block : ptr) (count : Z) (this : t T) (h : heap)
        : t T * heap :=
      let h := destroy this h in
      (mk block count false, h).

(** [scope_block(size_t count)] *)
Definition new (count : Z) (h : heap) : t T * heap := reset count init h.

(** [scope_block(T * block, size_t count)] *)
Definition wrap (block : ptr) (count : Z) (h : heap) : t T * heap :=
      reset_block block count init h.

Definition trust (b : bool) (this : t T) : t T :=
      mk (block_ this) (count_ this) b.

(** [swap(scope_block & rhs)]: three [std::swap]s. *)
Definition swap (this rhs : t T) : t T * t T :=
      (mk (block_ rhs) (count_ rhs) (trust_ rhs),
       mk (block_ this) (count_ this) (trust_ this)).

(** [dismiss]: the returned pointer and the emptied block. *)
Definition dismiss (this : t T) : ptr * t T :=
      (data this, mk NULL 0 false).
End members.

(** [template <typename U> swap(scope_block<U> & rhs)] *)
Definition swap_U {T U : elem_type} (this : t T) (rhs : t U) : t T * t U :=
    let tmp_ptr := block_ this in
    let this1 := mk (T:=T) (block_ rhs) (count_ this) (trust_ this) in
    let rhs1 := mk (T:=U) tmp_ptr (count_ rhs) (trust_ rhs) in
    let ths_size := size this1 in
    let rhs_size := size rhs1 in
    let this2 := mk (T:=T) (block_ this1) (rhs_size / sizeof T) (trust_ this1) in
    let rhs2 := mk (T:=U) (block_ rhs1) (ths_size / sizeof U) (trust_ rhs1) in
    (mk (block_ this2) (count_ this2) (trust_ rhs2),
     mk (block_ rhs2) (count_ rhs2) (trust_ this2)).

(** [move<U>(rhs)] is [this->swap(rhs)].  Overload resolution takes the
      template when [U] differs from [T] and the plain [swap] otherwise. *)
Definition move_U {T U : elem_type} (this : t T) (rhs : t U) : t T * t U :=
    swap_U this rhs.

Definition move {T : elem_type} (this rhs : t T) : t T * t T :=
    swap this rhs.

(** The converting constructor [scope_block(scope_block<U> const & rhs)]. *)
Definition from {T U : elem_type} (rhs : t U) : t T * t U :=
    move_U init rhs.
End scope_block.

(** [create_buffer<S>] *)
Definition create_buffer {A : AllocT} (S : supported) (in_w in_h : Z) (h : heap)
    : option (scope_block.t elem_byte_t * heap) :=
  n ← calculate_size S in_w in_h;
  Some (scope_block.new n h).

(** ** RGB formatting to 888 *)

(** [rgb_t] in memory: the byte offsets of its members. *)
Definition offset_b_ : Z := 0.
Definition offset_g_ : Z := 1.
Definition offset_r_ : Z := 2.

Module detail_rgb_format_.

(** [*p] for a byte; an address the heap does not map is undefined
    behaviour. *)
Definition load (h : heap) (p : ptr) : option Z := to_uint8 <$> h !! p.

(** [*p = static_cast<uint8_t>(v)] *)
Definition store (h : heap) (p : ptr) (v : Z) : option heap :=
  _ ← h !! p; Some (<[p := to_uint8 v]> h).

(** [*cur_pixel] for a [uint16_t *]: two bytes, the low one first. *)
Definition load_uint16 (h : heap) (p : ptr) : option Z :=
  lo ← load h p; hi ← load h (p + 1); Some (lo + Z.shiftl hi 8).

(** One iteration of [R2Y_BMP_16_TRANSFORM_HELPER_]; the state is
    [(i, cur_pixel, ot_rgb, heap)]. *)
Definition bmp_16_body (MASK_R MASK_G MASK_B : Z) (SHIFT_R SHIFT_G SHIFT_B : Z → Z)
    (st : Z * ptr * ptr * heap) : option (Z * ptr * ptr * heap) :=
  let '(i, cur_pixel, ot_rgb, h) := st in
  px ← load_uint16 h cur_pixel;
  h ← store h (ot_rgb + offset_r_) (SHIFT_R (Z.land px MASK_R));
  px ← load_uint16 h cur_pixel;
  h ← store h (ot_rgb + offset_g_) (SHIFT_G (Z.land px MASK_G));
  px ← load_uint16 h cur_pixel;
  h ← store h (ot_rgb + offset_b_) (SHIFT_B (Z.land px MASK_B));
  Some (to_size_t (i + 2), cur_pixel + sizeof_uint16_t, ot_rgb + sizeof_rgb_t, h).

(** [R2Y_BMP_16_TRANSFORM_HELPER_(MASK_R, MASK_G, MASK_B, SHIFT_R, SHIFT_G, SHIFT_B)] *)
Definition bmp_16_transform (MASK_R MASK_G MASK_B : Z)
    (SHIFT_R SHIFT_G SHIFT_B : Z → Z)
    (in_rgb : ptr) (in_count : Z) (ot_rgb : ptr) (h : heap) : option heap :=
  _ ← assert (negb (in_rgb =? ot_rgb));
  _ ← assert (Z.land in_count 1 =? 0);
  st ← while_ (Z.to_nat in_count) (λ '(i, _, _, _), i <? in_count)
         (bmp_16_body MASK_R MASK_G MASK_B SHIFT_R SHIFT_G SHIFT_B)
         (0, in_rgb, ot_rgb, h);
  Some st.2.

(** One iteration of the loop of [impl_<rgb_444>::to_888]; the state is
    [(i, in_rgb, ot_rgb, heap)].  [ot_rgb] advances once. *)
Definition rgb_444_body (st : Z * ptr * ptr * heap) : option (Z * ptr * ptr * heap) :=
  let '(i, in_rgb, ot_rgb, h) := st in
  x ← load h in_rgb; h ← store h (ot_rgb + offset_b_) (Z.shiftl (Z.land x 15) 4);
  x ← load h in_rgb; h ← store h (ot_rgb + offset_g_) (Z.land x 240);
  let in_rgb := in_rgb + 1 in
  x ← load h in_rgb; h ← store h (ot_rgb + offset_r_) (Z.shiftl (Z.land x 15) 4);
  let ot_rgb := ot_rgb + sizeof_rgb_t in
  x ← load h in_rgb; h ← store h (ot_rgb + offset_b_) (Z.land x 240);
  let in_rgb := in_rgb + 1 in
  x ← load h in_rgb; h ← store h (ot_rgb + offset_g_) (Z.shiftl (Z.land x 15) 4);
  x ← load h in_rgb; h ← store h (ot_rgb + offset_r_) (Z.land x 240);
  let in_rgb := in_rgb + 1 in
  Some (to_size_t (i + 3), in_rgb, ot_rgb, h).

(** One iteration of the loop of [impl_<rgb_888X>::to_888]: the first
    three bytes of the 32-bit pixel are copied as one [rgb_t]. *)
Definition rgb_888X_body (st : Z * ptr * ptr * heap) : option (Z * ptr * ptr * heap) :=
  let '(i, cur_pixel, ot_rgb, h) := st in
  b ← load h (cur_pixel + offset_b_);
  g ← load h (cur_pixel + offset_g_);
  r ← load h (cur_pixel + offset_r_);
  h ← store h (ot_rgb + offset_b_) b;
  h ← store h (ot_rgb + offset_g_) g;
  h ← store h (ot_rgb + offset_r_) r;
  Some (to_size_t (i + 4), cur_pixel + sizeof_uint32_t, ot_rgb + sizeof_rgb_t, h).

(** [impl_<S>::to_888]; only the five RGB tags have a specialisation. *)
Definition to_888 (S : supported) (in_rgb : ptr) (in_count : Z) (ot_rgb : ptr)
    (h : heap) : option heap :=
  match S with
  | rgb_888 =>
      _ ← assert (in_rgb =? ot_rgb);
      Some h
  | rgb_565 =>
      bmp_16_transform 63488 2016 31
        (λ x, Z.shiftr x 8) (λ x, Z.shiftr x 3) (λ x, Z.shiftl x 3)
        in_rgb in_count ot_rgb h
  | rgb_555 =>
      bmp_16_transform 31744 992 31
        (λ x, Z.shiftr x 7) (λ x, Z.shiftr x 2) (λ x, Z.shiftl x 3)
        in_rgb in_count ot_rgb h
  | rgb_444 =>
      _ ← assert (negb (in_rgb =? ot_rgb));
      _ ← assert (in_count mod 3 =? 0);
      st ← while_ (Z.to_nat in_count) (λ '(i, _, _, _), i <? in_count)
             rgb_444_body (0, in_rgb, ot_rgb, h);
      Some st.2
  | rgb_888X =>
      _ ← assert (negb (in_rgb =? ot_rgb));
      _ ← assert (in_count mod 4 =? 0);
      st ← while_ (Z.to_nat in_count) (λ '(i, _, _, _), i <? in_count)
             rgb_888X_body (0, in_rgb, ot_rgb, h);
      Some st.2
  | _ => None
  end.
End detail_rgb_format_.

(** [rgb_format<S>] *)
Definition rgb_format (S : supported) (in_rgb : ptr) (in_count : Z) (ot_rgb : ptr)
    (h : heap) : option heap :=
  detail_rgb_format_.to_888 S in_rgb in_count ot_rgb h.

(** ** Transforming RGB blocks to YUV/YCbCr blocks *)

Module detail_transform_.

(** *** Arrays *)

(** The contents of a [scope_block] are a list; [in_data[i]] is list
      lookup, and an index outside the block is undefined behaviour. *)

(** [*p = v] for a [uint8_t] at byte offset [p] of the destination. *)
Definition store (ot : list Z) (p : nat) (v : Z) : option (list Z) :=
    if decide (p < length ot)%nat then Some (<[p := to_uint8 v]> ot) else None.

(** [tmp[k] = v] for a [uint16_t] cell. *)
Definition cell_set (tmp : list Z) (k : nat) (v : Z) : option (list Z) :=
    if decide (k < length tmp)%nat then Some (<[k := to_uint16 v]> tmp) else None.

(** [tmp[k] += v]: the updated array and the value of the expression. *)
Definition cell_add (tmp : list Z) (k : nat) (v : Z) : option (list Z * Z) :=
    old ← tmp !! k;
    Some (<[k := to_uint16 (old + v)]> tmp, to_uint16 (old + v)).

(** [in_w * in_h] in [size_t]. *)
Definition size_mul (a b : nat) : nat :=
    Z.to_nat (to_size_t (Z.of_nat a * Z.of_nat b)).

(** *** The normaliser *)

Module rgb_formatter.
(** [rgb_formatter<S>::to_888].  The local [ret] is a
    [scope_block<rgb_t>] and the function returns a
    [scope_block<byte_t>]: the converting constructor runs at the
    [return], and [ret] is destroyed after it.  The tags that are not RGB
    have no [rgb_formatter]. *)
Definition to_888 {A : AllocT} (S : supported) (in_rgb : ptr) (in_w in_h : Z)
    (h : heap) : option (scope_block.t elem_byte_t * heap) :=
  match S with
  | rgb_888 =>
      let '(ret, h) :=
        scope_block.wrap (T:=elem_rgb_t) in_rgb (to_size_t (in_w * in_h)) h in
      h ← rgb_format rgb_888 in_rgb (scope_block.size ret) (scope_block.data ret) h;
      let '(result, ret) := scope_block.from (T:=elem_byte_t) ret in
      Some (result, scope_block.destroy ret h)
  | rgb_565 | rgb_555 | rgb_444 | rgb_888X =>
      '(tmp, h) ← create_buffer rgb_888 in_w in_h h;
      let '(ret, tmp) := scope_block.from (T:=elem_rgb_t) tmp in
      let h := scope_block.destroy tmp h in
      in_count ← calculate_size S in_w in_h;
      h ← rgb_format S in_rgb in_count (scope_block.data ret) h;
      let '(result, ret) := scope_block.from (T:=elem_byte_t) ret in
      Some (result, scope_block.destroy ret h)
  | _ => None
  end.
End rgb_formatter.

(** What uninitialised storage happens to hold: the locals [u_k], [v_k]
      and the cells of the freshly allocated [u_tmp], [v_tmp]. *)
Record indeterminate : Type := {
    u_k_init : Z; v_k_init : Z;
    u_tmp_init : nat → Z; v_tmp_init : nat → Z
  }.

(** What an array of [count] [uint16_t] cells holds when the allocator
      hands it out. *)
Definition fresh_cells (init : nat → Z) (count : nat) : list Z :=
    (λ k, to_uint16 (init k)) <$> seq 0 count.

(** [scope_block<uint16_t> tmp(count)]: the block, the cells [tmp[k]]
      reaches and the heap after the constructor.  The constructor never
      looks at the pointer [AllocT::alloc] returns.  Behind a null pointer
      there is no cell, so the first [tmp[k]] has no defined behaviour.  A
      pointer that is not null is taken to be what the allocator was asked
      for: [count] cells that no other object overlaps.  The cells are
      kept apart from the byte heap, which records that the storage was
      obtained and, by the destructor, released. *)
Definition new_cells {A : AllocT} (init : nat → Z) (count : nat) (h : heap)
      : scope_block.t elem_uint16_t * list Z * heap :=
    let '(tmp, h) := scope_block.new (T:=elem_uint16_t) (Z.of_nat count) h in
    (tmp,
     if scope_block.data tmp =? NULL then [] else fresh_cells init count,
     h).

Inductive assign_op : Type := op_set | op_add.

(** [acc OP v] on a [uint16_t] local. *)
Definition apply_op (op : assign_op) (acc v : Z) : Z :=
    match op with
    | op_set => to_uint16 v
    | op_add => to_uint16 (acc + v)
    end.

(** *** Packed layouts *)

(** [yuv_t<Tar>] for the 4:2:2 tags: the byte offset of each member. *)
Record yuv_t_422 : Type := { y0_ : nat; cb_ : nat; y1_ : nat; cr_ : nat }.

Definition yuv_t_of (Tar : supported) : option yuv_t_422 :=
    match Tar with
    | yuv_YUY2 => Some {| y0_ := 0; cb_ := 1; y1_ := 2; cr_ := 3 |}
    | yuv_YVYU => Some {| y0_ := 0; cr_ := 1; y1_ := 2; cb_ := 3 |}
    | yuv_UYVY => Some {| cb_ := 0; y0_ := 1; cr_ := 2; y1_ := 3 |}
    | yuv_VYUY => Some {| cr_ := 0; y0_ := 1; cb_ := 2; y1_ := 3 |}
    | _ => None
    end%nat.

(** One iteration of the 4:2:2 loop; the state is [(i, p_yuv, u_k, v_k, ot)]. *)
Definition packed_422_body (L : yuv_t_422) (in_data : list rgb_t.t)
      (st : nat * nat * Z * Z * list Z) : option (nat * nat * Z * Z * list Z) :=
    let '(i, p_yuv, u_k, v_k, ot) := st in
    rgb ← in_data !! i; let i := S i in
    ot ← store ot (p_yuv + y0_ L) (pixel_convert plane_Y rgb);
    let u_k := to_uint16 (pixel_convert plane_U rgb) in
    let v_k := to_uint16 (pixel_convert plane_V rgb) in
    rgb ← in_data !! i; let i := S i in
    ot ← store ot (p_yuv + y1_ L) (pixel_convert plane_Y rgb);
    let u_k := to_uint16 (u_k + pixel_convert plane_U rgb) in
    ot ← store ot (p_yuv + cb_ L) (Z.shiftr u_k 1);
    let v_k := to_uint16 (v_k + pixel_convert plane_V rgb) in
    ot ← store ot (p_yuv + cr_ L) (Z.shiftr v_k 1);
    Some (i, (p_yuv + 4)%nat, u_k, v_k, ot).

(** [transform_to<YUY2 | YVYU | UYVY | VYUY>] *)
Definition transform_to_422 (Tar : supported) (in_data : list rgb_t.t)
      (in_w in_h : nat) (ot_data : list Z) (junk : indeterminate)
      : option (list Z) :=
    L ← yuv_t_of Tar;
    let s := size_mul in_w in_h in
    st ← while_ s (λ '(i, _, _, _, _), bool_decide (i < s)%nat)
                (packed_422_body L in_data)
                (0%nat, 0%nat, u_k_init junk, v_k_init junk, ot_data);
    Some st.2.

(** [yuv_t<yuv_Y41P>]: u0 y0 v0 y1 u1 y2 v1 y3 y4 y5 y6 y7. *)
Definition y41p_u (n : nat) : nat := match n with O => 0 | _ => 4 end.
Definition y41p_v (n : nat) : nat := match n with O => 2 | _ => 6 end.
Definition y41p_y (I : nat) : nat :=
    match I with
    | 0 => 1 | 1 => 3 | 2 => 5 | 3 => 7 | _ => I + 4
    end%nat.

(** The macro [R2Y_TRANSFORM_TO_(I, OP, ...)] of the Y41P writer, without
      its trailing statements. *)
Definition y41p_pixel (in_data : list rgb_t.t) (I : nat) (op : assign_op)
      (st : nat * nat * Z * Z * list Z) : option (nat * nat * Z * Z * list Z) :=
    let '(i, p_yuv, u_k, v_k, ot) := st in
    rgb ← in_data !! i; let i := S i in
    ot ← store ot (p_yuv + y41p_y I) (pixel_convert plane_Y rgb);
    let u_k := apply_op op u_k (pixel_convert plane_U rgb) in
    let v_k := apply_op op v_k (pixel_convert plane_V rgb) in
    Some (i, p_yuv, u_k, v_k, ot).

(** [p_yuv->uN_ = u_k >> 2; p_yuv->vN_ = v_k >> 2;] *)
Definition y41p_emit (n : nat) (st : nat * nat * Z * Z * list Z)
      : option (nat * nat * Z * Z * list Z) :=
    let '(i, p_yuv, u_k, v_k, ot) := st in
    ot ← store ot (p_yuv + y41p_u n) (Z.shiftr u_k 2);
    ot ← store ot (p_yuv + y41p_v n) (Z.shiftr v_k 2);
    Some (i, p_yuv, u_k, v_k, ot).

Definition y41p_body (in_data : list rgb_t.t)
      (st : nat * nat * Z * Z * list Z) : option (nat * nat * Z * Z * list Z) :=
    st ← y41p_pixel in_data 0 op_set st;
    st ← y41p_pixel in_data 1 op_add st;
    st ← y41p_pixel in_data 2 op_add st;
    st ← y41p_pixel in_data 3 op_add st;
    st ← y41p_emit 0 st;
    st ← y41p_pixel in_data 4 op_set st;
    st ← y41p_pixel in_data 5 op_add st;
    st ← y41p_pixel in_data 6 op_add st;
    st ← y41p_pixel in_data 7 op_add st;
    '(i, p_yuv, u_k, v_k, ot) ← y41p_emit 1 st;
    Some (i, (p_yuv + 12)%nat, u_k, v_k, ot).

(** [transform_to<yuv_Y41P>] *)
Definition transform_to_Y41P (Tar : supported) (in_data : list rgb_t.t)
      (in_w in_h : nat) (ot_data : list Z) (junk : indeterminate)
      : option (list Z) :=
    _ ← enable_if (tag_eqb Tar yuv_Y41P);
    let s := size_mul in_w in_h in
    st ← while_ s (λ '(i, _, _, _, _), bool_decide (i < s)%nat)
                (y41p_body in_data)
                (0%nat, 0%nat, u_k_init junk, v_k_init junk, ot_data);
    Some st.2.

(** *** Planar and semi-planar layouts *)

(** [split<S, P>]: the byte offset of a plane; [None] where no overload
      is enabled. *)
Definition split (S : supported) (P : plane_type) (in_w in_h : nat)
      : option nat :=
    let s := size_mul in_w in_h in
    match P, S with
    | plane_Y, _ => Some 0
    | plane_U, (yuv_YU12 | yuv_411P | yuv_422P | yuv_YUV9)
    | plane_V, (yuv_YV12 | yuv_YVU9) => Some s
    | plane_V, yuv_422P => Some (s + Nat.shiftr s 1)
    | plane_V, (yuv_YU12 | yuv_411P)
    | plane_U, yuv_YV12 => Some (s + Nat.shiftr s 2)
    | plane_V, yuv_YUV9
    | plane_U, yuv_YVU9 => Some (s + Nat.shiftr s 4)
    | _, _ => None
    end%nat.

(** [uv_t<S>]: two plane cursors, or one cursor over two-byte groups. *)
Inductive uv_t : Type :=
    | uv_planes (cb_ cr_ : nat)
    | uv_pairs (uv_ : nat).

(** [uv_t<S>::inner]: the byte offsets of [cb_] and [cr_] in a group. *)
Definition inner_of (S : supported) : option (nat * nat) :=
    match S with
    | yuv_NV24 | yuv_NV12 => Some (0, 1)
    | yuv_NV42 | yuv_NV21 => Some (1, 0)
    | _ => None
    end%nat.

Definition fill (S : supported) (in_w in_h : nat) : option uv_t :=
    match S with
    | yuv_YV12 | yuv_YU12 | yuv_411P | yuv_422P | yuv_YUV9 | yuv_YVU9 =>
        cb ← split S plane_U in_w in_h;
        cr ← split S plane_V in_w in_h;
        Some (uv_planes cb cr)
    | yuv_NV24 | yuv_NV42 | yuv_NV12 | yuv_NV21 =>
        uv ← split yuv_YU12 plane_U in_w in_h;
        Some (uv_pairs uv)
    | _ => None
    end.

(** The shift of each [set_and_next<S>] overload. *)
Definition set_and_next_shift (S : supported) : option Z :=
    match S with
    | yuv_422P => Some 1
    | yuv_YV12 | yuv_YU12 | yuv_411P | yuv_NV12 | yuv_NV21 => Some 2
    | yuv_YUV9 | yuv_YVU9 => Some 4
    | _ => None
    end.

(** [set_and_next<S>(in_u, in_v, ot_uv)] *)
Definition set_and_next (S : supported) (in_u in_v : Z) (ot_uv : uv_t)
      (ot : list Z) : option (uv_t * list Z) :=
    sh ← set_and_next_shift S;
    match ot_uv with
    | uv_planes cb cr =>
        ot ← store ot cb (Z.shiftr in_u sh);
        ot ← store ot cr (Z.shiftr in_v sh);
        Some (uv_planes (cb + 1) (cr + 1), ot)
    | uv_pairs uv =>
        '(o_cb, o_cr) ← inner_of S;
        ot ← store ot (uv + o_cb) (Z.shiftr in_u sh);
        ot ← store ot (uv + o_cr) (Z.shiftr in_v sh);
        Some (uv_pairs (uv + 2), ot)
    end%nat.

(** [transform_to<NV24 | NV42>]; the state is [(p_y, uv_, ot)]. *)
Definition transform_to_444 (Tar : supported) (in_data : list rgb_t.t)
      (in_w in_h : nat) (ot_data : list Z) : option (list Z) :=
    _ ← enable_if (tag_eqb Tar yuv_NV24 || tag_eqb Tar yuv_NV42);
    p_y ← split Tar plane_Y in_w in_h;
    p_uv ← fill Tar in_w in_h;
    '(o_cb, o_cr) ← inner_of Tar;
    let s := size_mul in_w in_h in
    match p_uv with
    | uv_pairs uv =>
        st ← for_ s 0
          (λ i '(p_y, uv, ot),
             rgb ← in_data !! i;
             ot ← store ot p_y (pixel_convert plane_Y rgb);
             ot ← store ot (uv + o_cb) (pixel_convert plane_U rgb);
             ot ← store ot (uv + o_cr) (pixel_convert plane_V rgb);
             Some (S p_y, (uv + 2)%nat, ot))
          (p_y, uv, ot_data);
        Some st.2
    | uv_planes _ _ => None
    end.

(** The macro [R2Y_TRANSFORM_TO_(OP, ...)] of the 422P and 411P writers,
      without its trailing statements; the state is
      [(i, p_y, p_uv, u_k, v_k, ot)]. *)
Definition planar_pixel (in_data : list rgb_t.t) (op : assign_op)
      (st : nat * nat * uv_t * Z * Z * list Z)
      : option (nat * nat * uv_t * Z * Z * list Z) :=
    let '(i, p_y, p_uv, u_k, v_k, ot) := st in
    rgb ← in_data !! i; let i := S i in
    ot ← store ot p_y (pixel_convert plane_Y rgb); let p_y := S p_y in
    let u_k := apply_op op u_k (pixel_convert plane_U rgb) in
    let v_k := apply_op op v_k (pixel_convert plane_V rgb) in
    Some (i, p_y, p_uv, u_k, v_k, ot).

(** [set_and_next<Tar>(u_k, v_k, p_uv);] *)
Definition planar_emit (Tar : supported)
      (st : nat * nat * uv_t * Z * Z * list Z)
      : option (nat * nat * uv_t * Z * Z * list Z) :=
    let '(i, p_y, p_uv, u_k, v_k, ot) := st in
    '(p_uv, ot) ← set_and_next Tar u_k v_k p_uv ot;
    Some (i, p_y, p_uv, u_k, v_k, ot).

(** [transform_to<yuv_422P>] *)
Definition transform_to_422P (Tar : supported) (in_data : list rgb_t.t)
      (in_w in_h : nat) (ot_data : list Z) (junk : indeterminate)
      : option (list Z) :=
    _ ← enable_if (tag_eqb Tar yuv_422P);
    p_y ← split Tar plane_Y in_w in_h;
    p_uv ← fill Tar in_w in_h;
    let s := size_mul in_w in_h in
    st ← while_ s (λ '(i, _, _, _, _, _), bool_decide (i < s)%nat)
                (λ st,
                   st ← planar_pixel in_data op_set st;
                   st ← planar_pixel in_data op_add st;
                   planar_emit Tar st)
                (0%nat, p_y, p_uv, u_k_init junk, v_k_init junk, ot_data);
    Some st.2.

(** [transform_to<yuv_411P>] *)
Definition transform_to_411P (Tar : supported) (in_data : list rgb_t.t)
      (in_w in_h : nat) (ot_data : list Z) (junk : indeterminate)
      : option (list Z) :=
    _ ← enable_if (tag_eqb Tar yuv_411P);
    p_y ← split Tar plane_Y in_w in_h;
    p_uv ← fill Tar in_w in_h;
    let s := size_mul in_w in_h in
    st ← while_ s (λ '(i, _, _, _, _, _), bool_decide (i < s)%nat)
                (λ st,
                   st ← planar_pixel in_data op_set st;
                   st ← planar_pixel in_data op_add st;
                   st ← planar_pixel in_data op_add st;
                   st ← planar_pixel in_data op_add st;
                   planar_emit Tar st)
                (0%nat, p_y, p_uv, u_k_init junk, v_k_init junk, ot_data);
    Some st.2.

(** One step of the inner loop of the 4:2:0 writer on a row where
      [is_h_even] holds; the state is
      [(index, p_y, p_uv, u_tmp, v_tmp, ot, is_w_even)]. *)
Definition row_420_even (Tar : supported) (in_data : list rgb_t.t) (j : nat)
      (st : nat * nat * uv_t * list Z * list Z * list Z * bool)
      : option (nat * nat * uv_t * list Z * list Z * list Z * bool) :=
    let '(index, p_y, p_uv, u_tmp, v_tmp, ot, is_w_even) := st in
    rgb ← in_data !! index;
    ot ← store ot p_y (pixel_convert plane_Y rgb); let p_y := S p_y in
    let k := Nat.shiftr j 1 in
    if is_w_even then
      '(u_tmp, in_u) ← cell_add u_tmp k (pixel_convert plane_U rgb);
      '(v_tmp, in_v) ← cell_add v_tmp k (pixel_convert plane_V rgb);
      '(p_uv, ot) ← set_and_next Tar in_u in_v p_uv ot;
      Some (S index, p_y, p_uv, u_tmp, v_tmp, ot, negb is_w_even)
    else
      '(u_tmp, _) ← cell_add u_tmp k (pixel_convert plane_U rgb);
      '(v_tmp, _) ← cell_add v_tmp k (pixel_convert plane_V rgb);
      Some (S index, p_y, p_uv, u_tmp, v_tmp, ot, negb is_w_even).

(** The same on a row where [is_h_even] does not hold. *)
Definition row_420_odd (in_data : list rgb_t.t) (j : nat)
      (st : nat * nat * uv_t * list Z * list Z * list Z * bool)
      : option (nat * nat * uv_t * list Z * list Z * list Z * bool) :=
    let '(index, p_y, p_uv, u_tmp, v_tmp, ot, is_w_even) := st in
    rgb ← in_data !! index;
    ot ← store ot p_y (pixel_convert plane_Y rgb); let p_y := S p_y in
    let k := Nat.shiftr j 1 in
    if is_w_even then
      '(u_tmp, _) ← cell_add u_tmp k (pixel_convert plane_U rgb);
      '(v_tmp, _) ← cell_add v_tmp k (pixel_convert plane_V rgb);
      Some (S index, p_y, p_uv, u_tmp, v_tmp, ot, negb is_w_even)
    else
      u_tmp ← cell_set u_tmp k (pixel_convert plane_U rgb);
      v_tmp ← cell_set v_tmp k (pixel_convert plane_V rgb);
      Some (S index, p_y, p_uv, u_tmp, v_tmp, ot, negb is_w_even).

(** One row of the 4:2:0 writer; the state is
      [(index, p_y, p_uv, u_tmp, v_tmp, ot, is_h_even)]. *)
Definition rows_420 (Tar : supported) (in_data : list rgb_t.t) (in_w : nat)
      (i : nat) (st : nat * nat * uv_t * list Z * list Z * list Z * bool)
      : option (nat * nat * uv_t * list Z * list Z * list Z * bool) :=
    let '(index, p_y, p_uv, u_tmp, v_tmp, ot, is_h_even) := st in
    let is_w_even := false in
    '(index, p_y, p_uv, u_tmp, v_tmp, ot, _) ←
      (if is_h_even
       then for_ in_w 0 (row_420_even Tar in_data)
              (index, p_y, p_uv, u_tmp, v_tmp, ot, is_w_even)
       else for_ in_w 0 (row_420_odd in_data)
              (index, p_y, p_uv, u_tmp, v_tmp, ot, is_w_even));
    Some (index, p_y, p_uv, u_tmp, v_tmp, ot, negb is_h_even).

(** [transform_to<YV12 | YU12 | NV12 | NV21>].  The two accumulator
      arrays are locals: they are constructed, [u_tmp] first, before the
      loop and destroyed in the reverse order when the function returns. *)
Definition transform_to_420 {A : AllocT} (Tar : supported)
      (in_data : list rgb_t.t) (in_w in_h : nat) (ot_data : list Z)
      (junk : indeterminate) (h : heap) : option (list Z * heap) :=
    _ ← enable_if (tag_eqb Tar yuv_YV12 || tag_eqb Tar yuv_YU12
                   || tag_eqb Tar yuv_NV12 || tag_eqb Tar yuv_NV21);
    p_y ← split Tar plane_Y in_w in_h;
    p_uv ← fill Tar in_w in_h;
    let '(u_blk, u_tmp, h) :=
      new_cells (u_tmp_init junk) (Nat.shiftr in_w 1) h in
    let '(v_blk, v_tmp, h) :=
      new_cells (v_tmp_init junk) (Nat.shiftr in_w 1) h in
    let is_h_even := false in
    '(_, _, _, _, _, ot, _) ←
      for_ in_h 0 (rows_420 Tar in_data in_w)
        (0%nat, p_y, p_uv, u_tmp, v_tmp, ot_data, is_h_even);
    Some (ot, scope_block.destroy u_blk (scope_block.destroy v_blk h)).

(** The three inner loops of the 4:1:0 writer; the state is
      [(index, p_y, p_uv, u_tmp, v_tmp, ot, w_flag)], [w_flag] a [uint8_t]. *)
Definition row_410_first (in_data : list rgb_t.t) (j : nat)
      (st : nat * nat * uv_t * list Z * list Z * list Z * Z)
      : option (nat * nat * uv_t * list Z * list Z * list Z * Z) :=
    let '(index, p_y, p_uv, u_tmp, v_tmp, ot, w_flag) := st in
    rgb ← in_data !! index;
    ot ← store ot p_y (pixel_convert plane_Y rgb); let p_y := S p_y in
    let k := Nat.shiftr j 2 in
    if w_flag =? 1 then
      u_tmp ← cell_set u_tmp k (pixel_convert plane_U rgb);
      v_tmp ← cell_set v_tmp k (pixel_convert plane_V rgb);
      Some (S index, p_y, p_uv, u_tmp, v_tmp, ot, to_uint8 (w_flag + 1))
    else
      let w_flag := if w_flag =? 4 then 0 else w_flag in
      '(u_tmp, _) ← cell_add u_tmp k (pixel_convert plane_U rgb);
      '(v_tmp, _) ← cell_add v_tmp k (pixel_convert plane_V rgb);
      Some (S index, p_y, p_uv, u_tmp, v_tmp, ot, to_uint8 (w_flag + 1)).

Definition row_410_middle (in_data : list rgb_t.t) (j : nat)
      (st : nat * nat * uv_t * list Z * list Z * list Z * Z)
      : option (nat * nat * uv_t * list Z * list Z * list Z * Z) :=
    let '(index, p_y, p_uv, u_tmp, v_tmp, ot, w_flag) := st in
    rgb ← in_data !! index;
    ot ← store ot p_y (pixel_convert plane_Y rgb); let p_y := S p_y in
    let k := Nat.shiftr j 2 in
    '(u_tmp, _) ← cell_add u_tmp k (pixel_convert plane_U rgb);
    '(v_tmp, _) ← cell_add v_tmp k (pixel_convert plane_V rgb);
    Some (S index, p_y, p_uv, u_tmp, v_tmp, ot, w_flag).

Definition row_410_last (Tar : supported) (in_data : list rgb_t.t) (j : nat)
      (st : nat * nat * uv_t * list Z * list Z * list Z * Z)
      : option (nat * nat * uv_t * list Z * list Z * list Z * Z) :=
    let '(index, p_y, p_uv, u_tmp, v_tmp, ot, w_flag) := st in
    rgb ← in_data !! index;
    ot ← store ot p_y (pixel_convert plane_Y rgb); let p_y := S p_y in
    let k := Nat.shiftr j 2 in
    if w_flag =? 4 then
      '(u_tmp, in_u) ← cell_add u_tmp k (pixel_convert plane_U rgb);
      '(v_tmp, in_v) ← cell_add v_tmp k (pixel_convert plane_V rgb);
      '(p_uv, ot) ← set_and_next Tar in_u in_v p_uv ot;
      let w_flag := 0 in
      Some (S index, p_y, p_uv, u_tmp, v_tmp, ot, to_uint8 (w_flag + 1))
    else
      '(u_tmp, _) ← cell_add u_tmp k (pixel_convert plane_U rgb);
      '(v_tmp, _) ← cell_add v_tmp k (pixel_convert plane_V rgb);
      Some (S index, p_y, p_uv, u_tmp, v_tmp, ot, to_uint8 (w_flag + 1)).

(** One row of the 4:1:0 writer: the [switch (h_flag)]; the state is
      [(index, p_y, p_uv, u_tmp, v_tmp, ot, h_flag)], [h_flag] a [uint8_t].
      A value of [h_flag] without a [case] runs no loop. *)
Definition rows_410 (Tar : supported) (in_data : list rgb_t.t) (in_w : nat)
      (i : nat) (st : nat * nat * uv_t * list Z * list Z * list Z * Z)
      : option (nat * nat * uv_t * list Z * list Z * list Z * Z) :=
    let '(index, p_y, p_uv, u_tmp, v_tmp, ot, h_flag) := st in
    let w_flag := 1 in
    if h_flag =? 1 then
      '(index, p_y, p_uv, u_tmp, v_tmp, ot, _) ←
        for_ in_w 0 (row_410_first in_data)
          (index, p_y, p_uv, u_tmp, v_tmp, ot, w_flag);
      Some (index, p_y, p_uv, u_tmp, v_tmp, ot, to_uint8 (h_flag + 1))
    else if (h_flag =? 2) || (h_flag =? 3) then
      '(index, p_y, p_uv, u_tmp, v_tmp, ot, _) ←
        for_ in_w 0 (row_410_middle in_data)
          (index, p_y, p_uv, u_tmp, v_tmp, ot, w_flag);
      Some (index, p_y, p_uv, u_tmp, v_tmp, ot, to_uint8 (h_flag + 1))
    else if h_flag =? 4 then
      '(index, p_y, p_uv, u_tmp, v_tmp, ot, _) ←
        for_ in_w 0 (row_410_last Tar in_data)
          (index, p_y, p_uv, u_tmp, v_tmp, ot, w_flag);
      let h_flag := 0 in
      Some (index, p_y, p_uv, u_tmp, v_tmp, ot, to_uint8 (h_flag + 1))
    else
      Some (index, p_y, p_uv, u_tmp, v_tmp, ot, to_uint8 (h_flag + 1)).

(** [transform_to<YUV9 | YVU9>], with its two accumulator arrays as in
      the 4:2:0 writer. *)
Definition transform_to_410 {A : AllocT} (Tar : supported)
      (in_data : list rgb_t.t) (in_w in_h : nat) (ot_data : list Z)
      (junk : indeterminate) (h : heap) : option (list Z * heap) :=
    _ ← enable_if (tag_eqb Tar yuv_YUV9 || tag_eqb Tar yuv_YVU9);
    p_y ← split Tar plane_Y in_w in_h;
    p_uv ← fill Tar in_w in_h;
    let '(u_blk, u_tmp, h) :=
      new_cells (u_tmp_init junk) (Nat.shiftr in_w 2) h in
    let '(v_blk, v_tmp, h) :=
      new_cells (v_tmp_init junk) (Nat.shiftr in_w 2) h in
    let h_flag := 1 in
    '(_, _, _, _, _, ot, _) ←
      for_ in_h 0 (rows_410 Tar in_data in_w)
        (0%nat, p_y, p_uv, u_tmp, v_tmp, ot_data, h_flag);
    Some (ot, scope_block.destroy u_blk (scope_block.destroy v_blk h)).

(** A writer that constructs no object returns with the heap it found. *)
Definition on_heap (h : heap) (ot : option (list Z)) : option (list Z * heap) :=
    (λ ot, (ot, h)) <$> ot.

(** [transform_to<Tar>]: the overload enabled for the tag. *)
Definition transform_to {A : AllocT} (Tar : supported)
      (in_data : list rgb_t.t) (in_w in_h : nat) (ot_data : list Z)
      (junk : indeterminate) (h : heap) : option (list Z * heap) :=
    match Tar with
    | yuv_NV24 | yuv_NV42 =>
        on_heap h (transform_to_444 Tar in_data in_w in_h ot_data)
    | yuv_YUY2 | yuv_YVYU | yuv_UYVY | yuv_VYUY =>
        on_heap h (transform_to_422 Tar in_data in_w in_h ot_data junk)
    | yuv_Y41P =>
        on_heap h (transform_to_Y41P Tar in_data in_w in_h ot_data junk)
    | yuv_422P =>
        on_heap h (transform_to_422P Tar in_data in_w in_h ot_data junk)
    | yuv_YV12 | yuv_YU12 | yuv_NV12 | yuv_NV21 =>
        transform_to_420 Tar in_data in_w in_h ot_data junk h
    | yuv_411P =>
        on_heap h (transform_to_411P Tar in_data in_w in_h ot_data junk)
    | yuv_YVU9 | yuv_YUV9 =>
        transform_to_410 Tar in_data in_w in_h ot_data junk h
    | _ => None
    end.

End detail_transform_.

(** ** The specification's own formulas

    These follow the wording of the specification, not the header; the
    theorems below compare them with the embedded code. *)

(** Saturation to [0,255]. *)
Definition clamp (x : Z) : Z := Z.max 0 (Z.min 255 x).

(** The constant rows [(a, b, c, d, e)] of the three YUV roles. *)
Definition spec_row (P : plane_type) : Z * Z * Z * Z * Z :=
  match P with
  | plane_Y => (66, 129, 25, 128, 16)
  | plane_U => (-38, -74, 112, 128, 128)
  | plane_V => (112, -94, -18, 128, 128)
  | _ => (0, 0, 0, 0, 0)
  end.

(** [clamp(((a·c1 + b·c2 + c·c3 + d) >> 8) + e)] *)
Definition spec_convert (P : plane_type) (c1 c2 c3 : Z) : Z :=
  let '(a, b, c, d, e) := spec_row P in
  clamp (Z.shiftr (a * c1 + b * c2 + c * c3 + d) 8 + e).

(** The size table, as a function of the pixel count. *)
Definition required_bytes (S : supported) (pixels : Z) : Z :=
  match S with
  | rgb_888 | yuv_NV24 | yuv_NV42 => pixels * 3
  | rgb_888X => pixels * 4
  | rgb_565 | rgb_555
  | yuv_YUY2 | yuv_YVYU | yuv_UYVY | yuv_VYUY | yuv_422P => pixels * 2
  | rgb_444 => (pixels * 3 + 1) / 2
  | yuv_YV12 | yuv_YU12 | yuv_NV12 | yuv_NV21
  | yuv_Y41P | yuv_411P => pixels + pixels / 2
  | yuv_YVU9 | yuv_YUV9 => pixels + pixels / 8
  | rgb_MIN | rgb_MAX | yuv_MIN | yuv_MAX => 0
  end.

(** The largest value the size parameters of a tag go through: the byte
    count, and for RGB 444 the sum that is then halved. *)
Definition widest_size (S : supported) (pixels : Z) : Z :=
  match S with
  | rgb_444 => pixels * 3 + 1
  | _ => required_bytes S pixels
  end.

(** The divisibility precondition of each tag. *)
Definition size_precondition (S : supported) (pixels : Z) : Prop :=
  match S with
  | yuv_YUY2 | yuv_YVYU | yuv_UYVY | yuv_VYUY | yuv_422P => pixels mod 2 = 0
  | yuv_YV12 | yuv_YU12 | yuv_NV12 | yuv_NV21 | yuv_411P => pixels mod 4 = 0
  | yuv_Y41P => pixels mod 8 = 0
  | yuv_YVU9 | yuv_YUV9 => pixels mod 16 = 0
  | _ => True
  end.

(** The pixel at index [i] of an image (black outside it) and its three
    converted channels. *)
Definition pixel_at (in_data : list rgb_t.t) (i : nat) : rgb_t.t :=
  default (rgb_t.mk 0 0 0) (in_data !! i).

Definition Y_at (in_data : list rgb_t.t) (i : nat) : Z :=
  pixel_convert plane_Y (pixel_at in_data i).
Definition U_at (in_data : list rgb_t.t) (i : nat) : Z :=
  pixel_convert plane_U (pixel_at in_data i).
Definition V_at (in_data : list rgb_t.t) (i : nat) : Z :=
  pixel_convert plane_V (pixel_at in_data i).

(** The tags of the 4:2:2 packed family and the byte order of each:
    YUY2: Y,U,Y,V; YVYU: Y,V,Y,U; UYVY: U,Y,V,Y; VYUY: V,Y,U,Y. *)
Definition is_packed_422 (Tar : supported) : bool :=
  match Tar with
  | yuv_YUY2 | yuv_YVYU | yuv_UYVY | yuv_VYUY => true
  | _ => false
  end.

Definition packed_group (Tar : supported) (y0 u y1 v : Z) : list Z :=
  match Tar with
  | yuv_YUY2 => [y0; u; y1; v]
  | yuv_YVYU => [y0; v; y1; u]
  | yuv_UYVY => [u; y0; v; y1]
  | yuv_VYUY => [v; y0; u; y1]
  | _ => []
  end.

(** The group of the [n]-th pixel pair: both lumas, and each chroma the
    halved sum of the two pixels' chromas. *)
Definition packed_pair (Tar : supported) (in_data : list rgb_t.t) (n : nat)
    : list Z :=
  packed_group Tar
    (Y_at in_data (2 * n))
    (Z.shiftr (U_at in_data (2 * n) + U_at in_data (2 * n + 1)) 1)
    (Y_at in_data (2 * n + 1))
    (Z.shiftr (V_at in_data (2 * n) + V_at in_data (2 * n + 1)) 1).

Definition packed_422_image (Tar : supported) (in_data : list rgb_t.t)
    (pairs : nat) : list Z :=
  concat (packed_pair Tar in_data <$> seq 0 pairs).

(** Where the [n]-th U sample and the [n]-th V sample of a planar or
    semi-planar layout live, for an image of [s] pixels, and how many
    samples of each the layout has room for. *)
Definition cb_pos (Tar : supported) (s n : nat) : nat :=
  match Tar with
  | yuv_422P | yuv_YU12 | yuv_411P | yuv_YUV9 => s + n
  | yuv_YV12 => s + s / 4 + n
  | yuv_YVU9 => s + s / 16 + n
  | yuv_NV12 => s + 2 * n
  | yuv_NV21 => s + 2 * n + 1
  | _ => 0
  end%nat.

Definition cr_pos (Tar : supported) (s n : nat) : nat :=
  match Tar with
  | yuv_422P => s + s / 2 + n
  | yuv_YU12 | yuv_411P => s + s / 4 + n
  | yuv_YUV9 => s + s / 16 + n
  | yuv_YV12 | yuv_YVU9 => s + n
  | yuv_NV12 => s + 2 * n + 1
  | yuv_NV21 => s + 2 * n
  | _ => 0
  end%nat.

Definition chroma_capacity (Tar : supported) (s : nat) : nat :=
  match Tar with
  | yuv_422P => s / 2
  | yuv_YV12 | yuv_YU12 | yuv_NV12 | yuv_NV21 | yuv_411P => s / 4
  | yuv_YVU9 | yuv_YUV9 => s / 16
  | _ => 0
  end%nat.

Definition is_planar (Tar : supported) : bool :=
  match Tar with
  | yuv_422P | yuv_YV12 | yuv_YU12 | yuv_NV12 | yuv_NV21 | yuv_411P
  | yuv_YVU9 | yuv_YUV9 => true
  | _ => false
  end.

(** What a planar or semi-planar destination holds once the lumas of the
    first [ny] pixels and the first [ne] chroma pairs, of values [cu n] and
    [cv n], have been written over [ot0]: the written bytes, and every
    other byte outside the luma plane as it was. *)
Definition planes_ok (Tar : supported) (d : list rgb_t.t) (s : nat)
    (cu cv : nat → Z) (ot0 ot : list Z) (ny ne : nat) : Prop :=
  length ot = length ot0
  ∧ (∀ q, (q < ny)%nat → ot !! q = Some (Y_at d q))
  ∧ (∀ n, (n < ne)%nat →
       ot !! cb_pos Tar s n = Some (cu n) ∧ ot !! cr_pos Tar s n = Some (cv n))
  ∧ (∀ p, (ny ≤ p)%nat →
       (∀ n, (n < ne)%nat → p ≠ cb_pos Tar s n ∧ p ≠ cr_pos Tar s n) →
       ot !! p = ot0 !! p).

(** The sum of [f c] over the columns [c < j] of the [k]-th group of [g]
    columns. *)
Fixpoint gsum (g : nat) (f : nat → Z) (k j : nat) : Z :=
  match j with
  | O => 0
  | S j' => gsum g f k j' + (if (j' / g =? k)%nat then f j' else 0)
  end.

(** The sum of a channel over the block of [bw] columns and [bh] rows
    whose top-left pixel is at column [bw * k] of row [bh * r], in an image
    [in_w] pixels wide. *)
Fixpoint row_sum (f : nat → Z) (start n : nat) : Z :=
  match n with
  | O => 0
  | S n' => row_sum f start n' + f (start + n')%nat
  end.

Fixpoint block_sum (f : nat → Z) (in_w bw : nat) (top left rows : nat) : Z :=
  match rows with
  | O => 0
  | S rows' =>
      block_sum f in_w bw top left rows'
      + row_sum f ((top + rows') * in_w + left) bw
  end.

(** The chroma cursor of a planar or semi-planar writer after [n] pairs. *)
Definition uv_at (Tar : supported) (s n : nat) : detail_transform_.uv_t :=
  match Tar with
  | yuv_NV12 | yuv_NV21 => detail_transform_.uv_pairs (s + 2 * n)
  | _ => detail_transform_.uv_planes (cb_pos Tar s n) (cr_pos Tar s n)
  end.

(** What a row of [uint16_t] accumulators holds after the columns [c < j]
    of a row have been added to it, each group of [g] columns into its own
    cell: either seeded by the row itself, or started from the sums [A]. *)
Definition acc_seeded (g : nat) (f : nat → Z) (tmp : list Z) (n j : nat) : Prop :=
  length tmp = n
  ∧ ∀ k, (g * k < j)%nat → tmp !! k = Some (gsum g f k j).

Definition acc_added (g : nat) (A f : nat → Z) (tmp : list Z) (n j : nat) : Prop :=
  length tmp = n
  ∧ ∀ k, (k < n)%nat → tmp !! k = Some (A k + gsum g f k j).

Definition is_420 (Tar : supported) : bool :=
  match Tar with
  | yuv_YV12 | yuv_YU12 | yuv_NV12 | yuv_NV21 => true
  | _ => false
  end.

Definition is_410 (Tar : supported) : bool :=
  match Tar with
  | yuv_YVU9 | yuv_YUV9 => true
  | _ => false
  end.

(** The chroma sample of the [m]-th block of [bw] columns by [bh] rows,
    blocks counted row-major: the sum of the channel over the block,
    shifted right by [sh]. *)
Definition block_mean (f : nat → Z) (in_w bw bh : nat) (sh : Z) (m : nat) : Z :=
  let n := (in_w / bw)%nat in
  Z.shiftr (block_sum f in_w bw (bh * (m / n)) (bw * (m mod n)) bh) sh.

(** The chroma sample of the [m]-th group of [g] consecutive pixels: the
    sum of the channel over the group, shifted right by [sh]. *)
Definition group_mean (f : nat → Z) (g : nat) (sh : Z) (m : nat) : Z :=
  Z.shiftr (row_sum f (g * m) g) sh.

(** The 12-byte macro-block of the Y41P layout for the eight pixels that
    start at index [i]: U0 Y0 V0 Y1 U1 Y2 V1 Y3 Y4 Y5 Y6 Y7, each chroma
    the sum of four consecutive pixels shifted right by 2. *)
Definition y41p_block (d : list rgb_t.t) (i : nat) : list Z :=
  [ Z.shiftr (row_sum (U_at d) i 4) 2; Y_at d i;
    Z.shiftr (row_sum (V_at d) i 4) 2; Y_at d (i + 1);
    Z.shiftr (row_sum (U_at d) (i + 4) 4) 2; Y_at d (i + 2);
    Z.shiftr (row_sum (V_at d) (i + 4) 4) 2; Y_at d (i + 3);
    Y_at d (i + 4); Y_at d (i + 5); Y_at d (i + 6); Y_at d (i + 7) ].

Definition y41p_image (d : list rgb_t.t) (blocks : nat) : list Z :=
  concat ((λ m, y41p_block d (8 * m)) <$> seq 0 blocks).

(** *** The subsampled layouts, tag by tag

    For every subsampled target: how many chroma pairs an image of
    [in_w] × [in_h] pixels yields, which pixels are averaged into the
    [n]-th pair, and at which byte offsets the luma of pixel [i] and the
    [n]-th U and V samples are stored. *)

Definition is_subsampled (Tar : supported) : bool :=
  match Tar with
  | yuv_YUY2 | yuv_YVYU | yuv_UYVY | yuv_VYUY | yuv_422P
  | yuv_YV12 | yuv_YU12 | yuv_NV12 | yuv_NV21
  | yuv_Y41P | yuv_411P | yuv_YVU9 | yuv_YUV9 => true
  | _ => false
  end.

(** The shape of a chroma block: columns and rows. *)
Definition block_shape (Tar : supported) : nat * nat :=
  match Tar with
  | yuv_YUY2 | yuv_YVYU | yuv_UYVY | yuv_VYUY | yuv_422P => (2, 1)
  | yuv_Y41P | yuv_411P => (4, 1)
  | yuv_YV12 | yuv_YU12 | yuv_NV12 | yuv_NV21 => (2, 2)
  | yuv_YVU9 | yuv_YUV9 => (4, 4)
  | _ => (1, 1)
  end%nat.

(** What the writer of each tag needs of the dimensions: the one-row
    blocks run through the pixel sequence, the others tile the rows. *)
Definition aligned (Tar : supported) (in_w in_h : nat) : Prop :=
  match Tar with
  | yuv_YUY2 | yuv_YVYU | yuv_UYVY | yuv_VYUY | yuv_422P =>
      (in_w * in_h) mod 2 = 0
  | yuv_411P => (in_w * in_h) mod 4 = 0
  | yuv_Y41P => (in_w * in_h) mod 8 = 0
  | yuv_YV12 | yuv_YU12 | yuv_NV12 | yuv_NV21 => in_w mod 2 = 0
  | yuv_YVU9 | yuv_YUV9 => in_w mod 4 = 0
  | _ => True
  end%nat.

(** The cells of each of the two accumulator arrays of a writer: the
    count its [scope_block<uint16_t>]s are constructed with. *)
Definition accumulator_cells (Tar : supported) (in_w : nat) : nat :=
  match Tar with
  | yuv_YV12 | yuv_YU12 | yuv_NV12 | yuv_NV21 => in_w / 2
  | yuv_YVU9 | yuv_YUV9 => in_w / 4
  | _ => 0
  end%nat.

(** The two arrays the writer of the tag asks the allocator for, one after
    the other, are there: neither pointer is null.  A writer without
    arrays, or with arrays of no cell, needs nothing of the allocator. *)
Definition accumulators_allocated {A : AllocT} (Tar : supported) (in_w : nat)
    (h : heap) : Prop :=
  accumulator_cells Tar in_w = 0%nat
  ∨ let n := Z.of_nat (accumulator_cells Tar in_w) in
    let u_tmp := scope_block.new (T:=elem_uint16_t) n h in
    let v_tmp := scope_block.new (T:=elem_uint16_t) n u_tmp.2 in
    scope_block.data u_tmp.1 ≠ NULL ∧ scope_block.data v_tmp.1 ≠ NULL.

Definition chroma_count (Tar : supported) (in_w in_h : nat) : nat :=
  match Tar with
  | yuv_YUY2 | yuv_YVYU | yuv_UYVY | yuv_VYUY | yuv_422P => in_w * in_h / 2
  | yuv_Y41P | yuv_411P => in_w * in_h / 4
  | yuv_YV12 | yuv_YU12 | yuv_NV12 | yuv_NV21 => in_h / 2 * (in_w / 2)
  | yuv_YVU9 | yuv_YUV9 => in_h / 4 * (in_w / 4)
  | _ => 0
  end%nat.

(** The pixels of the [n]-th block, row by row. *)
Definition block_pixels (Tar : supported) (in_w n : nat) : list nat :=
  let '(bw, bh) := block_shape Tar in
  match bh with
  | 1%nat => (λ c, bw * n + c)%nat <$> seq 0 bw
  | _ =>
      let r := (n / (in_w / bw))%nat in
      let k := (n mod (in_w / bw))%nat in
      t ← seq 0 bh; (λ c, (bh * r + t) * in_w + bw * k + c)%nat <$> seq 0 bw
  end.

Definition sum_over (f : nat → Z) (l : list nat) : Z :=
  foldr (λ i acc, f i + acc) 0 l.

(** The floor of the arithmetic mean of [f] over the pixels [l]. *)
Definition mean_over (f : nat → Z) (l : list nat) : Z :=
  sum_over f l / Z.of_nat (length l).

Definition y_index (Tar : supported) (i : nat) : nat :=
  match Tar with
  | yuv_YUY2 | yuv_YVYU => 4 * (i / 2) + 2 * (i mod 2)
  | yuv_UYVY | yuv_VYUY => 4 * (i / 2) + 2 * (i mod 2) + 1
  | yuv_Y41P =>
      12 * (i / 8) + (if (i mod 8 <? 4)%nat then 2 * (i mod 8) + 1 else i mod 8 + 4)
  | _ => i
  end%nat.

Definition cb_index (Tar : supported) (s n : nat) : nat :=
  match Tar with
  | yuv_YUY2 => 4 * n + 1
  | yuv_YVYU => 4 * n + 3
  | yuv_UYVY => 4 * n
  | yuv_VYUY => 4 * n + 2
  | yuv_Y41P => 12 * (n / 2) + 4 * (n mod 2)
  | _ => cb_pos Tar s n
  end%nat.

Definition cr_index (Tar : supported) (s n : nat) : nat :=
  match Tar with
  | yuv_YUY2 => 4 * n + 3
  | yuv_YVYU => 4 * n + 1
  | yuv_UYVY => 4 * n + 2
  | yuv_VYUY => 4 * n
  | yuv_Y41P => 12 * (n / 2) + 4 * (n mod 2) + 2
  | _ => cr_pos Tar s n
  end%nat.

(** What a subsampled destination holds after a conversion: the luma of
    every pixel, the chroma pairs [cu n], [cv n], and every other byte as
    it was in [ot0]. *)
Definition subsampled_ok (Tar : supported) (d : list rgb_t.t) (in_w in_h : nat)
    (cu cv : nat → Z) (ot0 out : list Z) : Prop :=
  let s := (in_w * in_h)%nat in
  length out = length ot0
  ∧ (∀ i, (i < s)%nat → out !! y_index Tar i = Some (Y_at d i))
  ∧ (∀ n, (n < chroma_count Tar in_w in_h)%nat →
       out !! cb_index Tar s n = Some (cu n)
       ∧ out !! cr_index Tar s n = Some (cv n))
  ∧ (∀ p, (∀ i, (i < s)%nat → p ≠ y_index Tar i) →
       (∀ n, (n < chroma_count Tar in_w in_h)%nat →
          p ≠ cb_index Tar s n ∧ p ≠ cr_index Tar s n) →
       out !! p = ot0 !! p).

(** The chroma cursor and the row-parity flag of a state of the 4:2:0
    row loop. *)
Definition cursor_of {F : Type}
    (st : nat * nat * detail_transform_.uv_t * list Z * list Z * list Z * F)
    : detail_transform_.uv_t :=
  let '(_, _, p_uv, _, _, _, _) := st in p_uv.

Definition flag_of {F : Type}
    (st : nat * nat * detail_transform_.uv_t * list Z * list Z * list Z * F)
    : F :=
  let '(_, _, _, _, _, _, flag) := st in flag.

(** Concrete inputs for the examples: one choice of what uninitialised
    storage holds, and three pixels. *)
Definition junk_cd : detail_transform_.indeterminate :=
  {| detail_transform_.u_k_init := 52685;
     detail_transform_.v_k_init := 52685;
     detail_transform_.u_tmp_init := λ _, 52685;
     detail_transform_.v_tmp_init := λ _, 52685 |}.

Definition px_red : rgb_t.t := rgb_t.mk 0 0 255.
Definition px_green : rgb_t.t := rgb_t.mk 0 255 0.
Definition px_blue : rgb_t.t := rgb_t.mk 255 0 0.

(** ** Heaps of the examples and heap predicates *)

(** An [operator new] that has run out of memory, and an [operator delete]
    that records nothing. *)
Definition exhausted_new (size : Z) (h : heap) : ptr * heap := (NULL, h).
Definition silent_delete (p : ptr) (h : heap) : heap := h.

(** An [operator delete] that unmaps the byte it is given, so that a call
    is visible in the heap. *)
Definition unmapping_delete (p : ptr) (h : heap) : heap := delete p h.

(** An [operator new] that hands out the zeroed bytes from [base] on. *)
Definition arena_new (base : ptr) (size : Z) (h : heap) : ptr * heap :=
  (base, foldr (λ k h, <[base + Z.of_nat k := 0]> h) h (seq 0 (Z.to_nat size))).

(** An [operator new] that hands out zeroed bytes above every address in
    use, from 4096 on. *)
Definition heap_top (h : heap) : Z :=
  map_fold (λ a _ top, Z.max (a + 1) top) 4096 h.
Definition bump_new (size : Z) (h : heap) : ptr * heap :=
  arena_new (heap_top h) size h.

(** Every address of [lo, hi) is mapped. *)
Definition mapped (lo hi : Z) (h : heap) : Prop :=
  ∀ a, lo ≤ a < hi → is_Some (h !! a).

(** [h'] maps the addresses [h] maps, and differs from [h] inside
    [lo, hi) only. *)
Definition writes_within (lo hi : Z) (h h' : heap) : Prop :=
  (∀ a, is_Some (h' !! a) ↔ is_Some (h !! a))
  ∧ (∀ a, ¬ (lo ≤ a < hi) → h' !! a = h !! a).

(** The four RGB source formats that are not the canonical one. *)
Definition is_other_rgb (S : supported) : bool :=
  match S with
  | rgb_565 | rgb_555 | rgb_444 | rgb_888X => true
  | _ => false
  end.

(** Two 565 pixels, 0xF81F and 0x07E0, at the addresses 100 to 103. *)
Definition heap_565 : heap :=
  <[100 := 31]> (<[101 := 248]> (<[102 := 224]> (<[103 := 7]> ∅))).

(** ** Further predicates *)

(** Whether the destructor of [b] frees [p]: 1 if so, 0 if not. *)
Definition owns {T : elem_type} (b : scope_block.t T) (p : ptr) : nat :=
  if scope_block.is_trusted b && (scope_block.data b =? p) then 1%nat else 0%nat.

(** The first accumulator array of a state of a row loop. *)
Definition cells_of {F : Type}
    (st : nat * nat * detail_transform_.uv_t * list Z * list Z * list Z * F)
    : list Z :=
  let '(_, _, _, u_tmp, _, _, _) := st in u_tmp.

(** [p[0]] for an [rgb_t *]: the three bytes of a pixel in memory. *)
Definition load_rgb (h : heap) (p : ptr) : option rgb_t.t :=
  b ← detail_rgb_format_.load h (p + offset_b_);
  g ← detail_rgb_format_.load h (p + offset_g_);
  r ← detail_rgb_format_.load h (p + offset_r_);
  Some (rgb_t.mk b g r).

(** The pixel one iteration of [R2Y_BMP_16_TRANSFORM_HELPER_] stores for
    the 16-bit source pixel [px]. *)
Definition expand_16 (MASK_R MASK_G MASK_B : Z) (SHIFT_R SHIFT_G SHIFT_B : Z → Z)
    (px : Z) : rgb_t.t :=
  rgb_t.mk (to_uint8 (SHIFT_B (Z.land px MASK_B)))
           (to_uint8 (SHIFT_G (Z.land px MASK_G)))
           (to_uint8 (SHIFT_R (Z.land px MASK_R))).

Definition expand_565 : Z → rgb_t.t :=
  expand_16 63488 2016 31 (λ x, Z.shiftr x 8) (λ x, Z.shiftr x 3) (λ x, Z.shiftl x 3).

Definition expand_555 : Z → rgb_t.t :=
  expand_16 31744 992 31 (λ x, Z.shiftr x 7) (λ x, Z.shiftr x 2) (λ x, Z.shiftl x 3).

(** The two address ranges [a, a + n) and [b, b + m) do not meet. *)
Definition disjoint_ranges (a n b m : Z) : Prop := a + n ≤ b ∨ b + m ≤ a.

(** The two pixels one iteration of [impl_<rgb_444>::to_888] stores for
    the source bytes [x0], [x1], [x2]. *)
Definition unpack_444_first (x0 x1 : Z) : rgb_t.t :=
  rgb_t.mk (to_uint8 (Z.shiftl (Z.land x0 15) 4))
           (to_uint8 (Z.land x0 240))
           (to_uint8 (Z.shiftl (Z.land x1 15) 4)).

Definition unpack_444_second (x1 x2 : Z) : rgb_t.t :=
  rgb_t.mk (to_uint8 (Z.land x1 240))
           (to_uint8 (Z.shiftl (Z.land x2 15) 4))
           (to_uint8 (Z.land x2 240)).

(** The byte at an address, 0 where nothing is mapped. *)
Definition byte_at (h : heap) (a : ptr) : Z :=
  default 0 (detail_rgb_format_.load h a).

(** [check x] for every [x] of [from, from + fuel). *)
Fixpoint all_from (fuel : nat) (from : Z) (check : Z → bool) : bool :=
  match fuel with
  | O => true
  | S fuel => check from && all_from fuel (from + 1) check
  end.

(** The channels of a 16-bit pixel by arithmetic: five or six bits each,
    moved to the top of a byte. *)
Definition channels_565 (px : Z) : rgb_t.t :=
  rgb_t.mk (px mod 32 * 8) (px / 32 mod 64 * 4) (px / 2048 mod 32 * 8).

Definition channels_555 (px : Z) : rgb_t.t :=
  rgb_t.mk (px mod 32 * 8) (px / 32 mod 32 * 8) (px / 1024 mod 32 * 8).

Definition rgb_eqb (p q : rgb_t.t) : bool :=
  (rgb_t.b_ p =? rgb_t.b_ q) && (rgb_t.g_ p =? rgb_t.g_ q)
  && (rgb_t.r_ p =? rgb_t.r_ q).

(** Two 4:4:4 triples, six bytes, at the addresses 100 to 105. *)
Definition heap_444 : heap :=
  <[100 := 33]> (<[101 := 67]> (<[102 := 101]>
    (<[103 := 135]> (<[104 := 169]> (<[105 := 203]> ∅))))).

(** ** The entry point *)

(** The elements [in_data[0]], ..., [in_data[count - 1]] of a
    [scope_block<rgb_t>] that lives in the heap, as the list the writers
    take; [None] when one of them is not mapped. *)
Definition rgb_contents (h : heap) (p : ptr) (count : Z) : option (list rgb_t.t) :=
  mapM (λ i : nat, load_rgb h (p + sizeof_rgb_t * Z.of_nat i))
       (seq 0 (Z.to_nat count)).

(** The third and fourth template arguments of [detail_transform_::impl_]:
    [(is_rgb<S>::value << 1) | is_yuv<S>::value]. *)
Definition kind_of (S : supported) : Z :=
  Z.lor (Z.shiftl (Z.b2z (is_rgb S)) 1) (Z.b2z (is_yuv S)).

Definition kind_rgb : Z := 2.
Definition kind_yuv : Z := 1.

Module impl_.
(** [detail_transform_::impl_<In, Ot, rgb, yuv>::transform], the only
    specialisation of [impl_].  The source and the temporary array of the
    normaliser live in the heap, and the heap goes through the writer,
    which allocates and frees its accumulators in it.  The destination
    block is given by its record and by the bytes it points to; these are
    kept apart from the heap, as the writers take them, so the destination
    is taken not to overlap the source, the temporary array or the
    accumulators.  The local [rgb_data] is destroyed at the end. *)
Definition transform {A : AllocT} (In Ot : supported) (in_data : ptr)
    (in_w in_h : nat) (ot_data : scope_block.t elem_byte_t) (ot_bytes : list Z)
    (junk : detail_transform_.indeterminate) (h : heap)
    : option (list Z * heap) :=
  _ ← enable_if ((kind_of In =? kind_rgb) && (kind_of Ot =? kind_yuv));
  n ← calculate_size Ot (Z.of_nat in_w) (Z.of_nat in_h);
  _ ← assert (scope_block.size ot_data =? n);
  '(tmp, h) ← detail_transform_.rgb_formatter.to_888 In in_data
                (Z.of_nat in_w) (Z.of_nat in_h) h;
  let '(rgb_data, tmp) := scope_block.from (T := elem_rgb_t) tmp in
  let h := scope_block.destroy tmp h in
  d ← rgb_contents h (scope_block.data rgb_data) (scope_block.count rgb_data);
  '(out, h) ← detail_transform_.transform_to Ot d in_w in_h ot_bytes junk h;
  Some (out, scope_block.destroy rgb_data h).
End impl_.

(** [transform<In, Ot>(in_data, in_w, in_h, ot_data)]; a null [ot_data] is
    [None]. *)
Definition transform {A : AllocT} (In Ot : supported) (in_data : ptr)
    (in_w in_h : nat) (ot_data : option (scope_block.t elem_byte_t * list Z))
    (junk : detail_transform_.indeterminate) (h : heap)
    : option (list Z * heap) :=
  '(block, bytes) ← ot_data;
  impl_.transform In Ot in_data in_w in_h block bytes junk h.

(** Three red pixels and a green one, twelve bytes from address 200 on. *)
Definition heap_888 : heap :=
  foldr (λ '(a, v) h, <[a := v]> h) ∅
    [(200, 0); (201, 0); (202, 255); (203, 0); (204, 0); (205, 255);
     (206, 0); (207, 0); (208, 255); (209, 0); (210, 255); (211, 0)].



(** * Properties *)

(** ** Fixed-width integers *)

Lemma to_uint8_small x : is_uint8 x → to_uint8 x = x.
Proof. unfold is_uint8, to_uint8. intros ?. by apply Z.mod_small. Qed.

Lemma to_uint16_small x : is_uint16 x → to_uint16 x = x.
Proof. unfold is_uint16, to_uint16. intros ?. by apply Z.mod_small. Qed.

Lemma to_size_t_small x : is_size_t x → to_size_t x = x.
Proof. unfold is_size_t, to_size_t. intros ?. by apply Z.mod_small. Qed.

Lemma to_size_t_range x : is_size_t (to_size_t x).
Proof. unfold is_size_t, to_size_t. by apply Z.mod_pos_bound. Qed.

(** ** The colour matrix *)

Lemma clip_clamp x : convertor.clip x = clamp x.
Proof.
  unfold convertor.clip, clamp.
  destruct (Z.ltb_spec x 0); [|destruct (Z.ltb_spec 255 x)];
    rewrite to_uint8_small; unfold is_uint8; lia.
Qed.

Lemma clamp_range x : is_uint8 (clamp x).
Proof. unfold clamp, is_uint8. lia. Qed.

Lemma pixel_convert_range P p : is_uint8 (pixel_convert P p).
Proof.
  unfold pixel_convert, pixel_convert_planes.
  destruct (factor_matrix !! plane_value P); [|by unfold is_uint8].
  unfold convertor.convert. rewrite clip_clamp. apply clamp_range.
Qed.

Lemma pixel_convert_spec P p :
  is_yuv_plane P = true →
  pixel_convert P p = spec_convert P (rgb_t.r_ p) (rgb_t.g_ p) (rgb_t.b_ p).
Proof.
  destruct P; try discriminate; intros _;
    unfold pixel_convert, pixel_convert_planes, spec_convert; simpl;
    unfold convertor.convert, convertor.raw; simpl; by rewrite clip_clamp.
Qed.

(** Every intermediate value of [convert] on a YUV row fits [int32_t]. *)
Lemma convert_no_overflow P m p :
  is_yuv_plane P = true → rgb_t.wf p →
  factor_matrix !! plane_value P = Some m →
  let q := planes_t.cast_rgb p in
  is_int32 (convertor.fa_ m * planes_t.a_ q)
  ∧ is_int32 (convertor.fb_ m * planes_t.b_ q)
  ∧ is_int32 (convertor.fc_ m * planes_t.c_ q)
  ∧ is_int32 (convertor.fa_ m * planes_t.a_ q + convertor.fb_ m * planes_t.b_ q)
  ∧ is_int32 (convertor.fa_ m * planes_t.a_ q + convertor.fb_ m * planes_t.b_ q
               + convertor.fc_ m * planes_t.c_ q)
  ∧ is_int32 (convertor.raw m q)
  ∧ is_int32 (Z.shiftr (convertor.raw m q) 8 + convertor.fe_ m).
Proof.
  intros HP (Hb & Hg & Hr) Hm. destruct p as [b g r]. simpl in *.
  unfold is_uint8 in *.
  destruct P; try discriminate; simpl in Hm; injection Hm as <-;
    unfold convertor.raw; simpl; rewrite Z.shiftr_div_pow2 by lia;
    unfold is_int32;
    repeat split; try lia;
    try (apply Z.le_trans with (m := -200 + 0); [lia|];
         apply Z.add_le_mono; [apply Z.div_le_lower_bound; lia | lia]);
    try (apply Z.lt_le_trans with (m := 300 + 200); [|lia];
         apply Z.add_lt_le_mono; [apply Z.div_lt_upper_bound; lia | lia]).
Qed.

(** C1, as stated, fails at its own example: the luma of pure red is 82. *)
Lemma C1_red_is_not_81_90_240 :
  ¬ (pixel_convert plane_Y (rgb_t.mk 0 0 255) = 81
     ∧ pixel_convert plane_U (rgb_t.mk 0 0 255) = 90
     ∧ pixel_convert plane_V (rgb_t.mk 0 0 255) = 240).
Proof. intros (H & _). vm_compute in H. discriminate. Qed.

(** C1 (amended).  For every role in {Y, U, V} and every pixel whose
    channels lie in [0,255], [pixel_convert] returns
    [clamp(((a·R + b·G + c·B + d) >> 8) + e)] for the constant row of the
    role, a value in [0,255], without leaving [int32_t] on the way; for
    (R,G,B) = (255,0,0) it returns Y = 82, U = 90, V = 240. *)
Theorem C1_pixel_convert_matrix (P : plane_type) (R G B : Z) :
  is_yuv_plane P = true → is_uint8 R → is_uint8 G → is_uint8 B →
  pixel_convert P (rgb_t.mk B G R) = spec_convert P R G B
  ∧ is_uint8 (pixel_convert P (rgb_t.mk B G R))
  ∧ (∀ m, factor_matrix !! plane_value P = Some m →
          is_int32 (convertor.raw m (planes_t.cast_rgb (rgb_t.mk B G R))))
  ∧ pixel_convert plane_Y (rgb_t.mk 0 0 255) = 82
  ∧ pixel_convert plane_U (rgb_t.mk 0 0 255) = 90
  ∧ pixel_convert plane_V (rgb_t.mk 0 0 255) = 240.
Proof.
  intros HP HR HG HB. split; [by rewrite pixel_convert_spec|].
  split; [apply pixel_convert_range|].
  split; [|by vm_compute].
  intros m Hm.
  by apply (convert_no_overflow P m (rgb_t.mk B G R) HP (conj HB (conj HG HR)) Hm).
Qed.

Lemma C1_pixel_convert_matrix_witness :
  pixel_convert plane_Y (rgb_t.mk 0 0 255) = spec_convert plane_Y 255 0 0.
Proof.
  refine (proj1 (C1_pixel_convert_matrix plane_Y 255 0 0 eq_refl _ _ _));
    unfold is_uint8; lia.
Defined.

(** ** Buffer sizes *)

Lemma land_ones_mod s n : 0 ≤ n → Z.land s (Z.ones n) = s mod 2 ^ n.
Proof. intros ?. by apply Z.land_ones. Qed.

Lemma assert_true b : b = true → assert b = Some ().
Proof. by intros ->. Qed.

Lemma assert_low_bits s k m :
  0 ≤ k → m = Z.ones k → s mod 2 ^ k = 0 → assert (Z.land s m =? 0) = Some ().
Proof.
  intros Hk -> Hs. apply assert_true. rewrite land_ones_mod by done.
  by apply Z.eqb_eq.
Qed.

Lemma calculate_size_formula (S : supported) (in_w in_h : Z) :
  is_rgb S || is_yuv S = true →
  0 ≤ in_w → 0 ≤ in_h → in_w * in_h * 4 < 2 ^ size_bits →
  size_precondition S (in_w * in_h) →
  calculate_size S in_w in_h = Some (required_bytes S (in_w * in_h)).
Proof.
  intros HS Hw Hh Hfit Hpre.
  assert (Hs : 0 ≤ in_w * in_h) by lia.
  assert (Hbits : 16 < 2 ^ size_bits) by done.
  set (s := in_w * in_h) in *.
  unfold calculate_size, detail_create_buffer_.size.
  fold s. rewrite (to_size_t_small s) by (unfold is_size_t; lia).
  unfold sizeof_rgb_t, sizeof_uint16_t, sizeof_uint32_t, sizeof_yuv_t.
  destruct S; try discriminate HS; simpl in Hpre; simpl required_bytes;
    rewrite ?(assert_low_bits s 1 1), ?(assert_low_bits s 2 3),
      ?(assert_low_bits s 3 7), ?(assert_low_bits s 4 15) by (done || lia);
    simpl;
    rewrite ?Z.shiftl_mul_pow2, ?Z.shiftr_div_pow2 by lia;
    change (2 ^ 1) with 2; change (2 ^ 3) with 8;
    rewrite ?(to_size_t_small (s * 3)) by (unfold is_size_t; lia);
    repeat (rewrite to_size_t_small;
            [|unfold is_size_t; split;
              [first [lia | apply Z.add_nonneg_nonneg; [lia|apply Z.div_pos; lia]]
              |first [lia
                     |apply Z.le_lt_trans with (m := s + s); [|lia];
                      apply Z.add_le_mono; [lia|];
                      apply Z.div_le_upper_bound; lia]]]);
    try reflexivity; try (f_equal; lia).
Qed.

Lemma calculate_size_inv (S : supported) (in_w in_h n : Z) :
  0 ≤ in_w → 0 ≤ in_h → in_w * in_h * 4 < 2 ^ size_bits →
  calculate_size S in_w in_h = Some n →
  (is_rgb S || is_yuv S = true)
  ∧ size_precondition S (in_w * in_h)
  ∧ n = required_bytes S (in_w * in_h).
Proof.
  intros Hw Hh Hfit Hn.
  assert (HS : is_rgb S || is_yuv S = true)
    by (destruct S; try done; discriminate Hn).
  assert (Hpre : size_precondition S (in_w * in_h)).
  { unfold calculate_size, detail_create_buffer_.size in Hn.
    rewrite (to_size_t_small (in_w * in_h)) in Hn by (unfold is_size_t; lia).
    destruct S; try exact I; simpl in *;
      match type of Hn with
      | context [assert (Z.land _ ?m =? 0)] =>
          destruct (Z.eqb_spec (Z.land (in_w * in_h) m) 0) as [E|E];
          [|discriminate Hn]
      end;
      [change 1 with (Z.ones 1) in E | change 1 with (Z.ones 1) in E
      |change 1 with (Z.ones 1) in E | change 1 with (Z.ones 1) in E
      |change 1 with (Z.ones 1) in E | change 3 with (Z.ones 2) in E
      |change 3 with (Z.ones 2) in E | change 3 with (Z.ones 2) in E
      |change 3 with (Z.ones 2) in E | change 7 with (Z.ones 3) in E
      |change 3 with (Z.ones 2) in E | change 15 with (Z.ones 4) in E
      |change 15 with (Z.ones 4) in E];
      by rewrite land_ones_mod in E by lia. }
  split; [done|]. split; [done|].
  rewrite calculate_size_formula in Hn by done. by injection Hn.
Qed.

Lemma calculate_size_exact (S : supported) (in_w in_h : Z) :
  is_rgb S || is_yuv S = true →
  0 ≤ in_w → 0 ≤ in_h → widest_size S (in_w * in_h) < 2 ^ size_bits →
  size_precondition S (in_w * in_h) →
  calculate_size S in_w in_h = Some (required_bytes S (in_w * in_h)).
Proof.
  intros HS Hw Hh Hfit Hpre.
  assert (Hs : 0 ≤ in_w * in_h) by lia.
  assert (Hbits : 16 < 2 ^ size_bits) by done.
  set (s := in_w * in_h) in *.
  assert (Hhalf : 0 ≤ s / 2 ≤ s)
    by (split; [apply Z.div_pos; lia|apply Z.div_le_upper_bound; lia]).
  assert (Heighth : 0 ≤ s / 8 ≤ s)
    by (split; [apply Z.div_pos; lia|apply Z.div_le_upper_bound; lia]).
  assert (Hlt : s < 2 ^ size_bits)
    by (destruct S; try discriminate HS; simpl in Hfit; lia).
  unfold calculate_size, detail_create_buffer_.size.
  fold s. rewrite (to_size_t_small s) by (unfold is_size_t; lia).
  unfold sizeof_rgb_t, sizeof_uint16_t, sizeof_uint32_t, sizeof_yuv_t.
  destruct S; try discriminate HS; simpl in Hpre, Hfit; simpl required_bytes;
    rewrite ?(assert_low_bits s 1 1), ?(assert_low_bits s 2 3),
      ?(assert_low_bits s 3 7), ?(assert_low_bits s 4 15) by (done || lia);
    simpl;
    rewrite ?Z.shiftl_mul_pow2, ?Z.shiftr_div_pow2 by lia;
    change (2 ^ 1) with 2 in *; change (2 ^ 3) with 8 in *;
    rewrite ?(to_size_t_small (s * 3)) by (unfold is_size_t; lia);
    repeat (rewrite to_size_t_small by (unfold is_size_t; lia));
    try reflexivity; try (f_equal; lia).
Qed.

Lemma calculate_size_inv_exact (S : supported) (in_w in_h n : Z) :
  0 ≤ in_w → 0 ≤ in_h → widest_size S (in_w * in_h) < 2 ^ size_bits →
  calculate_size S in_w in_h = Some n →
  (is_rgb S || is_yuv S = true)
  ∧ in_w * in_h < 2 ^ size_bits
  ∧ size_precondition S (in_w * in_h)
  ∧ n = required_bytes S (in_w * in_h).
Proof.
  intros Hw Hh Hfit Hn.
  assert (HS : is_rgb S || is_yuv S = true)
    by (destruct S; try done; discriminate Hn).
  assert (Hs : 0 ≤ in_w * in_h) by lia.
  assert (Hlt : in_w * in_h < 2 ^ size_bits).
  { pose proof (Z.div_pos (in_w * in_h) 2 Hs eq_refl).
    pose proof (Z.div_pos (in_w * in_h) 8 Hs eq_refl).
    destruct S; try discriminate HS; simpl in Hfit; lia. }
  assert (Hpre : size_precondition S (in_w * in_h)).
  { unfold calculate_size, detail_create_buffer_.size in Hn.
    rewrite (to_size_t_small (in_w * in_h)) in Hn by (unfold is_size_t; lia).
    destruct S; try exact I; simpl in *;
      match type of Hn with
      | context [assert (Z.land _ ?m =? 0)] =>
          destruct (Z.eqb_spec (Z.land (in_w * in_h) m) 0) as [E|E];
          [|discriminate Hn]
      end;
      [change 1 with (Z.ones 1) in E | change 1 with (Z.ones 1) in E
      |change 1 with (Z.ones 1) in E | change 1 with (Z.ones 1) in E
      |change 1 with (Z.ones 1) in E | change 3 with (Z.ones 2) in E
      |change 3 with (Z.ones 2) in E | change 3 with (Z.ones 2) in E
      |change 3 with (Z.ones 2) in E | change 7 with (Z.ones 3) in E
      |change 3 with (Z.ones 2) in E | change 15 with (Z.ones 4) in E
      |change 15 with (Z.ones 4) in E];
      by rewrite land_ones_mod in E by lia. }
  split; [done|]. split; [done|]. split; [done|].
  rewrite calculate_size_exact in Hn by done. by injection Hn.
Qed.

(** C3, as stated, fails: a width and a height of 2^32 are values of
    [size_t] and their product satisfies every divisibility precondition,
    but the product is reduced modulo 2^64 before anything else, so
    [calculate_size] returns 0 for YU12 where the formula gives
    2^64 + 2^63. *)
Lemma C3_size_wraps_at_2_64 :
  size_precondition yuv_YU12 (2 ^ 32 * 2 ^ 32)
  ∧ calculate_size yuv_YU12 (2 ^ 32) (2 ^ 32) = Some 0
  ∧ required_bytes yuv_YU12 (2 ^ 32 * 2 ^ 32) = 2 ^ 64 + 2 ^ 63
  ∧ calculate_size yuv_YU12 (2 ^ 32) (2 ^ 32)
    ≠ Some (required_bytes yuv_YU12 (2 ^ 32 * 2 ^ 32)).
Proof.
  split; [reflexivity|]. split; [reflexivity|]. split; [reflexivity|].
  intros H. vm_compute in H. discriminate.
Qed.

(** C3 (amended).  For every format tag (every enumerator that is an RGB
    or a YUV format) and every width and height whose product satisfies
    the tag's divisibility precondition and whose size stays in the range
    of [size_t] (the byte count, and for RGB 444 the sum pixels×3 + 1 that
    is halved, is below 2^64), [calculate_size] returns exactly the
    literal formula of the tag's family; 640×480 YU12 gives 460800.  Being
    a function of the tag and the two dimensions only, it is pure and
    deterministic. *)
Theorem C3_calculate_size_formula (S : supported) (in_w in_h : Z) :
  is_rgb S || is_yuv S = true →
  0 ≤ in_w → 0 ≤ in_h → widest_size S (in_w * in_h) < 2 ^ size_bits →
  size_precondition S (in_w * in_h) →
  calculate_size S in_w in_h = Some (required_bytes S (in_w * in_h)).
Proof. apply calculate_size_exact. Qed.

Lemma C3_calculate_size_formula_witness :
  calculate_size yuv_YU12 640 480 = Some 460800.
Proof.
  refine (C3_calculate_size_formula yuv_YU12 640 480 eq_refl _ _ _ _);
    [lia | lia | reflexivity | reflexivity].
Defined.

(** ** Memory blocks *)

Lemma size_range {T : elem_type} (b : scope_block.t T) :
  is_size_t (scope_block.size b).
Proof. apply to_size_t_range. Qed.

Lemma destroy_untrusted {A : AllocT} {T : elem_type} (b : scope_block.t T) h :
  scope_block.is_trusted b = false → scope_block.destroy b h = h.
Proof. unfold scope_block.is_trusted, scope_block.destroy. by intros ->. Qed.

Lemma destroy_trusted {A : AllocT} {T : elem_type} (b : scope_block.t T) h :
  scope_block.is_trusted b = true →
  scope_block.destroy b h = free (scope_block.data b) h.
Proof. unfold scope_block.is_trusted, scope_block.destroy. by intros ->. Qed.

(** C6, as stated, fails: a block of four bytes whose allocation failed
    reports four elements, not zero. *)
Lemma C6_failed_block_keeps_count :
  let A := allocator exhausted_new silent_delete in
  let b := (scope_block.new (T := elem_byte_t) 4 ∅).1 in
  ¬ (scope_block.data b = NULL ∧ scope_block.count b = 0).
Proof. intros A b (_ & H). vm_compute in H. discriminate. Qed.

(** C6 (amended).  When the allocation fails, that is, when the requested
    byte size is zero or [operator new] returns null, a block reset (or
    constructed) with a requested element count holds a null data pointer,
    reports the requested count unchanged (zero only when zero elements
    were requested) and is marked as owning; the operation is a total
    function, so nothing is thrown. *)
Theorem C6_allocation_failure (operator_new : Z → heap → ptr * heap)
    (operator_delete : ptr → heap → heap) (T : elem_type) (count : Z)
    (this : scope_block.t T) (h : heap) :
  let A := allocator operator_new operator_delete in
  to_size_t (count * sizeof T) = 0
  ∨ (operator_new (to_size_t (count * sizeof T)) (scope_block.destroy this h)).1
    = NULL →
  let b := (scope_block.reset count this h).1 in
  scope_block.data b = NULL
  ∧ scope_block.count b = count
  ∧ scope_block.is_trusted b = true
  ∧ (scope_block.new (T := T) count h).1 = (scope_block.reset count scope_block.init h).1.
Proof.
  intros A Hfail b. subst b.
  cut (let b := (scope_block.reset count this h).1 in
       scope_block.data b = NULL ∧ scope_block.count b = count
       ∧ scope_block.is_trusted b = true).
  { intros (? & ? & ?). by repeat split. }
  unfold scope_block.reset, scope_block.size, scope_block.count. simpl.
  destruct (Z.eqb_spec (to_size_t (count * sizeof T)) 0) as [Hz|Hnz]; simpl.
  - by repeat split.
  - destruct Hfail as [Hz|Hnull]; [done|].
    destruct (operator_new _ _) as [p h'] eqn:Hnew. simpl in *.
    subst p. by repeat split.
Qed.

Lemma C6_allocation_failure_witness :
  let A := allocator exhausted_new silent_delete in
  let b := (scope_block.reset (T := elem_rgb_t) 4 scope_block.init ∅).1 in
  scope_block.data b = NULL ∧ scope_block.count b = 4.
Proof.
  intros A b.
  pose proof (C6_allocation_failure exhausted_new silent_delete elem_rgb_t 4
                scope_block.init ∅ (or_intror eq_refl)) as (H1 & H2 & _).
  exact (conj H1 H2).
Defined.

(** C7, as stated, fails: four bytes handed to a block of three-byte
    pixels are reported as one pixel, three bytes. *)
Lemma C7_swap_loses_a_byte :
  let this : scope_block.t elem_rgb_t := scope_block.init in
  let rhs : scope_block.t elem_byte_t := scope_block.mk 4096 4 true in
  let this' := (scope_block.swap_U this rhs).1 in
  scope_block.data this' = scope_block.data rhs
  ∧ scope_block.size this' ≠ scope_block.size rhs.
Proof. intros this rhs this'. split; [reflexivity|]. by vm_compute. Qed.

Lemma size_mk (T : elem_type) (p : ptr) (n : Z) (f : bool) :
  scope_block.size (scope_block.mk (T := T) p n f) = to_size_t (n * sizeof T).
Proof. reflexivity. Qed.

Lemma size_of_split (T : elem_type) (n : Z) :
  is_size_t n → to_size_t (n / sizeof T * sizeof T) = n - n mod sizeof T.
Proof.
  intros [Hn0 Hn1]. pose proof (sizeof_pos T) as HT.
  pose proof (Z.div_mod n (sizeof T)) as Hdm.
  pose proof (Z.mod_pos_bound n (sizeof T) HT) as Hm.
  rewrite to_size_t_small; [lia|]. unfold is_size_t. split.
  - apply Z.mul_nonneg_nonneg; [apply Z.div_pos|]; lia.
  - lia.
Qed.

(** C7 (amended).  The cross-type swap exchanges the two data pointers and
    the two ownership flags, and re-splits each memory by floor division:
    the byte size a block reports for the memory it now holds is the byte
    size that memory had in its previous holder rounded down to a multiple
    of the new element size.  It is therefore preserved exactly when the
    previous byte size is a multiple of the new element size. *)
Theorem C7_swap_resplits_byte_size (T U : elem_type)
    (this : scope_block.t T) (rhs : scope_block.t U) :
  let this' := (scope_block.swap_U this rhs).1 in
  let rhs' := (scope_block.swap_U this rhs).2 in
  scope_block.data this' = scope_block.data rhs
  ∧ scope_block.data rhs' = scope_block.data this
  ∧ scope_block.is_trusted this' = scope_block.is_trusted rhs
  ∧ scope_block.is_trusted rhs' = scope_block.is_trusted this
  ∧ scope_block.size this'
    = scope_block.size rhs - scope_block.size rhs mod sizeof T
  ∧ scope_block.size rhs'
    = scope_block.size this - scope_block.size this mod sizeof U
  ∧ (scope_block.size this' = scope_block.size rhs
     ↔ scope_block.size rhs mod sizeof T = 0)
  ∧ (scope_block.size rhs' = scope_block.size this
     ↔ scope_block.size this mod sizeof U = 0).
Proof.
  intros this' rhs'. subst this' rhs'.
  destruct this as [p n t], rhs as [q m u].
  unfold scope_block.swap_U, scope_block.data, scope_block.is_trusted. simpl.
  do 4 (split; [reflexivity|]).
  rewrite !size_mk, !size_of_split by apply to_size_t_range.
  repeat split; lia.
Qed.

(** C8.  Single ownership under [move]: when an owning block [a] is moved
    into a freshly constructed block (the state every constructor starts
    from), of the same or of another element type, the receiver holds
    [a]'s memory and owns it, so destroying it is exactly one call of
    [AllocT::free] on that memory, while [a] is left empty and not owning,
    so destroying it leaves the heap as it is.  Destroying any block that
    does not own (borrowed, or already moved from) leaves the heap as it
    is. *)
Theorem C8_move_transfers_ownership (A : AllocT) (T U : elem_type)
    (a : scope_block.t U) (a_same : scope_block.t T) (h : heap) :
  scope_block.is_trusted a = true →
  scope_block.is_trusted a_same = true →
  let b' := (scope_block.move_U (T := T) scope_block.init a).1 in
  let a' := (scope_block.move_U (T := T) scope_block.init a).2 in
  let b_same' := (scope_block.move scope_block.init a_same).1 in
  let a_same' := (scope_block.move scope_block.init a_same).2 in
  (scope_block.data b' = scope_block.data a
   ∧ scope_block.destroy a' h = h
   ∧ scope_block.destroy b' h = free (scope_block.data a) h
   ∧ scope_block.destroy a' (scope_block.destroy b' h) = free (scope_block.data a) h)
  ∧ (scope_block.data b_same' = scope_block.data a_same
     ∧ scope_block.destroy a_same' h = h
     ∧ scope_block.destroy b_same' h = free (scope_block.data a_same) h
     ∧ scope_block.destroy a_same' (scope_block.destroy b_same' h)
       = free (scope_block.data a_same) h)
  ∧ (∀ (V : elem_type) (c : scope_block.t V) (h0 : heap),
       scope_block.is_trusted c = false → scope_block.destroy c h0 = h0).
Proof.
  intros Ha Hs b' a' b_same' a_same'. subst b' a' b_same' a_same'.
  destruct a as [p n t], a_same as [q m u].
  unfold scope_block.is_trusted in Ha, Hs. simpl in Ha, Hs. subst t u.
  split; [|split].
  - unfold scope_block.move_U, scope_block.swap_U, scope_block.destroy,
      scope_block.data. simpl. done.
  - unfold scope_block.move, scope_block.swap, scope_block.destroy,
      scope_block.data. simpl. done.
  - intros V c h0 Hc. by apply destroy_untrusted.
Qed.

Lemma C8_move_transfers_ownership_witness :
  let A := allocator exhausted_new unmapping_delete in
  let a : scope_block.t elem_byte_t := scope_block.mk 4096 6 true in
  let h : heap := {[ 4096 := 7 ]} in
  let b' := (scope_block.move_U (T := elem_rgb_t) scope_block.init a).1 in
  let a' := (scope_block.move_U (T := elem_rgb_t) scope_block.init a).2 in
  scope_block.destroy a' h = h ∧ scope_block.destroy b' h = free 4096 h.
Proof.
  intros A a h b' a'.
  pose proof (C8_move_transfers_ownership A elem_rgb_t elem_byte_t a
                (scope_block.mk 8192 2 true) h eq_refl eq_refl)
    as ((_ & H1 & H2 & _) & _).
  exact (conj H1 H2).
Defined.

(** ** The writers: loops, stores and pixels *)

(** From here on [lia] also decides goals with division and remainder. *)
Ltac Zify.zify_post_hook ::= Z.to_euclidean_division_equations.

Section loops.
Import detail_transform_.
Context {St : Type}.

Lemma for_inv (Inv : nat → St → Prop) (body : nat → St → option St) n :
  ∀ j0 st,
    Inv j0 st →
    (∀ j st, (j0 ≤ j < j0 + n)%nat → Inv j st →
             ∃ st', body j st = Some st' ∧ Inv (S j) st') →
    ∃ st', for_ n j0 body st = Some st' ∧ Inv (j0 + n)%nat st'.
Proof.
  induction n as [|n IH]; intros j0 st H0 Hstep; simpl.
  - exists st. by rewrite Nat.add_0_r.
  - destruct (Hstep j0 st) as (st1 & -> & H1); [lia|done|]. simpl.
    destruct (IH (S j0) st1 H1) as (st2 & -> & H2).
    + intros j st' Hj. apply Hstep. lia.
    + exists st2. split; [done|]. by rewrite Nat.add_succ_r.
Qed.

Lemma while_inv (Inv : St → Prop) (m : St → nat) (cond : St → bool)
    (body : St → option St) :
  (∀ st, Inv st → cond st = true →
         ∃ st', body st = Some st' ∧ Inv st' ∧ (m st' < m st)%nat) →
  ∀ fuel st, Inv st → (m st ≤ fuel)%nat →
    ∃ st', while_ fuel cond body st = Some st' ∧ Inv st' ∧ cond st' = false.
Proof.
  intros Hstep. induction fuel as [|fuel IH]; intros st HI Hm; simpl.
  - destruct (cond st) eqn:Hc.
    + destruct (Hstep st HI Hc) as (? & _ & _ & ?). lia.
    + by exists st.
  - destruct (cond st) eqn:Hc.
    + destruct (Hstep st HI Hc) as (st1 & -> & H1 & Hlt). simpl.
      apply IH; [done|lia].
    + by exists st.
Qed.
End loops.

(** ** The normaliser *)

Section normaliser.
Import detail_rgb_format_.
Local Arguments Z.mul : simpl never.
Local Arguments Z.add : simpl never.
Local Arguments Z.shiftl : simpl never.
Local Arguments Z.shiftr : simpl never.
Local Arguments Z.land : simpl never.
Local Arguments to_size_t : simpl never.
Local Arguments to_uint8 : simpl never.

Lemma writes_within_refl lo hi h : writes_within lo hi h h.
Proof. by split. Qed.


Lemma create_buffer_888 {A : AllocT} in_w in_h h p h1 :
  0 ≤ in_w → 0 ≤ in_h → in_w * in_h * 4 < 2 ^ size_bits →
  alloc (in_w * in_h * 3) h = (p, h1) →
  create_buffer rgb_888 in_w in_h h
  = Some (scope_block.mk p (in_w * in_h * 3) true, h1).
Proof.
  intros Hw Hh Hfit Hal.
  assert (0 ≤ in_w * in_h) as Hs by nia.
  unfold create_buffer, calculate_size, detail_create_buffer_.size.
  set (s := in_w * in_h) in *. clearbody s. simpl.
  unfold scope_block.new, scope_block.reset, scope_block.init,
    scope_block.destroy, scope_block.size, scope_block.count, sizeof_rgb_t.
  simpl.
  rewrite (to_size_t_small s) by (unfold is_size_t; lia).
  rewrite (to_size_t_small (s * 3)) by (unfold is_size_t; lia).
  rewrite Z.mul_1_r.
  rewrite (to_size_t_small (s * 3)) by (unfold is_size_t; lia).
  by rewrite Hal.
Qed.

Lemma from_bytes_to_rgb s p b :
  0 ≤ s → s * 3 < 2 ^ size_bits →
  scope_block.from (T:=elem_rgb_t) (scope_block.mk (T:=elem_byte_t) p (s * 3) b)
  = (scope_block.mk p s b, scope_block.mk NULL 0 false).
Proof.
  intros Hs Hfit.
  unfold scope_block.from, scope_block.move_U, scope_block.swap_U,
    scope_block.init, scope_block.size, scope_block.count. simpl.
  rewrite Z.mul_1_r, (to_size_t_small (s * 3)) by (unfold is_size_t; lia).
  unfold sizeof_rgb_t. rewrite Z.div_mul by lia. done.
Qed.

Lemma from_rgb_to_bytes s p b :
  0 ≤ s → s * 3 < 2 ^ size_bits →
  scope_block.from (T:=elem_byte_t) (scope_block.mk (T:=elem_rgb_t) p s b)
  = (scope_block.mk p (s * 3) b, scope_block.mk NULL 0 false).
Proof.
  intros Hs Hfit.
  unfold scope_block.from, scope_block.move_U, scope_block.swap_U,
    scope_block.init, scope_block.size, scope_block.count. simpl.
  unfold sizeof_rgb_t.
  rewrite (to_size_t_small (s * 3)) by (unfold is_size_t; lia).
  rewrite Z.div_1_r. done.
Qed.

Local Arguments scope_block.from : simpl never.

Lemma to_888_other_run {A : AllocT} S in_rgb in_w in_h h p h1 :
  is_other_rgb S = true →
  0 ≤ in_w → 0 ≤ in_h → in_w * in_h * 4 < 2 ^ size_bits →
  alloc (in_w * in_h * 3) h = (p, h1) →
  detail_transform_.rgb_formatter.to_888 S in_rgb in_w in_h h
  = in_count ← calculate_size S in_w in_h;
    h' ← rgb_format S in_rgb in_count p h1;
    Some (scope_block.mk p (in_w * in_h * 3) true, h').
Proof.
  intros HS Hw Hh Hfit Hal.
  assert (0 ≤ in_w * in_h) as Hs by nia.
  assert (detail_transform_.rgb_formatter.to_888 S in_rgb in_w in_h h
          = '(tmp, h) ← create_buffer rgb_888 in_w in_h h;
            let '(ret, tmp) := scope_block.from (T:=elem_rgb_t) tmp in
            let h := scope_block.destroy tmp h in
            in_count ← calculate_size S in_w in_h;
            h ← rgb_format S in_rgb in_count (scope_block.data ret) h;
            let '(result, ret) := scope_block.from (T:=elem_byte_t) ret in
            Some (result, scope_block.destroy ret h)) as ->
    by (by destruct S).
  rewrite (create_buffer_888 in_w in_h h p h1) by done.
  cbn [mbind option_bind].
  rewrite from_bytes_to_rgb by lia.
  unfold scope_block.destroy, scope_block.data.
  cbn [scope_block.trust_ scope_block.block_].
  destruct (calculate_size S in_w in_h) as [in_count|]; [|done].
  cbn [mbind option_bind].
  destruct (rgb_format S in_rgb in_count p h1) as [h'|]; [|done].
  cbn [mbind option_bind].
  by rewrite from_rgb_to_bytes by lia.
Qed.
End normaliser.

Section stores.
Import detail_transform_.

Lemma store_Some ot p v :
  (p < length ot)%nat → store ot p v = Some (<[p := to_uint8 v]> ot).
Proof. intros ?. unfold store. by rewrite decide_True. Qed.

Lemma store_cons_0 b ot v : store (b :: ot) 0 v = Some (to_uint8 v :: ot).
Proof. apply store_Some. simpl. lia. Qed.

Lemma store_cons_S b ot p v :
  store (b :: ot) (S p) v = (b ::.) <$> store ot p v.
Proof.
  unfold store. simpl. destruct (decide (p < length ot)%nat).
  - rewrite decide_True by lia. done.
  - rewrite decide_False by lia. done.
Qed.

Lemma store_app_r pre ot p v :
  store (pre ++ ot) (length pre + p) v = (pre ++.) <$> store ot p v.
Proof.
  induction pre as [|b pre IH]; simpl.
  - by destruct (store ot p v).
  - rewrite store_cons_S, IH. by destruct (store ot p v).
Qed.

Lemma size_mul_small (a b : nat) :
  Z.of_nat a * Z.of_nat b < 2 ^ size_bits → size_mul a b = (a * b)%nat.
Proof.
  intros H. unfold size_mul. rewrite to_size_t_small; [lia|].
  unfold is_size_t. lia.
Qed.

Lemma pixel_at_lookup in_data i :
  (i < length in_data)%nat → in_data !! i = Some (pixel_at in_data i).
Proof.
  intros H. unfold pixel_at. destruct (in_data !! i) eqn:E; [done|].
  apply lookup_ge_None in E. lia.
Qed.

Lemma Y_at_range d i : is_uint8 (Y_at d i).
Proof. apply pixel_convert_range. Qed.
Lemma U_at_range d i : is_uint8 (U_at d i).
Proof. apply pixel_convert_range. Qed.
Lemma V_at_range d i : is_uint8 (V_at d i).
Proof. apply pixel_convert_range. Qed.

Lemma shiftr_sum2_uint8 a b :
  is_uint8 a → is_uint8 b → is_uint8 (Z.shiftr (a + b) 1).
Proof.
  unfold is_uint8. intros ??. rewrite Z.shiftr_div_pow2 by lia.
  change (2 ^ 1) with 2. split; [apply Z.div_pos; lia|].
  apply Z.div_lt_upper_bound; lia.
Qed.

Lemma drop_4 (l : list Z) n :
  (n + 4 ≤ length l)%nat →
  ∃ b0 b1 b2 b3, drop n l = b0 :: b1 :: b2 :: b3 :: drop (n + 4) l.
Proof.
  intros H.
  destruct (lookup_lt_is_Some_2 l n) as [b0 H0]; [lia|].
  destruct (lookup_lt_is_Some_2 l (S n)) as [b1 H1]; [lia|].
  destruct (lookup_lt_is_Some_2 l (S (S n))) as [b2 H2]; [lia|].
  destruct (lookup_lt_is_Some_2 l (S (S (S n)))) as [b3 H3]; [lia|].
  exists b0, b1, b2, b3.
  rewrite (drop_S _ _ _ H0), (drop_S _ _ _ H1), (drop_S _ _ _ H2),
    (drop_S _ _ _ H3).
  do 5 f_equal. lia.
Qed.

(** *** The 4:2:2 packed writer *)

Local Arguments Nat.mul : simpl never.
Local Arguments Nat.add : simpl never.

Lemma packed_422_image_length Tar d n :
  is_packed_422 Tar = true → length (packed_422_image Tar d n) = (4 * n)%nat.
Proof.
  intros HT. unfold packed_422_image. induction n as [|n IH]; [done|].
  rewrite seq_S, fmap_app, concat_app, length_app, IH. simpl.
  rewrite length_app. simpl.
  destruct Tar; try discriminate; simpl; lia.
Qed.

Lemma packed_422_image_S Tar d n :
  packed_422_image Tar d (S n) = packed_422_image Tar d n ++ packed_pair Tar d n.
Proof.
  unfold packed_422_image. rewrite seq_S, fmap_app, concat_app. simpl.
  by rewrite app_nil_r.
Qed.

Lemma packed_422_body_spec Tar L d ot0 n u_k v_k :
  yuv_t_of Tar = Some L →
  (2 * n + 2 ≤ length d)%nat →
  (4 * n + 4 ≤ length ot0)%nat →
  ∃ u_k' v_k',
    packed_422_body L d
      ((2 * n)%nat, (4 * n)%nat, u_k, v_k,
       packed_422_image Tar d n ++ drop (4 * n) ot0)
    = Some ((2 * S n)%nat, (4 * S n)%nat, u_k', v_k',
            packed_422_image Tar d (S n) ++ drop (4 * S n) ot0).
Proof.
  intros HL Hd Hot.
  assert (HT : is_packed_422 Tar = true) by (destruct Tar; try discriminate; done).
  destruct (drop_4 ot0 (4 * n)) as (b0 & b1 & b2 & b3 & Hdrop); [lia|].
  rewrite Hdrop. unfold packed_422_body.
  pose proof (packed_422_image_length Tar d n HT) as Hlen.
  pose proof (U_at_range d (2 * n)) as HU0.
  pose proof (U_at_range d (S (2 * n))) as HU1.
  pose proof (V_at_range d (2 * n)) as HV0.
  pose proof (V_at_range d (S (2 * n))) as HV1.
  pose proof (Y_at_range d (2 * n)) as HY0.
  pose proof (Y_at_range d (S (2 * n))) as HY1.
  pose proof (shiftr_sum2_uint8 _ _ HU0 HU1) as HUs.
  pose proof (shiftr_sum2_uint8 _ _ HV0 HV1) as HVs.
  rewrite (pixel_at_lookup d (2 * n)) by lia. simpl.
  rewrite (pixel_at_lookup d (S (2 * n))) by lia. simpl.
  fold (Y_at d (2 * n)) (U_at d (2 * n)) (V_at d (2 * n))
    (Y_at d (S (2 * n))) (U_at d (S (2 * n))) (V_at d (S (2 * n))).
  rewrite (to_uint16_small (U_at d (2 * n))),
    (to_uint16_small (V_at d (2 * n)))
    by (unfold is_uint8, is_uint16 in *; lia).
  rewrite (to_uint16_small (U_at d (2 * n) + U_at d (S (2 * n)))),
    (to_uint16_small (V_at d (2 * n) + V_at d (S (2 * n))))
    by (unfold is_uint8, is_uint16 in *; lia).
  eexists _, _.
  rewrite packed_422_image_S, <- app_assoc.
  replace (drop (4 * S n) ot0) with (drop (4 * n + 4) ot0) by (f_equal; lia).
  rewrite <- Hlen. unfold packed_pair.
  replace (2 * n + 1)%nat with (S (2 * n)) by lia.
  destruct Tar; try discriminate; simpl in HL; injection HL as <-; simpl;
    rewrite ?store_app_r, ?store_cons_S, ?store_cons_0; simpl;
    rewrite ?store_app_r, ?store_cons_S, ?store_cons_0; simpl;
    rewrite ?store_app_r, ?store_cons_S, ?store_cons_0; simpl;
    rewrite ?store_app_r, ?store_cons_S, ?store_cons_0; simpl;
    rewrite !to_uint8_small by done;
    repeat f_equal; lia.
Qed.

Lemma transform_to_422_spec Tar d in_w in_h ot0 junk :
  is_packed_422 Tar = true →
  Z.of_nat in_w * Z.of_nat in_h < 2 ^ size_bits →
  length d = (in_w * in_h)%nat →
  ((in_w * in_h) mod 2 = 0)%nat →
  length ot0 = (2 * (in_w * in_h))%nat →
  transform_to_422 Tar d in_w in_h ot0 junk
  = Some (packed_422_image Tar d (in_w * in_h / 2)).
Proof.
  intros HT Hfit Hd Heven Hot.
  assert (∃ L, yuv_t_of Tar = Some L) as [L HL]
    by (destruct Tar; try discriminate; eexists; reflexivity).
  unfold transform_to_422. rewrite HL, (size_mul_small _ _ Hfit). simpl.
  clear Hfit. set (s := (in_w * in_h)%nat) in *. clearbody s.
  destruct (while_inv
    (λ st, ∃ n u v, st = ((2 * n)%nat, (4 * n)%nat, u, v,
                          packed_422_image Tar d n ++ drop (4 * n) ot0)
                    ∧ (2 * n ≤ s)%nat)
    (λ '(i, _, _, _, _), (s - i)%nat)
    (λ '(i, _, _, _, _), bool_decide (i < s)%nat)
    (packed_422_body L d)) with (fuel := s)
    (st := (0%nat, 0%nat, u_k_init junk, v_k_init junk, ot0))
    as (st' & -> & (n & u & v & -> & Hn) & Hc).
  - intros st (n & u & v & -> & Hn) Hc. apply bool_decide_eq_true in Hc.
    destruct (packed_422_body_spec Tar L d ot0 n u v HL) as (u' & v' & ->);
      [lia|lia|].
    eexists. split; [done|]. split; [|lia].
    exists (S n), u', v'. split; [done|lia].
  - exists 0%nat, (u_k_init junk), (v_k_init junk). split; [|lia]. done.
  - lia.
  - apply bool_decide_eq_false in Hc. simpl.
    assert (n = (s / 2)%nat) as -> by lia.
    rewrite drop_ge by lia. by rewrite app_nil_r.
Qed.
End stores.

(** Range of a converted channel, by the head symbol only. *)
Ltac at_range :=
  match goal with
  | |- is_uint8 (Y_at _ _) => apply Y_at_range
  | |- is_uint8 (U_at _ _) => apply U_at_range
  | |- is_uint8 (V_at _ _) => apply V_at_range
  end.


(** ** Planar and semi-planar destinations *)

Section planes.
Import detail_transform_.
Local Arguments Nat.mul : simpl never.
Local Arguments Nat.add : simpl never.
Local Arguments Nat.div : simpl never.

Lemma shiftr_1 n : Nat.shiftr n 1 = (n / 2)%nat.
Proof. by rewrite Nat.shiftr_div_pow2. Qed.
Lemma shiftr_2 n : Nat.shiftr n 2 = (n / 4)%nat.
Proof. by rewrite Nat.shiftr_div_pow2. Qed.
Lemma shiftr_4 n : Nat.shiftr n 4 = (n / 16)%nat.
Proof. by rewrite Nat.shiftr_div_pow2. Qed.

Lemma lookup_store_eq ot p v ot' :
  store ot p v = Some ot' → ot' !! p = Some (to_uint8 v).
Proof.
  unfold store. case_decide; [|done]. intros [= <-].
  by apply list_lookup_insert_eq.
Qed.

Lemma lookup_store_ne ot p v ot' q :
  store ot p v = Some ot' → q ≠ p → ot' !! q = ot !! q.
Proof.
  unfold store. case_decide; [|done]. intros [= <-] ?.
  by apply list_lookup_insert_ne.
Qed.

Lemma length_store ot p v ot' : store ot p v = Some ot' → length ot' = length ot.
Proof.
  unfold store. case_decide; [|done]. intros [= <-]. apply length_insert.
Qed.

Lemma layout_ok Tar s L :
  is_planar Tar = true →
  (s + 2 * chroma_capacity Tar s ≤ L)%nat →
  ∀ n, (n < chroma_capacity Tar s)%nat →
    (s ≤ cb_pos Tar s n < L)%nat ∧ (s ≤ cr_pos Tar s n < L)%nat
    ∧ (∀ m, (m < chroma_capacity Tar s)%nat →
         cb_pos Tar s n ≠ cr_pos Tar s m
         ∧ (cb_pos Tar s n = cb_pos Tar s m → n = m)
         ∧ (cr_pos Tar s n = cr_pos Tar s m → n = m)).
Proof.
  intros HT HL n Hn.
  destruct Tar; try discriminate; unfold cb_pos, cr_pos, chroma_capacity in *;
    (split; [lia|split; [lia|intros m Hm; lia]]).
Qed.

Lemma fill_spec Tar in_w in_h :
  is_planar Tar = true →
  fill Tar in_w in_h = Some (uv_at Tar (size_mul in_w in_h) 0).
Proof.
  intros HT.
  destruct Tar; try discriminate; unfold fill, split, uv_at, cb_pos, cr_pos;
    simpl; rewrite ?shiftr_1, ?shiftr_2, ?shiftr_4; do 2 f_equal; lia.
Qed.

Lemma split_Y Tar in_w in_h : split Tar plane_Y in_w in_h = Some 0%nat.
Proof. by destruct Tar. Qed.

Lemma planes_ok_start Tar d s cu cv ot0 : planes_ok Tar d s cu cv ot0 ot0 0 0.
Proof. repeat split; intros; lia || done. Qed.

Lemma planes_ok_store_Y Tar d s cu cv ot0 ot ny ne :
  is_planar Tar = true →
  (s + 2 * chroma_capacity Tar s ≤ length ot0)%nat →
  (ny < s)%nat → (ne ≤ chroma_capacity Tar s)%nat →
  planes_ok Tar d s cu cv ot0 ot ny ne →
  ∃ ot', store ot ny (Y_at d ny) = Some ot'
         ∧ planes_ok Tar d s cu cv ot0 ot' (S ny) ne.
Proof.
  intros HT HL Hny Hne (Hlen & HY & HC & HF).
  pose proof (layout_ok Tar s _ HT HL) as Hlay.
  rewrite store_Some by lia. eexists. split; [done|].
  split; [by rewrite length_insert|]. split; [|split].
  - intros q Hq. destruct (decide (q = ny)) as [->|Hne'].
    + rewrite list_lookup_insert_eq by lia.
      by rewrite to_uint8_small by apply Y_at_range.
    + rewrite list_lookup_insert_ne by done. apply HY. lia.
  - intros n Hn. destruct (Hlay n) as (? & ? & _); [lia|].
    rewrite !list_lookup_insert_ne by lia. by apply HC.
  - intros p Hp Hfr. rewrite list_lookup_insert_ne by lia. apply HF; [lia|done].
Qed.

Lemma set_and_next_uv_at Tar s n in_u in_v ot sh :
  is_planar Tar = true →
  set_and_next_shift Tar = Some sh →
  (cb_pos Tar s n < length ot)%nat → (cr_pos Tar s n < length ot)%nat →
  set_and_next Tar in_u in_v (uv_at Tar s n) ot
  = Some (uv_at Tar s (S n),
          <[cr_pos Tar s n := to_uint8 (Z.shiftr in_v sh)]>
            (<[cb_pos Tar s n := to_uint8 (Z.shiftr in_u sh)]> ot)).
Proof.
  intros HT Hsh Hcb Hcr. unfold set_and_next. rewrite Hsh. simpl.
  destruct Tar; try discriminate; unfold uv_at, cb_pos, cr_pos in *; simpl;
    (rewrite store_Some by lia); simpl;
    (rewrite store_Some by (rewrite length_insert; lia)); simpl;
    repeat (f_equal; try lia).
Qed.

Lemma planes_ok_set_and_next Tar d s cu cv ot0 ot ny ne in_u in_v sh :
  is_planar Tar = true →
  set_and_next_shift Tar = Some sh →
  (s + 2 * chroma_capacity Tar s ≤ length ot0)%nat →
  (ny ≤ s)%nat → (ne < chroma_capacity Tar s)%nat →
  cu ne = to_uint8 (Z.shiftr in_u sh) →
  cv ne = to_uint8 (Z.shiftr in_v sh) →
  planes_ok Tar d s cu cv ot0 ot ny ne →
  ∃ ot', set_and_next Tar in_u in_v (uv_at Tar s ne) ot
         = Some (uv_at Tar s (S ne), ot')
         ∧ planes_ok Tar d s cu cv ot0 ot' ny (S ne).
Proof.
  intros HT Hsh HL Hny Hne Hu Hv (Hlen & HY & HC & HF).
  pose proof (layout_ok Tar s _ HT HL) as Hlay.
  destruct (Hlay ne Hne) as (Hcb & Hcr & Hdis).
  rewrite (set_and_next_uv_at Tar s ne in_u in_v ot sh) by (done || lia).
  eexists. split; [done|].
  split; [by rewrite !length_insert|]. split; [|split].
  - intros q Hq. rewrite !list_lookup_insert_ne by lia. by apply HY.
  - intros n Hn. destruct (decide (n = ne)) as [->|Hne'].
    + destruct (Hdis ne Hne) as (Hx & _ & _). split.
      * rewrite list_lookup_insert_ne by done.
        rewrite list_lookup_insert_eq by lia. by rewrite Hu.
      * rewrite list_lookup_insert_eq by (rewrite length_insert; lia).
        by rewrite Hv.
    + assert (n < ne)%nat as Hlt by lia.
      destruct (Hlay n) as (_ & _ & Hdis'); [lia|].
      destruct (Hdis' ne Hne) as (Hx1 & Hx2 & Hx3).
      destruct (Hdis n) as (Hx4 & _ & _); [lia|].
      rewrite !list_lookup_insert_ne by (try done; intros E; symmetry in E;
        (by apply Hx2 in E) || (by apply Hx3 in E) || done).
      by apply HC.
  - intros p Hp Hfr.
    destruct (Hfr ne) as (? & ?); [lia|].
    rewrite !list_lookup_insert_ne by done.
    apply HF; [done|]. intros n Hn. apply Hfr. lia.
Qed.
End planes.

(** ** Accumulator rows *)

Section accumulators.
Import detail_transform_.
Local Arguments Nat.mul : simpl never.
Local Arguments Nat.add : simpl never.
Local Arguments Nat.div : simpl never.

Lemma div_eq_iff g j k :
  (0 < g)%nat → (j / g = k ↔ g * k ≤ j < g * k + g)%nat.
Proof.
  intros Hg. split.
  - intros <-. pose proof (Nat.div_mod_eq j g) as H.
    pose proof (Nat.mod_upper_bound j g) as H'. lia.
  - intros [H1 H2]. symmetry. apply (Nat.div_unique j g k (j - g * k)); lia.
Qed.

Lemma gsum_S_in g f k j :
  (j / g = k)%nat → gsum g f k (S j) = gsum g f k j + f j.
Proof. intros H. simpl. by rewrite (proj2 (Nat.eqb_eq _ _) H). Qed.

Lemma gsum_S_out g f k j :
  (j / g ≠ k)%nat → gsum g f k (S j) = gsum g f k j.
Proof. intros H. simpl. rewrite (proj2 (Nat.eqb_neq _ _) H). lia. Qed.

Local Arguments gsum : simpl never.

Lemma gsum_zero g f k j : (0 < g)%nat → (j ≤ g * k)%nat → gsum g f k j = 0.
Proof.
  intros Hg. induction j as [|j IH]; intros Hj; [done|].
  rewrite gsum_S_out, IH; [done|lia|].
  intros E. apply div_eq_iff in E; lia.
Qed.

Lemma gsum_frozen g f k j :
  (0 < g)%nat → (g * k + g ≤ j)%nat → gsum g f k j = gsum g f k (g * k + g).
Proof.
  intros Hg. induction j as [|j IH]; intros Hj; [lia|].
  destruct (decide (g * k + g = S j)%nat) as [->|Hne]; [done|].
  rewrite gsum_S_out, IH; [done|lia|].
  intros E. apply div_eq_iff in E; lia.
Qed.

Lemma gsum_bound g f k j :
  (0 < g)%nat → (∀ c, is_uint8 (f c)) →
  0 ≤ gsum g f k j ≤ 255 * Z.of_nat (g `min` (j - g * k)).
Proof.
  intros Hg Hf. induction j as [|j IH]; [unfold gsum; lia|].
  destruct (decide (j / g = k)%nat) as [E|E].
  - rewrite gsum_S_in by done. apply div_eq_iff in E; [|done].
    pose proof (Hf j) as Hfj. unfold is_uint8 in Hfj. lia.
  - rewrite gsum_S_out by done. lia.
Qed.

Lemma gsum_le g f k j :
  (0 < g)%nat → (∀ c, is_uint8 (f c)) →
  0 ≤ gsum g f k j ≤ 255 * Z.of_nat g.
Proof. intros Hg Hf. pose proof (gsum_bound g f k j Hg Hf). lia. Qed.

Lemma gsum_full_2 f k j :
  (2 * k + 2 ≤ j)%nat → gsum 2 f k j = f (2 * k)%nat + f (2 * k + 1)%nat.
Proof.
  intros Hj. rewrite gsum_frozen by lia.
  replace (2 * k + 2)%nat with (S (S (2 * k))) by lia.
  rewrite !gsum_S_in by (apply div_eq_iff; lia).
  rewrite gsum_zero by lia. replace (S (2 * k)) with (2 * k + 1)%nat by lia. lia.
Qed.

Lemma gsum_full_4 f k j :
  (4 * k + 4 ≤ j)%nat →
  gsum 4 f k j
  = f (4 * k)%nat + f (4 * k + 1)%nat + f (4 * k + 2)%nat + f (4 * k + 3)%nat.
Proof.
  intros Hj. rewrite gsum_frozen by lia.
  replace (4 * k + 4)%nat with (S (S (S (S (4 * k))))) by lia.
  rewrite !gsum_S_in by (apply div_eq_iff; lia).
  rewrite gsum_zero by lia.
  replace (S (4 * k)) with (4 * k + 1)%nat by lia.
  replace (S (4 * k + 1)) with (4 * k + 2)%nat by lia.
  replace (S (4 * k + 2)) with (4 * k + 3)%nat by lia. lia.
Qed.

Lemma acc_seeded_start g f tmp : acc_seeded g f tmp (length tmp) 0.
Proof. split; [done|]. intros k Hk. lia. Qed.

Lemma acc_seeded_added g f tmp n j f' :
  (0 < g)%nat → (j = g * n)%nat →
  acc_seeded g f tmp n j →
  acc_added g (λ k, gsum g f k j) f' tmp n 0.
Proof.
  intros Hg -> [Hlen H]. split; [done|]. intros k Hk. simpl.
  rewrite Z.add_0_r. apply H. apply Nat.mul_lt_mono_pos_l; lia.
Qed.

Lemma acc_added_rebase g A f tmp n j f' :
  acc_added g A f tmp n j →
  acc_added g (λ k, A k + gsum g f k j) f' tmp n 0.
Proof.
  intros [Hlen H]. split; [done|]. intros k Hk. simpl.
  rewrite Z.add_0_r. by apply H.
Qed.

Lemma cell_set_seeded g f tmp n j :
  (0 < g)%nat → (j < g * n)%nat → (j mod g = 0)%nat → is_uint8 (f j) →
  acc_seeded g f tmp n j →
  ∃ tmp', cell_set tmp (j / g) (f j) = Some tmp' ∧ acc_seeded g f tmp' n (S j).
Proof.
  intros Hg Hj Hmod Hf [Hlen H].
  assert (j / g < n)%nat as Hk by (apply Nat.Div0.div_lt_upper_bound; lia).
  pose proof (Nat.div_mod_eq j g) as Hdm.
  unfold cell_set. rewrite decide_True by lia. eexists. split; [done|].
  split; [by rewrite length_insert|].
  intros k Hk'. destruct (decide (k = j / g)%nat) as [->|Hne].
  - rewrite list_lookup_insert_eq by lia.
    rewrite gsum_S_in, gsum_zero by (done || lia).
    rewrite to_uint16_small; [f_equal; lia|].
    unfold is_uint8, is_uint16 in *. lia.
  - rewrite list_lookup_insert_ne by done.
    rewrite gsum_S_out by done. apply H.
    assert (g * k ≠ j)%nat; [|lia].
    intros E. apply Hne. symmetry. apply div_eq_iff; lia.
Qed.

Lemma cell_add_seeded g f tmp n j :
  (0 < g ≤ 64)%nat → (j < g * n)%nat → (j mod g ≠ 0)%nat →
  (∀ c, is_uint8 (f c)) →
  acc_seeded g f tmp n j →
  ∃ tmp', cell_add tmp (j / g) (f j) = Some (tmp', gsum g f (j / g) (S j))
          ∧ acc_seeded g f tmp' n (S j).
Proof.
  intros Hg Hj Hmod Hf [Hlen H].
  assert (j / g < n)%nat as Hk by (apply Nat.Div0.div_lt_upper_bound; lia).
  pose proof (Nat.div_mod_eq j g) as Hdm.
  unfold cell_add. rewrite (H (j / g)%nat) by lia. simpl.
  pose proof (gsum_le g f (j / g) (S j) (proj1 Hg) Hf) as Hb.
  rewrite gsum_S_in in Hb by done.
  rewrite to_uint16_small by (unfold is_uint16; lia).
  eexists. split; [by rewrite gsum_S_in by done|].
  split; [by rewrite length_insert|].
  intros k Hk'. destruct (decide (k = j / g)%nat) as [->|Hne].
  - rewrite list_lookup_insert_eq by lia. by rewrite gsum_S_in.
  - rewrite list_lookup_insert_ne by done.
    rewrite gsum_S_out by done. apply H.
    assert (g * k ≠ j)%nat; [|lia].
    intros E. apply Hne. symmetry. apply div_eq_iff; lia.
Qed.

Lemma cell_add_added g A f tmp n j Amax :
  (0 < g)%nat → (j < g * n)%nat →
  (∀ c, is_uint8 (f c)) →
  (∀ k, 0 ≤ A k ≤ Amax) → Amax + 255 * Z.of_nat g < 2 ^ 16 →
  acc_added g A f tmp n j →
  ∃ tmp', cell_add tmp (j / g) (f j)
          = Some (tmp', A (j / g)%nat + gsum g f (j / g) (S j))
          ∧ acc_added g A f tmp' n (S j).
Proof.
  intros Hg Hj Hf HA Hmax [Hlen H].
  assert (j / g < n)%nat as Hk by (apply Nat.Div0.div_lt_upper_bound; lia).
  unfold cell_add. rewrite (H (j / g)%nat) by lia. simpl.
  pose proof (gsum_le g f (j / g) (S j) Hg Hf) as Hb.
  pose proof (HA (j / g)%nat) as HAk.
  rewrite gsum_S_in in Hb by done.
  rewrite to_uint16_small by (unfold is_uint16; lia).
  eexists. split; [by rewrite gsum_S_in, Z.add_assoc by done|].
  split; [by rewrite length_insert|].
  intros k Hk'. destruct (decide (k = j / g)%nat) as [->|Hne].
  - rewrite list_lookup_insert_eq by lia. rewrite gsum_S_in by done.
    f_equal. lia.
  - rewrite list_lookup_insert_ne by done.
    rewrite gsum_S_out by done. by apply H.
Qed.
End accumulators.

(** ** The 4:2:0 writer *)

Section writer_420.
Import detail_transform_.
Local Arguments Nat.mul : simpl never.
Local Arguments Nat.add : simpl never.
Local Arguments Nat.div : simpl never.
Local Arguments Nat.odd : simpl never.
Local Arguments Nat.shiftr : simpl never.
Local Arguments gsum : simpl never.
Local Arguments Y_at : simpl never.
Local Arguments U_at : simpl never.
Local Arguments V_at : simpl never.

Lemma odd_true_mod j : Nat.odd j = true → (j mod 2 ≠ 0)%nat.
Proof. intros H. apply Nat.odd_spec in H as [m ->]. lia. Qed.

Lemma odd_false_mod j : Nat.odd j = false → (j mod 2 = 0)%nat.
Proof.
  intros H. assert (Nat.even j = true) as He by (by rewrite <- Nat.negb_odd, H).
  apply Nat.even_spec in He as [m ->]. lia.
Qed.

Lemma odd_S j : Nat.odd (S j) = negb (Nat.odd j).
Proof. by rewrite Nat.odd_succ, <- Nat.negb_odd. Qed.

Lemma is_420_planar Tar : is_420 Tar = true → is_planar Tar = true.
Proof. by destruct Tar. Qed.

Lemma is_420_shift Tar : is_420 Tar = true → set_and_next_shift Tar = Some 2.
Proof. by destruct Tar. Qed.

Context (Tar : supported) (d : list rgb_t.t) (s : nat) (cu cv : nat → Z)
  (ot0 : list Z) (n : nat).
Context (HT : is_420 Tar = true).
Context (HL : (s + 2 * chroma_capacity Tar s ≤ length ot0)%nat).
Context (Hd : length d = s).


Lemma row_420_odd_spec a ne p_uv u v ot :
  (a + 2 * n ≤ s)%nat → (ne ≤ chroma_capacity Tar s)%nat →
  length u = n → length v = n →
  planes_ok Tar d s cu cv ot0 ot a ne →
  ∃ u' v' ot' b,
    for_ (2 * n) 0 (row_420_odd d) (a, a, p_uv, u, v, ot, false)
    = Some ((a + 2 * n)%nat, (a + 2 * n)%nat, p_uv, u', v', ot', b)
    ∧ acc_seeded 2 (λ c, U_at d (a + c)) u' n (2 * n)
    ∧ acc_seeded 2 (λ c, V_at d (a + c)) v' n (2 * n)
    ∧ planes_ok Tar d s cu cv ot0 ot' (a + 2 * n) ne.
Proof using HT HL Hd.
  intros Ha Hne Hu Hv Hok.
  destruct (for_inv
    (λ j st, ∃ u v ot,
       st = ((a + j)%nat, (a + j)%nat, p_uv, u, v, ot, Nat.odd j)
       ∧ acc_seeded 2 (λ c, U_at d (a + c)) u n j
       ∧ acc_seeded 2 (λ c, V_at d (a + c)) v n j
       ∧ planes_ok Tar d s cu cv ot0 ot (a + j) ne)
    (row_420_odd d) (2 * n) 0 (a, a, p_uv, u, v, ot, false))
    as (st' & Hrun & (u' & v' & ot' & -> & HU & HV & Hok')).
  - exists u, v, ot. rewrite Nat.add_0_r.
    split; [done|]. split; [|split; [|done]]; (split; [done|]); intros k Hk; lia.
  - clear u v ot Hu Hv Hok.
    intros j st Hj (u & v & ot & -> & HU & HV & Hok).
    unfold row_420_odd.
    rewrite (pixel_at_lookup d (a + j)) by lia. simpl.
    fold (Y_at d (a + j)) (U_at d (a + j)) (V_at d (a + j)).
    destruct (planes_ok_store_Y Tar d s cu cv ot0 ot (a + j) ne)
      as (ot' & Hst & Hok'); [by apply is_420_planar|done|lia|done|done|].
    rewrite Hst. simpl. rewrite shiftr_1.
    destruct (Nat.odd j) eqn:Hodd.
    + destruct (cell_add_seeded 2 (λ c, U_at d (a + c)) u n j)
        as (u' & Hu' & HU'); [lia|lia|by apply odd_true_mod
                             |intros; apply U_at_range|done|].
      destruct (cell_add_seeded 2 (λ c, V_at d (a + c)) v n j)
        as (v' & Hv' & HV'); [lia|lia|by apply odd_true_mod
                             |intros; apply V_at_range|done|].
      simpl in Hu', Hv'. rewrite Hu'. simpl.
      rewrite Hv'. simpl.
      eexists. split; [done|]. exists u', v', ot'.
      rewrite odd_S, Hodd. replace (a + S j)%nat with (S (a + j)) by lia.
      done.
    + destruct (cell_set_seeded 2 (λ c, U_at d (a + c)) u n j)
        as (u' & Hu' & HU'); [lia|lia|by apply odd_false_mod
                             |apply U_at_range|done|].
      destruct (cell_set_seeded 2 (λ c, V_at d (a + c)) v n j)
        as (v' & Hv' & HV'); [lia|lia|by apply odd_false_mod
                             |apply V_at_range|done|].
      simpl in Hu', Hv'. rewrite Hu'. simpl.
      rewrite Hv'. simpl.
      eexists. split; [done|]. exists u', v', ot'.
      rewrite odd_S, Hodd. replace (a + S j)%nat with (S (a + j)) by lia.
      done.
  - exists u', v', ot', (Nat.odd (0 + 2 * n)).
    rewrite Hrun. replace (a + (0 + 2 * n))%nat with (a + 2 * n)%nat by lia.
    done.
Qed.

Lemma row_420_even_spec a ne u v ot AU AV :
  (a + 2 * n ≤ s)%nat → (ne + n ≤ chroma_capacity Tar s)%nat →
  acc_added 2 AU (λ c, U_at d (a + c)) u n 0 →
  acc_added 2 AV (λ c, V_at d (a + c)) v n 0 →
  (∀ k, 0 ≤ AU k ≤ 510) → (∀ k, 0 ≤ AV k ≤ 510) →
  (∀ k, (k < n)%nat →
     cu (ne + k)%nat
     = to_uint8 (Z.shiftr (AU k + (U_at d (a + 2 * k)
                                   + U_at d (a + (2 * k + 1)))) 2)) →
  (∀ k, (k < n)%nat →
     cv (ne + k)%nat
     = to_uint8 (Z.shiftr (AV k + (V_at d (a + 2 * k)
                                   + V_at d (a + (2 * k + 1)))) 2)) →
  planes_ok Tar d s cu cv ot0 ot a ne →
  ∃ u' v' ot' b,
    for_ (2 * n) 0 (row_420_even Tar d) (a, a, uv_at Tar s ne, u, v, ot, false)
    = Some ((a + 2 * n)%nat, (a + 2 * n)%nat, uv_at Tar s (ne + n),
            u', v', ot', b)
    ∧ length u' = n ∧ length v' = n
    ∧ planes_ok Tar d s cu cv ot0 ot' (a + 2 * n) (ne + n).
Proof using HT HL Hd.
  intros Ha Hne HU0 HV0 HAU HAV Hcu Hcv Hok.
  destruct (for_inv
    (λ j st, ∃ u v ot,
       st = ((a + j)%nat, (a + j)%nat, uv_at Tar s (ne + j / 2), u, v, ot,
             Nat.odd j)
       ∧ acc_added 2 AU (λ c, U_at d (a + c)) u n j
       ∧ acc_added 2 AV (λ c, V_at d (a + c)) v n j
       ∧ planes_ok Tar d s cu cv ot0 ot (a + j) (ne + j / 2))
    (row_420_even Tar d) (2 * n) 0 (a, a, uv_at Tar s ne, u, v, ot, false))
    as (st' & Hrun & (u' & v' & ot' & -> & HU & HV & Hok')).
  - exists u, v, ot. replace (0 / 2)%nat with 0%nat by done.
    rewrite !Nat.add_0_r. done.
  - clear u v ot HU0 HV0 Hok.
    intros j st Hj (u & v & ot & -> & HU & HV & Hok).
    unfold row_420_even.
    rewrite (pixel_at_lookup d (a + j)) by lia. simpl.
    fold (Y_at d (a + j)) (U_at d (a + j)) (V_at d (a + j)).
    destruct (planes_ok_store_Y Tar d s cu cv ot0 ot (a + j) (ne + j / 2))
      as (ot' & Hst & Hok'); [by apply is_420_planar|done|lia|lia|done|].
    rewrite Hst. simpl. rewrite shiftr_1.
    destruct (cell_add_added 2 AU (λ c, U_at d (a + c)) u n j 510)
      as (u' & Hu' & HU'); [lia|lia|intros; apply U_at_range|done|done|done|].
    destruct (cell_add_added 2 AV (λ c, V_at d (a + c)) v n j 510)
      as (v' & Hv' & HV'); [lia|lia|intros; apply V_at_range|done|done|done|].
    simpl in Hu', Hv'.
    destruct (Nat.odd j) eqn:Hodd.
    + apply odd_true_mod in Hodd as Hm.
      rewrite Hu'. simpl. rewrite Hv'. simpl.
      rewrite !gsum_full_2 by lia.
      destruct (planes_ok_set_and_next Tar d s cu cv ot0 ot' (S (a + j))
                  (ne + j / 2)
                  (AU (j / 2)%nat + (U_at d (a + 2 * (j / 2))
                                     + U_at d (a + (2 * (j / 2) + 1))))
                  (AV (j / 2)%nat + (V_at d (a + 2 * (j / 2))
                                     + V_at d (a + (2 * (j / 2) + 1))))
                  2)
        as (ot'' & Hsn & Hok'');
        [by apply is_420_planar|by apply is_420_shift|done|lia|lia
        |apply Hcu; lia|apply Hcv; lia|done|].
      rewrite Hsn. simpl.
      eexists. split; [done|]. exists u', v', ot''.
      rewrite odd_S, Hodd.
      replace (ne + S j / 2)%nat with (S (ne + j / 2)) by lia.
      replace (a + S j)%nat with (S (a + j)) by lia.
      done.
    + apply odd_false_mod in Hodd as Hm.
      rewrite Hu'. simpl. rewrite Hv'. simpl.
      eexists. split; [done|]. exists u', v', ot'.
      rewrite odd_S, Hodd.
      replace (ne + S j / 2)%nat with (ne + j / 2)%nat by lia.
      replace (a + S j)%nat with (S (a + j)) by lia.
      done.
  - exists u', v', ot', (Nat.odd (0 + 2 * n)).
    rewrite Hrun. replace (a + (0 + 2 * n))%nat with (a + 2 * n)%nat by lia.
    replace (ne + (0 + 2 * n) / 2)%nat with (ne + n)%nat in * by lia.
    destruct HU as [? _], HV as [? _]. done.
Qed.
End writer_420.

Section writer_420_rows.
Import detail_transform_.
Local Arguments Nat.mul : simpl never.
Local Arguments Nat.add : simpl never.
Local Arguments Nat.div : simpl never.
Local Arguments Nat.modulo : simpl never.
Local Arguments Nat.odd : simpl never.
Local Arguments Nat.shiftr : simpl never.
Local Arguments gsum : simpl never.
Local Arguments Y_at : simpl never.
Local Arguments U_at : simpl never.
Local Arguments V_at : simpl never.

Lemma length_fresh_cells init count : length (fresh_cells init count) = count.
Proof. unfold fresh_cells. by rewrite length_fmap, length_seq. Qed.

Lemma div_mod_block n r k :
  (k < n)%nat → ((r * n + k) / n = r ∧ (r * n + k) mod n = k)%nat.
Proof.
  intros Hk. split.
  - symmetry. apply (Nat.div_unique _ n r k); lia.
  - symmetry. apply (Nat.mod_unique _ n r k); lia.
Qed.

Lemma shiftr_sum4_uint8 x sh :
  0 ≤ x ≤ 255 * 2 ^ sh → 0 ≤ sh → is_uint8 (Z.shiftr x sh).
Proof.
  intros Hx Hsh. rewrite Z.shiftr_div_pow2 by done. unfold is_uint8.
  assert (0 < 2 ^ sh) by (by apply Z.pow_pos_nonneg).
  split; [apply Z.div_pos; lia|]. apply Z.div_lt_upper_bound; lia.
Qed.

(** The mean of a 2×2 block, written out. *)
Lemma block_mean_420 f n r k :
  (k < n)%nat →
  block_mean f (2 * n) 2 2 2 (r * n + k)
  = Z.shiftr (f (2 * r * (2 * n) + 2 * k)%nat
              + f (2 * r * (2 * n) + 2 * k + 1)%nat
              + f ((2 * r + 1) * (2 * n) + 2 * k)%nat
              + f ((2 * r + 1) * (2 * n) + 2 * k + 1)%nat) 2.
Proof.
  intros Hk. unfold block_mean.
  replace (2 * n / 2)%nat with n by lia.
  destruct (div_mod_block n r k Hk) as [-> ->].
  unfold block_sum, row_sum. f_equal.
  rewrite !Z.add_0_l, !Nat.add_0_r.
  rewrite !Z.add_assoc. repeat (f_equal; try lia).
Qed.

Lemma blocks_fit n h x g :
  (0 < g)%nat → (g * x ≤ h)%nat → (x * n ≤ (g * n * h) / (g * g))%nat.
Proof.
  intros Hg Hx. apply Nat.div_le_lower_bound; [nia|].
  assert (g * n * (g * x) ≤ g * n * h)%nat by (by apply Nat.mul_le_mono_l).
  lia.
Qed.

Lemma is_420_capacity Tar s :
  is_420 Tar = true → chroma_capacity Tar s = (s / 4)%nat.
Proof. by destruct Tar. Qed.

Lemma is_420_enabled Tar :
  is_420 Tar = true →
  enable_if (tag_eqb Tar yuv_YV12 || tag_eqb Tar yuv_YU12
             || tag_eqb Tar yuv_NV12 || tag_eqb Tar yuv_NV21) = Some ().
Proof. by destruct Tar. Qed.

(** The rows of the 4:2:0 writer, from two accumulator arrays of
    [in_w / 2] cells, whatever they hold. *)
Lemma rows_420_run Tar d in_w in_h ot0 u0 v0 :
  is_420 Tar = true →
  (in_w mod 2 = 0)%nat →
  length d = (in_w * in_h)%nat →
  (in_w * in_h + 2 * (in_w * in_h / 4) ≤ length ot0)%nat →
  length u0 = (in_w / 2)%nat → length v0 = (in_w / 2)%nat →
  ∃ st out,
    for_ in_h 0 (rows_420 Tar d in_w)
      (0%nat, 0%nat, uv_at Tar (in_w * in_h) 0, u0, v0, ot0, false) = Some st
    ∧ st.1.2 = out
    ∧ planes_ok Tar d (in_w * in_h)
        (block_mean (U_at d) in_w 2 2 2) (block_mean (V_at d) in_w 2 2 2)
        ot0 out (in_w * in_h) (in_h / 2 * (in_w / 2)).
Proof.
  intros HT Hw Hd HL Hu0 Hv0.
  set (n := (in_w / 2)%nat) in *.
  assert (in_w = 2 * n)%nat as Hwn by lia.
  clearbody n. subst in_w. clear Hw.
  set (s := (2 * n * in_h)%nat) in *.
  set (cu := block_mean (U_at d) (2 * n) 2 2 2).
  set (cv := block_mean (V_at d) (2 * n) 2 2 2).
  pose proof (is_420_capacity Tar s HT) as Hcap.
  assert (HL' : (s + 2 * chroma_capacity Tar s ≤ length ot0)%nat)
    by (rewrite Hcap; lia).
  destruct (for_inv
    (λ i st, ∃ u v ot,
       st = ((i * (2 * n))%nat, (i * (2 * n))%nat, uv_at Tar s (i / 2 * n),
             u, v, ot, Nat.odd i)
       ∧ length u = n ∧ length v = n
       ∧ (Nat.odd i = true →
          acc_seeded 2 (λ c, U_at d ((i - 1) * (2 * n) + c)) u n (2 * n)
          ∧ acc_seeded 2 (λ c, V_at d ((i - 1) * (2 * n) + c)) v n (2 * n))
       ∧ planes_ok Tar d s cu cv ot0 ot (i * (2 * n)) (i / 2 * n))
    (rows_420 Tar d (2 * n)) in_h 0
    (0%nat, 0%nat, uv_at Tar s 0, u0, v0, ot0, false))
    as (st' & Hrun & (u' & v' & ot' & -> & _ & _ & _ & Hok')).
  - eexists _, _, _. split; [reflexivity|].
    repeat (split; [done|]).
    apply planes_ok_start.
  - intros i st Hi (u & v & ot & -> & Hu & Hv & Hacc & Hok).
    unfold rows_420.
    assert (Hrow : ((i * (2 * n)) + 2 * n ≤ s)%nat) by (unfold s; nia).
    destruct (Nat.odd i) eqn:Hodd.
    + apply odd_true_mod in Hodd as Hm.
      destruct (Hacc eq_refl) as [HU HV]. clear Hacc.
      set (r := (i / 2)%nat) in *.
      assert (i = 2 * r + 1)%nat as Hir by lia.
      clearbody r. subst i.
      replace (2 * r + 1 - 1)%nat with (2 * r)%nat in * by lia.
      assert (Hfitc : (r * n + n ≤ chroma_capacity Tar s)%nat).
      { rewrite Hcap. unfold s.
        pose proof (blocks_fit n in_h (r + 1) 2) as Hb.
        replace (2 * 2)%nat with 4%nat in Hb by done. lia. }
      destruct (row_420_even_spec Tar d s cu cv ot0 n HT HL' Hd
                  ((2 * r + 1) * (2 * n)) (r * n) u v ot
                  (λ k, gsum 2 (λ c, U_at d (2 * r * (2 * n) + c)) k (2 * n))
                  (λ k, gsum 2 (λ c, V_at d (2 * r * (2 * n) + c)) k (2 * n)))
        as (u' & v' & ot' & b & Hrun & Hu' & Hv' & Hok'); try done.
      * by apply acc_seeded_added; [lia|done|].
      * by apply acc_seeded_added; [lia|done|].
      * intros k. pose proof (gsum_le 2 (λ c, U_at d (2 * r * (2 * n) + c))
                                k (2 * n)) as Hb.
        simpl in Hb. apply Hb; [lia|]. intros c. apply U_at_range.
      * intros k. pose proof (gsum_le 2 (λ c, V_at d (2 * r * (2 * n) + c))
                                k (2 * n)) as Hb.
        simpl in Hb. apply Hb; [lia|]. intros c. apply V_at_range.
      * intros k Hk. unfold cu. rewrite block_mean_420 by done.
        rewrite gsum_full_2 by lia.
        pose proof (U_at_range d (2 * r * (2 * n) + 2 * k)).
        pose proof (U_at_range d (2 * r * (2 * n) + (2 * k + 1))).
        pose proof (U_at_range d ((2 * r + 1) * (2 * n) + 2 * k)).
        pose proof (U_at_range d ((2 * r + 1) * (2 * n) + (2 * k + 1))).
        unfold is_uint8 in *.
        rewrite to_uint8_small by (apply shiftr_sum4_uint8; lia).
        by rewrite !Nat.add_assoc, !Z.add_assoc.
      * intros k Hk. unfold cv. rewrite block_mean_420 by done.
        rewrite gsum_full_2 by lia.
        pose proof (V_at_range d (2 * r * (2 * n) + 2 * k)).
        pose proof (V_at_range d (2 * r * (2 * n) + (2 * k + 1))).
        pose proof (V_at_range d ((2 * r + 1) * (2 * n) + 2 * k)).
        pose proof (V_at_range d ((2 * r + 1) * (2 * n) + (2 * k + 1))).
        unfold is_uint8 in *.
        rewrite to_uint8_small by (apply shiftr_sum4_uint8; lia).
        by rewrite !Nat.add_assoc, !Z.add_assoc.
      * rewrite Hrun. simpl. eexists. split; [done|].
        exists u', v', ot'. rewrite odd_S, Hodd. simpl.
        replace (S (2 * r + 1) / 2 * n)%nat with (r * n + n)%nat by nia.
        replace (S (2 * r + 1) * (2 * n))%nat
          with ((2 * r + 1) * (2 * n) + 2 * n)%nat by lia.
        repeat (split; [done|]). done.
    + apply odd_false_mod in Hodd as Hm.
      assert (Hfitc : (i / 2 * n ≤ chroma_capacity Tar s)%nat).
      { rewrite Hcap. unfold s.
        pose proof (blocks_fit n in_h (i / 2) 2) as Hb.
        replace (2 * 2)%nat with 4%nat in Hb by done. lia. }
      destruct (row_420_odd_spec Tar d s cu cv ot0 n HT HL' Hd
                  (i * (2 * n)) (i / 2 * n) (uv_at Tar s (i / 2 * n)) u v ot)
        as (u' & v' & ot' & b & Hrun & HU' & HV' & Hok'); try done.
      rewrite Hrun. simpl. eexists. split; [done|].
      exists u', v', ot'. rewrite odd_S, Hodd. simpl.
      replace (S i / 2 * n)%nat with (i / 2 * n)%nat by (f_equal; lia).
      replace (S i * (2 * n))%nat with (i * (2 * n) + 2 * n)%nat by lia.
      rewrite Nat.sub_0_r.
      split; [done|]. split; [apply HU'|]. split; [apply HV'|].
      split; [done|done].
  - rewrite Hrun. eexists _, ot'. split; [done|]. split; [done|].
    replace (2 * n / 2)%nat with n by lia.
    rewrite Nat.add_0_l in Hok'.
    replace (in_h * (2 * n))%nat with s in Hok' by (unfold s; lia).
    done.
Qed.

Lemma new_cells_spec {A : AllocT} init count h :
  ∃ blk cells h',
    new_cells init count h = (blk, cells, h')
    ∧ scope_block.new (T:=elem_uint16_t) (Z.of_nat count) h = (blk, h')
    ∧ (count = 0%nat ∨ scope_block.data blk ≠ NULL → length cells = count)
    ∧ (length cells ≤ count)%nat.
Proof.
  unfold new_cells.
  destruct (scope_block.new (T:=elem_uint16_t) (Z.of_nat count) h)
    as [blk h'].
  eexists _, _, _. split; [reflexivity|]. split; [reflexivity|].
  destruct (Z.eqb_spec (scope_block.data blk) NULL) as [E|E]; simpl;
    rewrite ?length_fresh_cells; split; lia.
Qed.

(** The two arrays of a writer, when the allocator delivers them. *)
Lemma accumulators_there {A : AllocT} Tar in_w h iu iv count :
  accumulators_allocated Tar in_w h →
  accumulator_cells Tar in_w = count →
  ∃ u_blk u0 h1 v_blk v0 h2,
    new_cells iu count h = (u_blk, u0, h1)
    ∧ new_cells iv count h1 = (v_blk, v0, h2)
    ∧ length u0 = count ∧ length v0 = count.
Proof.
  intros Hal <-. unfold accumulators_allocated in Hal.
  destruct (new_cells_spec iu (accumulator_cells Tar in_w) h)
    as (u_blk & u0 & h1 & E1 & N1 & L1 & _).
  destruct (new_cells_spec iv (accumulator_cells Tar in_w) h1)
    as (v_blk & v0 & h2 & E2 & N2 & L2 & _).
  exists u_blk, u0, h1, v_blk, v0, h2.
  split; [done|]. split; [done|].
  simpl in Hal. rewrite N1 in Hal. simpl in Hal. rewrite N2 in Hal.
  simpl in Hal.
  split; [apply L1|apply L2]; destruct Hal as [?|[? ?]]; auto.
Qed.

Lemma transform_to_420_spec {A : AllocT} Tar d in_w in_h ot0 junk h :
  is_420 Tar = true →
  (in_w mod 2 = 0)%nat →
  Z.of_nat in_w * Z.of_nat in_h < 2 ^ size_bits →
  length d = (in_w * in_h)%nat →
  (in_w * in_h + 2 * (in_w * in_h / 4) ≤ length ot0)%nat →
  accumulators_allocated Tar in_w h →
  ∃ out h',
    transform_to Tar d in_w in_h ot0 junk h = Some (out, h')
    ∧ planes_ok Tar d (in_w * in_h)
        (block_mean (U_at d) in_w 2 2 2) (block_mean (V_at d) in_w 2 2 2)
        ot0 out (in_w * in_h) (in_h / 2 * (in_w / 2)).
Proof.
  intros HT Hw Hfit Hd HL Hal.
  assert (transform_to Tar d in_w in_h ot0 junk h
          = transform_to_420 Tar d in_w in_h ot0 junk h) as ->
    by (destruct Tar; try discriminate; reflexivity).
  unfold transform_to_420.
  rewrite (is_420_enabled Tar HT), split_Y, (fill_spec Tar)
    by (by apply is_420_planar).
  rewrite (size_mul_small _ _ Hfit). cbn [mbind option_bind].
  rewrite shiftr_1.
  destruct (accumulators_there Tar in_w h (u_tmp_init junk)
              (v_tmp_init junk) (in_w / 2)%nat Hal)
    as (u_blk & u0 & h1 & v_blk & v0 & h2 & -> & -> & Hu0 & Hv0);
    [by destruct Tar|].
  destruct (rows_420_run Tar d in_w in_h ot0 u0 v0 HT Hw Hd HL Hu0 Hv0)
    as (st & out & -> & Hst & Hok).
  destruct st as [[[[[[? ?] ?] ?] ?] ot'] ?]. simpl in Hst. subst ot'.
  cbn [mbind option_bind]. eexists _, _. split; [reflexivity|done].
Qed.
End writer_420_rows.

(** ** The 4:1:0 writer *)

Section writer_410.
Import detail_transform_.
Local Arguments Nat.mul : simpl never.
Local Arguments Nat.add : simpl never.
Local Arguments Nat.div : simpl never.
Local Arguments Nat.modulo : simpl never.
Local Arguments Nat.shiftr : simpl never.
Local Arguments Z.of_nat : simpl never.
Local Arguments Z.add : simpl never.
Local Arguments Z.eqb : simpl never.
Local Arguments to_uint8 : simpl never.
Local Arguments gsum : simpl never.
Local Arguments Y_at : simpl never.
Local Arguments U_at : simpl never.
Local Arguments V_at : simpl never.

Lemma is_410_planar Tar : is_410 Tar = true → is_planar Tar = true.
Proof. by destruct Tar. Qed.

Lemma is_410_shift Tar : is_410 Tar = true → set_and_next_shift Tar = Some 4.
Proof. by destruct Tar. Qed.

(** The column flag of the 4:1:0 loops at column [j]. *)
Lemma w_flag_is_1 j :
  (Z.of_nat (j mod 4) + 1 =? 1) = bool_decide (j mod 4 = 0)%nat.
Proof.
  case_bool_decide as E.
  - rewrite E. done.
  - apply Z.eqb_neq. lia.
Qed.

Lemma w_flag_is_4 j :
  (Z.of_nat (j mod 4) + 1 =? 4) = bool_decide (j mod 4 = 3)%nat.
Proof.
  case_bool_decide as E.
  - rewrite E. done.
  - apply Z.eqb_neq. lia.
Qed.

Lemma w_flag_next j :
  (j mod 4 ≠ 3)%nat →
  to_uint8 (Z.of_nat (j mod 4) + 1 + 1) = Z.of_nat (S j mod 4) + 1.
Proof.
  intros H. rewrite to_uint8_small by (unfold is_uint8; lia). lia.
Qed.

Lemma w_flag_wrap j :
  (j mod 4 = 3)%nat → to_uint8 (0 + 1) = Z.of_nat (S j mod 4) + 1.
Proof.
  intros H. rewrite to_uint8_small by (unfold is_uint8; lia). lia.
Qed.

Context (Tar : supported) (d : list rgb_t.t) (s : nat) (cu cv : nat → Z)
  (ot0 : list Z) (n : nat).
Context (HT : is_410 Tar = true).
Context (HL : (s + 2 * chroma_capacity Tar s ≤ length ot0)%nat).
Context (Hd : length d = s).

Lemma row_410_first_spec a ne p_uv u v ot :
  (a + 4 * n ≤ s)%nat → (ne ≤ chroma_capacity Tar s)%nat →
  length u = n → length v = n →
  planes_ok Tar d s cu cv ot0 ot a ne →
  ∃ u' v' ot' b,
    for_ (4 * n) 0 (row_410_first d) (a, a, p_uv, u, v, ot, 1)
    = Some ((a + 4 * n)%nat, (a + 4 * n)%nat, p_uv, u', v', ot', b)
    ∧ acc_seeded 4 (λ c, U_at d (a + c)) u' n (4 * n)
    ∧ acc_seeded 4 (λ c, V_at d (a + c)) v' n (4 * n)
    ∧ planes_ok Tar d s cu cv ot0 ot' (a + 4 * n) ne.
Proof using HT HL Hd.
  intros Ha Hne Hu Hv Hok.
  destruct (for_inv
    (λ j st, ∃ u v ot,
       st = ((a + j)%nat, (a + j)%nat, p_uv, u, v, ot,
             Z.of_nat (j mod 4) + 1)
       ∧ acc_seeded 4 (λ c, U_at d (a + c)) u n j
       ∧ acc_seeded 4 (λ c, V_at d (a + c)) v n j
       ∧ planes_ok Tar d s cu cv ot0 ot (a + j) ne)
    (row_410_first d) (4 * n) 0 (a, a, p_uv, u, v, ot, 1))
    as (st' & Hrun & (u' & v' & ot' & -> & HU & HV & Hok')).
  - exists u, v, ot. rewrite Nat.add_0_r.
    split; [done|]. split; [|split; [|done]]; (split; [done|]); intros k Hk; lia.
  - clear u v ot Hu Hv Hok.
    intros j st Hj (u & v & ot & -> & HU & HV & Hok).
    unfold row_410_first.
    rewrite (pixel_at_lookup d (a + j)) by lia. simpl.
    fold (Y_at d (a + j)) (U_at d (a + j)) (V_at d (a + j)).
    destruct (planes_ok_store_Y Tar d s cu cv ot0 ot (a + j) ne)
      as (ot' & Hst & Hok'); [by apply is_410_planar|done|lia|done|done|].
    rewrite Hst. simpl. rewrite shiftr_2, w_flag_is_1, w_flag_is_4.
    case_bool_decide as E1.
    + destruct (cell_set_seeded 4 (λ c, U_at d (a + c)) u n j)
        as (u' & Hu' & HU'); [lia|lia|done|apply U_at_range|done|].
      destruct (cell_set_seeded 4 (λ c, V_at d (a + c)) v n j)
        as (v' & Hv' & HV'); [lia|lia|done|apply V_at_range|done|].
      simpl in Hu', Hv'. rewrite Hu'. simpl. rewrite Hv'. simpl.
      eexists. split; [done|]. exists u', v', ot'.
      rewrite w_flag_next by lia.
      replace (a + S j)%nat with (S (a + j)) by lia. done.
    + destruct (cell_add_seeded 4 (λ c, U_at d (a + c)) u n j)
        as (u' & Hu' & HU'); [lia|lia|done|intros; apply U_at_range|done|].
      destruct (cell_add_seeded 4 (λ c, V_at d (a + c)) v n j)
        as (v' & Hv' & HV'); [lia|lia|done|intros; apply V_at_range|done|].
      simpl in Hu', Hv'. rewrite Hu'. simpl. rewrite Hv'. simpl.
      eexists. split; [done|]. exists u', v', ot'.
      replace (a + S j)%nat with (S (a + j)) by lia.
      case_bool_decide as E4.
      * rewrite (w_flag_wrap j) by done. done.
      * rewrite w_flag_next by done. done.
  - exists u', v', ot'. eexists.
    rewrite Hrun. replace (a + (0 + 4 * n))%nat with (a + 4 * n)%nat by lia.
    done.
Qed.

Lemma row_410_middle_spec a ne p_uv u v ot AU AV Amax :
  (a + 4 * n ≤ s)%nat → (ne ≤ chroma_capacity Tar s)%nat →
  acc_added 4 AU (λ c, U_at d (a + c)) u n 0 →
  acc_added 4 AV (λ c, V_at d (a + c)) v n 0 →
  (∀ k, 0 ≤ AU k ≤ Amax) → (∀ k, 0 ≤ AV k ≤ Amax) → Amax ≤ 3060 →
  planes_ok Tar d s cu cv ot0 ot a ne →
  ∃ u' v' ot' b,
    for_ (4 * n) 0 (row_410_middle d) (a, a, p_uv, u, v, ot, 1)
    = Some ((a + 4 * n)%nat, (a + 4 * n)%nat, p_uv, u', v', ot', b)
    ∧ acc_added 4 AU (λ c, U_at d (a + c)) u' n (4 * n)
    ∧ acc_added 4 AV (λ c, V_at d (a + c)) v' n (4 * n)
    ∧ planes_ok Tar d s cu cv ot0 ot' (a + 4 * n) ne.
Proof using HT HL Hd.
  intros Ha Hne HU0 HV0 HAU HAV Hmax Hok.
  destruct (for_inv
    (λ j st, ∃ u v ot,
       st = ((a + j)%nat, (a + j)%nat, p_uv, u, v, ot, 1)
       ∧ acc_added 4 AU (λ c, U_at d (a + c)) u n j
       ∧ acc_added 4 AV (λ c, V_at d (a + c)) v n j
       ∧ planes_ok Tar d s cu cv ot0 ot (a + j) ne)
    (row_410_middle d) (4 * n) 0 (a, a, p_uv, u, v, ot, 1))
    as (st' & Hrun & (u' & v' & ot' & -> & HU & HV & Hok')).
  - exists u, v, ot. rewrite Nat.add_0_r. done.
  - clear u v ot HU0 HV0 Hok.
    intros j st Hj (u & v & ot & -> & HU & HV & Hok).
    unfold row_410_middle.
    rewrite (pixel_at_lookup d (a + j)) by lia. simpl.
    fold (Y_at d (a + j)) (U_at d (a + j)) (V_at d (a + j)).
    destruct (planes_ok_store_Y Tar d s cu cv ot0 ot (a + j) ne)
      as (ot' & Hst & Hok'); [by apply is_410_planar|done|lia|done|done|].
    rewrite Hst. simpl. rewrite shiftr_2.
    destruct (cell_add_added 4 AU (λ c, U_at d (a + c)) u n j Amax)
      as (u' & Hu' & HU'); [lia|lia|intros; apply U_at_range|done|lia|done|].
    destruct (cell_add_added 4 AV (λ c, V_at d (a + c)) v n j Amax)
      as (v' & Hv' & HV'); [lia|lia|intros; apply V_at_range|done|lia|done|].
    simpl in Hu', Hv'. rewrite Hu'. simpl. rewrite Hv'. simpl.
    eexists. split; [done|]. exists u', v', ot'.
    replace (a + S j)%nat with (S (a + j)) by lia. done.
  - exists u', v', ot'. eexists.
    rewrite Hrun. replace (a + (0 + 4 * n))%nat with (a + 4 * n)%nat by lia.
    done.
Qed.

Lemma row_410_last_spec a ne u v ot AU AV :
  (a + 4 * n ≤ s)%nat → (ne + n ≤ chroma_capacity Tar s)%nat →
  acc_added 4 AU (λ c, U_at d (a + c)) u n 0 →
  acc_added 4 AV (λ c, V_at d (a + c)) v n 0 →
  (∀ k, 0 ≤ AU k ≤ 3060) → (∀ k, 0 ≤ AV k ≤ 3060) →
  (∀ k, (k < n)%nat →
     cu (ne + k)%nat
     = to_uint8 (Z.shiftr (AU k + (U_at d (a + 4 * k)
                                   + U_at d (a + (4 * k + 1))
                                   + U_at d (a + (4 * k + 2))
                                   + U_at d (a + (4 * k + 3)))) 4)) →
  (∀ k, (k < n)%nat →
     cv (ne + k)%nat
     = to_uint8 (Z.shiftr (AV k + (V_at d (a + 4 * k)
                                   + V_at d (a + (4 * k + 1))
                                   + V_at d (a + (4 * k + 2))
                                   + V_at d (a + (4 * k + 3)))) 4)) →
  planes_ok Tar d s cu cv ot0 ot a ne →
  ∃ u' v' ot' b,
    for_ (4 * n) 0 (row_410_last Tar d) (a, a, uv_at Tar s ne, u, v, ot, 1)
    = Some ((a + 4 * n)%nat, (a + 4 * n)%nat, uv_at Tar s (ne + n),
            u', v', ot', b)
    ∧ length u' = n ∧ length v' = n
    ∧ planes_ok Tar d s cu cv ot0 ot' (a + 4 * n) (ne + n).
Proof using HT HL Hd.
  intros Ha Hne HU0 HV0 HAU HAV Hcu Hcv Hok.
  destruct (for_inv
    (λ j st, ∃ u v ot,
       st = ((a + j)%nat, (a + j)%nat, uv_at Tar s (ne + j / 4), u, v, ot,
             Z.of_nat (j mod 4) + 1)
       ∧ acc_added 4 AU (λ c, U_at d (a + c)) u n j
       ∧ acc_added 4 AV (λ c, V_at d (a + c)) v n j
       ∧ planes_ok Tar d s cu cv ot0 ot (a + j) (ne + j / 4))
    (row_410_last Tar d) (4 * n) 0 (a, a, uv_at Tar s ne, u, v, ot, 1))
    as (st' & Hrun & (u' & v' & ot' & -> & HU & HV & Hok')).
  - exists u, v, ot. replace (0 / 4)%nat with 0%nat by done.
    rewrite !Nat.add_0_r. done.
  - clear u v ot HU0 HV0 Hok.
    intros j st Hj (u & v & ot & -> & HU & HV & Hok).
    unfold row_410_last.
    rewrite (pixel_at_lookup d (a + j)) by lia. simpl.
    fold (Y_at d (a + j)) (U_at d (a + j)) (V_at d (a + j)).
    destruct (planes_ok_store_Y Tar d s cu cv ot0 ot (a + j) (ne + j / 4))
      as (ot' & Hst & Hok'); [by apply is_410_planar|done|lia|lia|done|].
    rewrite Hst. simpl. rewrite shiftr_2, w_flag_is_4.
    destruct (cell_add_added 4 AU (λ c, U_at d (a + c)) u n j 3060)
      as (u' & Hu' & HU'); [lia|lia|intros; apply U_at_range|done|done|done|].
    destruct (cell_add_added 4 AV (λ c, V_at d (a + c)) v n j 3060)
      as (v' & Hv' & HV'); [lia|lia|intros; apply V_at_range|done|done|done|].
    simpl in Hu', Hv'.
    case_bool_decide as E4.
    + rewrite Hu'. simpl. rewrite Hv'. simpl.
      rewrite !gsum_full_4 by lia.
      destruct (planes_ok_set_and_next Tar d s cu cv ot0 ot' (S (a + j))
                  (ne + j / 4)
                  (AU (j / 4)%nat + (U_at d (a + 4 * (j / 4))
                                     + U_at d (a + (4 * (j / 4) + 1))
                                     + U_at d (a + (4 * (j / 4) + 2))
                                     + U_at d (a + (4 * (j / 4) + 3))))
                  (AV (j / 4)%nat + (V_at d (a + 4 * (j / 4))
                                     + V_at d (a + (4 * (j / 4) + 1))
                                     + V_at d (a + (4 * (j / 4) + 2))
                                     + V_at d (a + (4 * (j / 4) + 3))))
                  4)
        as (ot'' & Hsn & Hok'');
        [by apply is_410_planar|by apply is_410_shift|done|lia|lia
        |apply Hcu; lia|apply Hcv; lia|done|].
      rewrite Hsn. simpl.
      eexists. split; [done|]. exists u', v', ot''.
      rewrite (w_flag_wrap j) by done.
      replace (ne + S j / 4)%nat with (S (ne + j / 4)) by lia.
      replace (a + S j)%nat with (S (a + j)) by lia.
      done.
    + rewrite Hu'. simpl. rewrite Hv'. simpl.
      eexists. split; [done|]. exists u', v', ot'.
      rewrite w_flag_next by done.
      replace (ne + S j / 4)%nat with (ne + j / 4)%nat by lia.
      replace (a + S j)%nat with (S (a + j)) by lia.
      done.
  - exists u', v', ot'. eexists.
    rewrite Hrun. replace (a + (0 + 4 * n))%nat with (a + 4 * n)%nat by lia.
    replace (ne + (0 + 4 * n) / 4)%nat with (ne + n)%nat in * by lia.
    destruct HU as [? _], HV as [? _]. done.
Qed.
End writer_410.

Section writer_410_rows.
Import detail_transform_.
Local Arguments Nat.mul : simpl never.
Local Arguments Nat.add : simpl never.
Local Arguments Nat.div : simpl never.
Local Arguments Nat.modulo : simpl never.
Local Arguments Nat.shiftr : simpl never.
Local Arguments gsum : simpl never.
Local Arguments block_sum : simpl never.
Local Arguments row_sum : simpl never.
Local Arguments Y_at : simpl never.
Local Arguments U_at : simpl never.
Local Arguments V_at : simpl never.

Lemma row_sum_4 f st :
  row_sum f st 4 = f st + f (st + 1)%nat + f (st + 2)%nat + f (st + 3)%nat.
Proof. unfold row_sum. rewrite Nat.add_0_r. lia. Qed.

Lemma block_sum_S f in_w bw top left rows :
  block_sum f in_w bw top left (S rows)
  = block_sum f in_w bw top left rows
    + row_sum f ((top + rows) * in_w + left) bw.
Proof. reflexivity. Qed.

Lemma row_sum_bound f st n :
  (∀ c, is_uint8 (f c)) → 0 ≤ row_sum f st n ≤ 255 * Z.of_nat n.
Proof.
  intros Hf. induction n as [|n IH]; [unfold row_sum; lia|].
  change (row_sum f st (S n)) with (row_sum f st n + f (st + n)%nat).
  pose proof (Hf (st + n)%nat) as H. unfold is_uint8 in H. lia.
Qed.

Lemma block_sum_bound f in_w bw top left rows :
  (∀ c, is_uint8 (f c)) →
  0 ≤ block_sum f in_w bw top left rows ≤ 255 * Z.of_nat bw * Z.of_nat rows.
Proof.
  intros Hf. induction rows as [|rows IH]; [unfold block_sum; lia|].
  rewrite block_sum_S.
  pose proof (row_sum_bound f ((top + rows) * in_w + left) bw Hf). lia.
Qed.

Lemma gsum_row_sum_4 f a k j :
  (4 * k + 4 ≤ j)%nat →
  gsum 4 (λ c, f (a + c)%nat) k j = row_sum f (a + 4 * k) 4.
Proof.
  intros Hj. rewrite gsum_full_4, row_sum_4 by done.
  by rewrite !Nat.add_assoc.
Qed.

Lemma acc_added_0 g A f tmp n :
  length tmp = n → (∀ k, (k < n)%nat → tmp !! k = Some (A k)) →
  acc_added g A f tmp n 0.
Proof.
  intros Hlen H. split; [done|]. intros k Hk.
  change (gsum g f k 0) with 0. rewrite Z.add_0_r. by apply H.
Qed.

Lemma block_mean_410 f n r k :
  (k < n)%nat →
  block_mean f (4 * n) 4 4 4 (r * n + k)
  = Z.shiftr (block_sum f (4 * n) 4 (4 * r) (4 * k) 4) 4.
Proof.
  intros Hk. unfold block_mean.
  replace (4 * n / 4)%nat with n by lia.
  by destruct (div_mod_block n r k Hk) as [-> ->].
Qed.

Lemma is_410_capacity Tar s :
  is_410 Tar = true → chroma_capacity Tar s = (s / 16)%nat.
Proof. by destruct Tar. Qed.

Lemma is_410_enabled Tar :
  is_410 Tar = true →
  enable_if (tag_eqb Tar yuv_YUV9 || tag_eqb Tar yuv_YVU9) = Some ().
Proof. by destruct Tar. Qed.

(** The rows of the 4:1:0 writer, from two accumulator arrays of
    [in_w / 4] cells, whatever they hold. *)
Lemma rows_410_run Tar d in_w in_h ot0 u0 v0 :
  is_410 Tar = true →
  (in_w mod 4 = 0)%nat →
  length d = (in_w * in_h)%nat →
  (in_w * in_h + 2 * (in_w * in_h / 16) ≤ length ot0)%nat →
  length u0 = (in_w / 4)%nat → length v0 = (in_w / 4)%nat →
  ∃ st out,
    for_ in_h 0 (rows_410 Tar d in_w)
      (0%nat, 0%nat, uv_at Tar (in_w * in_h) 0, u0, v0, ot0, 1) = Some st
    ∧ st.1.2 = out
    ∧ planes_ok Tar d (in_w * in_h)
        (block_mean (U_at d) in_w 4 4 4) (block_mean (V_at d) in_w 4 4 4)
        ot0 out (in_w * in_h) (in_h / 4 * (in_w / 4)).
Proof.
  intros HT Hw Hd HL Hu0 Hv0.
  set (n := (in_w / 4)%nat) in *.
  assert (in_w = 4 * n)%nat as Hwn by lia.
  clearbody n. subst in_w. clear Hw.
  set (s := (4 * n * in_h)%nat) in *.
  set (cu := block_mean (U_at d) (4 * n) 4 4 4).
  set (cv := block_mean (V_at d) (4 * n) 4 4 4).
  pose proof (is_410_capacity Tar s HT) as Hcap.
  assert (HL' : (s + 2 * chroma_capacity Tar s ≤ length ot0)%nat)
    by (rewrite Hcap; lia).
  pose proof (λ X top left t, block_sum_bound (X d) (4 * n) 4 top left t) as Hbs.
  destruct (for_inv
    (λ i st, ∃ u v ot,
       st = ((i * (4 * n))%nat, (i * (4 * n))%nat, uv_at Tar s (i / 4 * n),
             u, v, ot, Z.of_nat (i mod 4) + 1)
       ∧ length u = n ∧ length v = n
       ∧ ((i mod 4 ≠ 0)%nat →
          (∀ k, (k < n)%nat →
             u !! k = Some (block_sum (U_at d) (4 * n) 4 (4 * (i / 4))
                              (4 * k) (i mod 4)))
          ∧ (∀ k, (k < n)%nat →
               v !! k = Some (block_sum (V_at d) (4 * n) 4 (4 * (i / 4))
                                (4 * k) (i mod 4))))
       ∧ planes_ok Tar d s cu cv ot0 ot (i * (4 * n)) (i / 4 * n))
    (rows_410 Tar d (4 * n)) in_h 0
    (0%nat, 0%nat, uv_at Tar s 0, u0, v0, ot0, 1))
    as (st' & Hrun & (u' & v' & ot' & -> & _ & _ & _ & Hok')).
  - eexists _, _, _. split; [reflexivity|].
    split; [done|]. split; [done|].
    split; [intros H; by destruct H|]. apply planes_ok_start.
  - intros i st Hi (u & v & ot & -> & Hu & Hv & Hacc & Hok).
    unfold rows_410.
    assert (Hrow : ((i * (4 * n)) + 4 * n ≤ s)%nat) by (unfold s; nia).
    set (r := (i / 4)%nat) in *.
    assert (i mod 4 = 0 ∨ i mod 4 = 1 ∨ i mod 4 = 2 ∨ i mod 4 = 3)%nat
      as [E|[E|[E|E]]] by lia.
    + (* the first row of a block: the accumulators are seeded *)
      rewrite E in *. clear Hacc. simpl.
      assert (i = 4 * r)%nat as Hir by lia. clearbody r. subst i.
      assert (Hfitc : (r * n ≤ chroma_capacity Tar s)%nat).
      { rewrite Hcap. unfold s.
        pose proof (blocks_fit n in_h r 4) as Hb.
        replace (4 * 4)%nat with 16%nat in Hb by done. lia. }
      destruct (row_410_first_spec Tar d s cu cv ot0 n HT HL' Hd
                  (4 * r * (4 * n)) (r * n) (uv_at Tar s (r * n)) u v ot)
        as (u' & v' & ot' & b & Hrun & HU' & HV' & Hok'); try done.
      rewrite Hrun. simpl. eexists. split; [done|].
      exists u', v', ot'.
      replace (S (4 * r) mod 4)%nat with 1%nat by lia.
      replace (S (4 * r) / 4)%nat with r by lia.
      replace (S (4 * r) * (4 * n))%nat with (4 * r * (4 * n) + 4 * n)%nat by lia.
      split; [done|]. split; [apply HU'|]. split; [apply HV'|].
      split; [|done]. intros _.
      destruct HU' as [HU1 HU2], HV' as [HV1 HV2].
      split; intros k Hk.
      * rewrite HU2 by lia. rewrite block_sum_S, gsum_row_sum_4 by lia.
        change (block_sum (U_at d) (4 * n) 4 (4 * r) (4 * k) 0) with 0.
        rewrite Nat.add_0_r. done.
      * rewrite HV2 by lia. rewrite block_sum_S, gsum_row_sum_4 by lia.
        change (block_sum (V_at d) (4 * n) 4 (4 * r) (4 * k) 0) with 0.
        rewrite Nat.add_0_r. done.
    + (* the second row *)
      rewrite E in *. destruct Hacc as [HU HV]; [done|]. simpl.
      assert (i = 4 * r + 1)%nat as Hir by lia. clearbody r. subst i.
      assert (Hfitc : (r * n ≤ chroma_capacity Tar s)%nat).
      { rewrite Hcap. unfold s.
        pose proof (blocks_fit n in_h r 4) as Hb.
        replace (4 * 4)%nat with 16%nat in Hb by done. lia. }
      destruct (row_410_middle_spec Tar d s cu cv ot0 n HT HL' Hd
                  ((4 * r + 1) * (4 * n)) (r * n) (uv_at Tar s (r * n)) u v ot
                  (λ k, block_sum (U_at d) (4 * n) 4 (4 * r) (4 * k) 1)
                  (λ k, block_sum (V_at d) (4 * n) 4 (4 * r) (4 * k) 1)
                  1020)
        as (u' & v' & ot' & b & Hrun & HU' & HV' & Hok');
        [done|done|by apply acc_added_0|by apply acc_added_0
        |intros k; pose proof (Hbs U_at (4 * r)%nat (4 * k)%nat 1%nat
                                 (U_at_range d)); lia
        |intros k; pose proof (Hbs V_at (4 * r)%nat (4 * k)%nat 1%nat
                                 (V_at_range d)); lia
        |lia|done|].
      rewrite Hrun. simpl. eexists. split; [done|].
      exists u', v', ot'.
      replace (S (4 * r + 1) mod 4)%nat with 2%nat by lia.
      replace (S (4 * r + 1) / 4)%nat with r by lia.
      replace (S (4 * r + 1) * (4 * n))%nat
        with ((4 * r + 1) * (4 * n) + 4 * n)%nat by lia.
      split; [done|]. split; [apply HU'|]. split; [apply HV'|].
      split; [|done]. intros _.
      destruct HU' as [HU1 HU2], HV' as [HV1 HV2].
      split; intros k Hk.
      * rewrite HU2 by lia. rewrite (block_sum_S _ _ _ _ _ 1).
        by rewrite gsum_row_sum_4 by lia.
      * rewrite HV2 by lia. rewrite (block_sum_S _ _ _ _ _ 1).
        by rewrite gsum_row_sum_4 by lia.
    + (* the third row *)
      rewrite E in *. destruct Hacc as [HU HV]; [done|]. simpl.
      assert (i = 4 * r + 2)%nat as Hir by lia. clearbody r. subst i.
      assert (Hfitc : (r * n ≤ chroma_capacity Tar s)%nat).
      { rewrite Hcap. unfold s.
        pose proof (blocks_fit n in_h r 4) as Hb.
        replace (4 * 4)%nat with 16%nat in Hb by done. lia. }
      destruct (row_410_middle_spec Tar d s cu cv ot0 n HT HL' Hd
                  ((4 * r + 2) * (4 * n)) (r * n) (uv_at Tar s (r * n)) u v ot
                  (λ k, block_sum (U_at d) (4 * n) 4 (4 * r) (4 * k) 2)
                  (λ k, block_sum (V_at d) (4 * n) 4 (4 * r) (4 * k) 2)
                  2040)
        as (u' & v' & ot' & b & Hrun & HU' & HV' & Hok');
        [done|done|by apply acc_added_0|by apply acc_added_0
        |intros k; pose proof (Hbs U_at (4 * r)%nat (4 * k)%nat 2%nat
                                 (U_at_range d)); lia
        |intros k; pose proof (Hbs V_at (4 * r)%nat (4 * k)%nat 2%nat
                                 (V_at_range d)); lia
        |lia|done|].
      rewrite Hrun. simpl. eexists. split; [done|].
      exists u', v', ot'.
      replace (S (4 * r + 2) mod 4)%nat with 3%nat by lia.
      replace (S (4 * r + 2) / 4)%nat with r by lia.
      replace (S (4 * r + 2) * (4 * n))%nat
        with ((4 * r + 2) * (4 * n) + 4 * n)%nat by lia.
      split; [done|]. split; [apply HU'|]. split; [apply HV'|].
      split; [|done]. intros _.
      destruct HU' as [HU1 HU2], HV' as [HV1 HV2].
      split; intros k Hk.
      * rewrite HU2 by lia. rewrite (block_sum_S _ _ _ _ _ 2).
        by rewrite gsum_row_sum_4 by lia.
      * rewrite HV2 by lia. rewrite (block_sum_S _ _ _ _ _ 2).
        by rewrite gsum_row_sum_4 by lia.
    + (* the last row: every fourth column emits *)
      rewrite E in *. destruct Hacc as [HU HV]; [done|]. simpl.
      assert (i = 4 * r + 3)%nat as Hir by lia. clearbody r. subst i.
      assert (Hfitc : (r * n + n ≤ chroma_capacity Tar s)%nat).
      { rewrite Hcap. unfold s.
        pose proof (blocks_fit n in_h (r + 1) 4) as Hb.
        replace (4 * 4)%nat with 16%nat in Hb by done. lia. }
      destruct (row_410_last_spec Tar d s cu cv ot0 n HT HL' Hd
                  ((4 * r + 3) * (4 * n)) (r * n) u v ot
                  (λ k, block_sum (U_at d) (4 * n) 4 (4 * r) (4 * k) 3)
                  (λ k, block_sum (V_at d) (4 * n) 4 (4 * r) (4 * k) 3))
        as (u' & v' & ot' & b & Hrun & HU' & HV' & Hok');
        [done|done|by apply acc_added_0|by apply acc_added_0
        |intros k; pose proof (Hbs U_at (4 * r)%nat (4 * k)%nat 3%nat
                                 (U_at_range d)); lia
        |intros k; pose proof (Hbs V_at (4 * r)%nat (4 * k)%nat 3%nat
                                 (V_at_range d)); lia
        | | |done|].
      * intros k Hk. unfold cu. rewrite block_mean_410 by done.
        rewrite (block_sum_S _ _ _ _ _ 3), row_sum_4.
        pose proof (Hbs U_at (4 * r)%nat (4 * k)%nat 4%nat (U_at_range d)) as Hb.
        rewrite (block_sum_S _ _ _ _ _ 3), row_sum_4 in Hb.
        rewrite !Nat.add_assoc.
        by rewrite to_uint8_small by (apply shiftr_sum4_uint8; lia).
      * intros k Hk. unfold cv. rewrite block_mean_410 by done.
        rewrite (block_sum_S _ _ _ _ _ 3), row_sum_4.
        pose proof (Hbs V_at (4 * r)%nat (4 * k)%nat 4%nat (V_at_range d)) as Hb.
        rewrite (block_sum_S _ _ _ _ _ 3), row_sum_4 in Hb.
        rewrite !Nat.add_assoc.
        by rewrite to_uint8_small by (apply shiftr_sum4_uint8; lia).
      * rewrite Hrun. simpl. eexists. split; [done|].
        exists u', v', ot'.
        replace (S (4 * r + 3) mod 4)%nat with 0%nat by lia.
        replace (S (4 * r + 3) / 4 * n)%nat with (r * n + n)%nat by nia.
        replace (S (4 * r + 3) * (4 * n))%nat
          with ((4 * r + 3) * (4 * n) + 4 * n)%nat by lia.
        split; [done|]. split; [done|]. split; [done|].
        split; [intros H; by destruct H|done].
  - rewrite Hrun. eexists _, ot'. split; [done|]. split; [done|].
    replace (4 * n / 4)%nat with n by lia.
    rewrite Nat.add_0_l in Hok'.
    replace (in_h * (4 * n))%nat with s in Hok' by (unfold s; lia).
    done.
Qed.

Lemma transform_to_410_spec {A : AllocT} Tar d in_w in_h ot0 junk h :
  is_410 Tar = true →
  (in_w mod 4 = 0)%nat →
  Z.of_nat in_w * Z.of_nat in_h < 2 ^ size_bits →
  length d = (in_w * in_h)%nat →
  (in_w * in_h + 2 * (in_w * in_h / 16) ≤ length ot0)%nat →
  accumulators_allocated Tar in_w h →
  ∃ out h',
    transform_to Tar d in_w in_h ot0 junk h = Some (out, h')
    ∧ planes_ok Tar d (in_w * in_h)
        (block_mean (U_at d) in_w 4 4 4) (block_mean (V_at d) in_w 4 4 4)
        ot0 out (in_w * in_h) (in_h / 4 * (in_w / 4)).
Proof.
  intros HT Hw Hfit Hd HL Hal.
  assert (transform_to Tar d in_w in_h ot0 junk h
          = transform_to_410 Tar d in_w in_h ot0 junk h) as ->
    by (destruct Tar; try discriminate; reflexivity).
  unfold transform_to_410.
  rewrite (is_410_enabled Tar HT), split_Y, (fill_spec Tar)
    by (by apply is_410_planar).
  rewrite (size_mul_small _ _ Hfit). cbn [mbind option_bind].
  rewrite shiftr_2.
  destruct (accumulators_there Tar in_w h (u_tmp_init junk)
              (v_tmp_init junk) (in_w / 4)%nat Hal)
    as (u_blk & u0 & h1 & v_blk & v0 & h2 & -> & -> & Hu0 & Hv0);
    [by destruct Tar|].
  destruct (rows_410_run Tar d in_w in_h ot0 u0 v0 HT Hw Hd HL Hu0 Hv0)
    as (st & out & -> & Hst & Hok).
  destruct st as [[[[[[? ?] ?] ?] ?] ot'] ?]. simpl in Hst. subst ot'.
  cbn [mbind option_bind]. eexists _, _. split; [reflexivity|done].
Qed.
End writer_410_rows.

(** ** The planar 4:2:2 and 4:1:1 writers *)

Section writer_linear.
Import detail_transform_.
Local Arguments Nat.mul : simpl never.
Local Arguments Nat.add : simpl never.
Local Arguments Nat.div : simpl never.
Local Arguments Nat.modulo : simpl never.
Local Arguments row_sum : simpl never.
Local Arguments Y_at : simpl never.
Local Arguments U_at : simpl never.
Local Arguments V_at : simpl never.

Lemma row_sum_2 f st : row_sum f st 2 = f st + f (st + 1)%nat.
Proof. unfold row_sum. rewrite Nat.add_0_r. lia. Qed.

Context (Tar : supported) (d : list rgb_t.t) (s : nat) (cu cv : nat → Z)
  (ot0 : list Z).
Context (HT : is_planar Tar = true).
Context (HL : (s + 2 * chroma_capacity Tar s ≤ length ot0)%nat).
Context (Hd : length d = s).

Lemma planar_pixel_spec op i ne p_uv u_k v_k ot :
  (i < s)%nat → (ne ≤ chroma_capacity Tar s)%nat →
  planes_ok Tar d s cu cv ot0 ot i ne →
  ∃ ot',
    planar_pixel d op (i, i, p_uv, u_k, v_k, ot)
    = Some (S i, S i, p_uv, apply_op op u_k (U_at d i),
            apply_op op v_k (V_at d i), ot')
    ∧ planes_ok Tar d s cu cv ot0 ot' (S i) ne.
Proof using HT HL Hd.
  intros Hi Hne Hok. unfold planar_pixel.
  rewrite (pixel_at_lookup d i) by lia. simpl.
  fold (Y_at d i) (U_at d i) (V_at d i).
  destruct (planes_ok_store_Y Tar d s cu cv ot0 ot i ne)
    as (ot' & Hst & Hok'); [done|done|lia|done|done|].
  rewrite Hst. simpl. by exists ot'.
Qed.

Lemma planar_emit_spec i ne u_k v_k ot sh :
  set_and_next_shift Tar = Some sh →
  (i ≤ s)%nat → (ne < chroma_capacity Tar s)%nat →
  cu ne = to_uint8 (Z.shiftr u_k sh) → cv ne = to_uint8 (Z.shiftr v_k sh) →
  planes_ok Tar d s cu cv ot0 ot i ne →
  ∃ ot',
    planar_emit Tar (i, i, uv_at Tar s ne, u_k, v_k, ot)
    = Some (i, i, uv_at Tar s (S ne), u_k, v_k, ot')
    ∧ planes_ok Tar d s cu cv ot0 ot' i (S ne).
Proof using HT HL Hd.
  intros Hsh Hi Hne Hu Hv Hok. unfold planar_emit.
  destruct (planes_ok_set_and_next Tar d s cu cv ot0 ot i ne u_k v_k sh)
    as (ot' & Hsn & Hok'); try done.
  rewrite Hsn. simpl. by exists ot'.
Qed.
End writer_linear.

Section writer_linear_loops.
Import detail_transform_.
Local Arguments Nat.mul : simpl never.
Local Arguments Nat.add : simpl never.
Local Arguments Nat.div : simpl never.
Local Arguments Nat.modulo : simpl never.
Local Arguments row_sum : simpl never.
Local Arguments uv_at : simpl never.
Local Arguments planar_pixel : simpl never.
Local Arguments planar_emit : simpl never.
Local Arguments Y_at : simpl never.
Local Arguments U_at : simpl never.
Local Arguments V_at : simpl never.

Lemma transform_to_422P_spec d in_w in_h ot0 junk :
  ((in_w * in_h) mod 2 = 0)%nat →
  Z.of_nat in_w * Z.of_nat in_h < 2 ^ size_bits →
  length d = (in_w * in_h)%nat →
  (2 * (in_w * in_h) ≤ length ot0)%nat →
  ∃ out,
    transform_to_422P yuv_422P d in_w in_h ot0 junk = Some out
    ∧ planes_ok yuv_422P d (in_w * in_h)
        (group_mean (U_at d) 2 1) (group_mean (V_at d) 2 1)
        ot0 out (in_w * in_h) (in_w * in_h / 2).
Proof.
  intros Hev Hfit Hd HL.
  unfold transform_to_422P.
  rewrite split_Y, (fill_spec yuv_422P) by done.
  rewrite (size_mul_small _ _ Hfit). simpl.
  clear Hfit. set (s := (in_w * in_h)%nat) in *. clearbody s.
  set (cu := group_mean (U_at d) 2 1). set (cv := group_mean (V_at d) 2 1).
  assert (HL' : (s + 2 * chroma_capacity yuv_422P s ≤ length ot0)%nat)
    by (unfold chroma_capacity; lia).
  destruct (while_inv
    (λ st, ∃ m u_k v_k ot,
       st = ((2 * m)%nat, (2 * m)%nat, uv_at yuv_422P s m, u_k, v_k, ot)
       ∧ (2 * m ≤ s)%nat
       ∧ planes_ok yuv_422P d s cu cv ot0 ot (2 * m) m)
    (λ '(i, _, _, _, _, _), (s - i)%nat)
    (λ '(i, _, _, _, _, _), bool_decide (i < s)%nat)
    (λ st,
       st ← planar_pixel d op_set st;
       st ← planar_pixel d op_add st;
       planar_emit yuv_422P st)) with (fuel := s)
    (st := (0%nat, 0%nat, uv_at yuv_422P s 0, u_k_init junk, v_k_init junk, ot0))
    as (st' & -> & (m & u & v & ot & -> & Hm & Hok) & Hc).
  - intros st (m & u & v & ot & -> & Hm & Hok) Hc.
    apply bool_decide_eq_true in Hc.
    assert (Hcap : (m < chroma_capacity yuv_422P s)%nat)
      by (unfold chroma_capacity; lia).
    destruct (planar_pixel_spec yuv_422P d s cu cv ot0 eq_refl HL' Hd
                op_set (2 * m) m (uv_at yuv_422P s m) u v ot)
      as (ot1 & -> & Hok1); [lia|lia|done|]. simpl.
    destruct (planar_pixel_spec yuv_422P d s cu cv ot0 eq_refl HL' Hd
                op_add (S (2 * m)) m (uv_at yuv_422P s m)
                (to_uint16 (U_at d (2 * m))) (to_uint16 (V_at d (2 * m))) ot1)
      as (ot2 & -> & Hok2); [lia|lia|done|]. simpl.
    pose proof (U_at_range d (2 * m)) as HU0.
    pose proof (U_at_range d (S (2 * m))) as HU1.
    pose proof (V_at_range d (2 * m)) as HV0.
    pose proof (V_at_range d (S (2 * m))) as HV1.
    unfold is_uint8 in *.
    rewrite (to_uint16_small (U_at d (2 * m))),
      (to_uint16_small (V_at d (2 * m))) by (unfold is_uint16; lia).
    rewrite (to_uint16_small (U_at d (2 * m) + _)),
      (to_uint16_small (V_at d (2 * m) + _)) by (unfold is_uint16; lia).
    destruct (planar_emit_spec yuv_422P d s cu cv ot0 eq_refl HL' Hd
                (S (S (2 * m))) m
                (U_at d (2 * m) + U_at d (S (2 * m)))
                (V_at d (2 * m) + V_at d (S (2 * m))) ot2 1)
      as (ot3 & -> & Hok3); [done|lia|done| | |done|].
    + unfold cu, group_mean. rewrite row_sum_2.
      replace (2 * m + 1)%nat with (S (2 * m)) by lia.
      by rewrite to_uint8_small by (apply shiftr_sum2_uint8; done).
    + unfold cv, group_mean. rewrite row_sum_2.
      replace (2 * m + 1)%nat with (S (2 * m)) by lia.
      by rewrite to_uint8_small by (apply shiftr_sum2_uint8; done).
    + eexists. split; [done|]. split; [|lia].
      exists (S m). eexists _, _, ot3.
      replace (2 * S m)%nat with (S (S (2 * m))) by lia.
      split; [done|]. split; [lia|done].
  - exists 0%nat. eexists _, _, ot0. split; [done|]. split; [lia|].
    apply planes_ok_start.
  - lia.
  - apply bool_decide_eq_false in Hc. simpl. exists ot. split; [done|].
    assert (2 * m = s)%nat as Hms by lia.
    rewrite Hms in Hok. replace (s / 2)%nat with m by lia. done.
Qed.

Lemma transform_to_411P_spec d in_w in_h ot0 junk :
  ((in_w * in_h) mod 4 = 0)%nat →
  Z.of_nat in_w * Z.of_nat in_h < 2 ^ size_bits →
  length d = (in_w * in_h)%nat →
  (in_w * in_h + 2 * (in_w * in_h / 4) ≤ length ot0)%nat →
  ∃ out,
    transform_to_411P yuv_411P d in_w in_h ot0 junk = Some out
    ∧ planes_ok yuv_411P d (in_w * in_h)
        (group_mean (U_at d) 4 2) (group_mean (V_at d) 4 2)
        ot0 out (in_w * in_h) (in_w * in_h / 4).
Proof.
  intros Hev Hfit Hd HL.
  unfold transform_to_411P.
  rewrite split_Y, (fill_spec yuv_411P) by done.
  rewrite (size_mul_small _ _ Hfit). simpl.
  clear Hfit. set (s := (in_w * in_h)%nat) in *. clearbody s.
  set (cu := group_mean (U_at d) 4 2). set (cv := group_mean (V_at d) 4 2).
  assert (HL' : (s + 2 * chroma_capacity yuv_411P s ≤ length ot0)%nat)
    by (unfold chroma_capacity; lia).
  destruct (while_inv
    (λ st, ∃ m u_k v_k ot,
       st = ((4 * m)%nat, (4 * m)%nat, uv_at yuv_411P s m, u_k, v_k, ot)
       ∧ (4 * m ≤ s)%nat
       ∧ planes_ok yuv_411P d s cu cv ot0 ot (4 * m) m)
    (λ '(i, _, _, _, _, _), (s - i)%nat)
    (λ '(i, _, _, _, _, _), bool_decide (i < s)%nat)
    (λ st,
       st ← planar_pixel d op_set st;
       st ← planar_pixel d op_add st;
       st ← planar_pixel d op_add st;
       st ← planar_pixel d op_add st;
       planar_emit yuv_411P st)) with (fuel := s)
    (st := (0%nat, 0%nat, uv_at yuv_411P s 0, u_k_init junk, v_k_init junk, ot0))
    as (st' & -> & (m & u & v & ot & -> & Hm & Hok) & Hc).
  - intros st (m & u & v & ot & -> & Hm & Hok) Hc.
    apply bool_decide_eq_true in Hc.
    assert (Hcap : (m < chroma_capacity yuv_411P s)%nat)
      by (unfold chroma_capacity; lia).
    destruct (planar_pixel_spec yuv_411P d s cu cv ot0 eq_refl HL' Hd
                op_set (4 * m) m (uv_at yuv_411P s m) u v ot)
      as (ot1 & -> & Hok1); [lia|lia|done|]. simpl.
    destruct (planar_pixel_spec yuv_411P d s cu cv ot0 eq_refl HL' Hd
                op_add (S (4 * m)) m (uv_at yuv_411P s m)
                (to_uint16 (U_at d (4 * m))) (to_uint16 (V_at d (4 * m))) ot1)
      as (ot2 & -> & Hok2); [lia|lia|done|]. simpl.
    destruct (planar_pixel_spec yuv_411P d s cu cv ot0 eq_refl HL' Hd
                op_add (S (S (4 * m))) m (uv_at yuv_411P s m)
                (to_uint16 (to_uint16 (U_at d (4 * m)) + U_at d (S (4 * m))))
                (to_uint16 (to_uint16 (V_at d (4 * m)) + V_at d (S (4 * m))))
                ot2)
      as (ot3 & -> & Hok3); [lia|lia|done|]. simpl.
    destruct (planar_pixel_spec yuv_411P d s cu cv ot0 eq_refl HL' Hd
                op_add (S (S (S (4 * m)))) m (uv_at yuv_411P s m)
                (to_uint16 (to_uint16 (to_uint16 (U_at d (4 * m))
                                       + U_at d (S (4 * m)))
                            + U_at d (S (S (4 * m)))))
                (to_uint16 (to_uint16 (to_uint16 (V_at d (4 * m))
                                       + V_at d (S (4 * m)))
                            + V_at d (S (S (4 * m)))))
                ot3)
      as (ot4 & -> & Hok4); [lia|lia|done|]. simpl.
    pose proof (U_at_range d (4 * m)) as HU0.
    pose proof (U_at_range d (S (4 * m))) as HU1.
    pose proof (U_at_range d (S (S (4 * m)))) as HU2.
    pose proof (U_at_range d (S (S (S (4 * m))))) as HU3.
    pose proof (V_at_range d (4 * m)) as HV0.
    pose proof (V_at_range d (S (4 * m))) as HV1.
    pose proof (V_at_range d (S (S (4 * m)))) as HV2.
    pose proof (V_at_range d (S (S (S (4 * m))))) as HV3.
    unfold is_uint8 in *.
    rewrite (to_uint16_small (U_at d (4 * m))),
      (to_uint16_small (V_at d (4 * m))) by (unfold is_uint16; lia).
    rewrite (to_uint16_small (U_at d (4 * m) + _)),
      (to_uint16_small (V_at d (4 * m) + _)) by (unfold is_uint16; lia).
    rewrite (to_uint16_small (U_at d (4 * m) + _ + _)),
      (to_uint16_small (V_at d (4 * m) + _ + _)) by (unfold is_uint16; lia).
    rewrite (to_uint16_small (U_at d (4 * m) + _ + _ + _)),
      (to_uint16_small (V_at d (4 * m) + _ + _ + _)) by (unfold is_uint16; lia).
    destruct (planar_emit_spec yuv_411P d s cu cv ot0 eq_refl HL' Hd
                (S (S (S (S (4 * m))))) m
                (U_at d (4 * m) + U_at d (S (4 * m))
                 + U_at d (S (S (4 * m))) + U_at d (S (S (S (4 * m)))))
                (V_at d (4 * m) + V_at d (S (4 * m))
                 + V_at d (S (S (4 * m))) + V_at d (S (S (S (4 * m)))))
                ot4 2)
      as (ot5 & -> & Hok5); [done|lia|done| | |done|].
    + unfold cu, group_mean. rewrite row_sum_4.
      replace (4 * m + 1)%nat with (S (4 * m)) by lia.
      replace (4 * m + 2)%nat with (S (S (4 * m))) by lia.
      replace (4 * m + 3)%nat with (S (S (S (4 * m)))) by lia.
      by rewrite to_uint8_small by (apply shiftr_sum4_uint8; lia).
    + unfold cv, group_mean. rewrite row_sum_4.
      replace (4 * m + 1)%nat with (S (4 * m)) by lia.
      replace (4 * m + 2)%nat with (S (S (4 * m))) by lia.
      replace (4 * m + 3)%nat with (S (S (S (4 * m)))) by lia.
      by rewrite to_uint8_small by (apply shiftr_sum4_uint8; lia).
    + eexists. split; [done|]. split; [|lia].
      exists (S m). eexists _, _, ot5.
      replace (4 * S m)%nat with (S (S (S (S (4 * m))))) by lia.
      split; [done|]. split; [lia|done].
  - exists 0%nat. eexists _, _, ot0. split; [done|]. split; [lia|].
    apply planes_ok_start.
  - lia.
  - apply bool_decide_eq_false in Hc. simpl. exists ot. split; [done|].
    assert (4 * m = s)%nat as Hms by lia.
    rewrite Hms in Hok. replace (s / 4)%nat with m by lia. done.
Qed.
End writer_linear_loops.

(** ** The Y41P writer *)

Section writer_Y41P.
Import detail_transform_.
Local Arguments Nat.mul : simpl never.
Local Arguments Nat.add : simpl never.
Local Arguments row_sum : simpl never.
Local Arguments Y_at : simpl never.
Local Arguments U_at : simpl never.
Local Arguments V_at : simpl never.
Local Arguments to_uint16 : simpl never.
Local Arguments Z.shiftr : simpl never.

Lemma drop_S_n (l : list Z) n k :
  (n + k ≤ length l)%nat →
  ∃ bs, length bs = k ∧ drop n l = bs ++ drop (n + k) l.
Proof.
  intros H. exists (take k (drop n l)). split.
  - rewrite length_take, length_drop. lia.
  - rewrite <- (take_drop k (drop n l)) at 1. f_equal.
    rewrite drop_drop. done.
Qed.

Lemma y41p_image_length d m : length (y41p_image d m) = (12 * m)%nat.
Proof.
  unfold y41p_image. induction m as [|m IH]; [done|].
  rewrite seq_S, fmap_app, concat_app, length_app, IH. simpl. lia.
Qed.

Lemma y41p_image_S d m :
  y41p_image d (S m) = y41p_image d m ++ y41p_block d (8 * m).
Proof.
  unfold y41p_image. rewrite seq_S, fmap_app, concat_app.
  f_equal; simpl; rewrite ?app_nil_r; done.
Qed.

Lemma sum4_uint16 a b c e :
  is_uint8 a → is_uint8 b → is_uint8 c → is_uint8 e →
  to_uint16 (to_uint16 (to_uint16 (to_uint16 a + b) + c) + e) = a + b + c + e.
Proof.
  unfold is_uint8. intros ????.
  rewrite (to_uint16_small a) by (unfold is_uint16; lia).
  rewrite (to_uint16_small (a + b)) by (unfold is_uint16; lia).
  rewrite (to_uint16_small (a + b + c)) by (unfold is_uint16; lia).
  rewrite (to_uint16_small (a + b + c + e)) by (unfold is_uint16; lia).
  done.
Qed.

Lemma mean4_uint8 f i :
  (∀ c, is_uint8 (f c)) → is_uint8 (Z.shiftr (row_sum f i 4) 2).
Proof.
  intros Hf. apply shiftr_sum4_uint8; [|lia].
  pose proof (row_sum_bound f i 4 Hf). lia.
Qed.

Lemma store_mid pre bs rest k v :
  (k < length bs)%nat →
  store (pre ++ bs ++ rest) (length pre + k) v
  = Some (pre ++ <[k := to_uint8 v]> bs ++ rest).
Proof.
  intros Hk. rewrite store_app_r, store_Some by (rewrite length_app; lia).
  simpl. by rewrite insert_app_l.
Qed.

Lemma y41p_pixel_step d I op i pre bs rest u_k v_k :
  (i < length d)%nat → (y41p_y I < length bs)%nat →
  y41p_pixel d I op (i, length pre, u_k, v_k, pre ++ bs ++ rest)
  = Some (S i, length pre, apply_op op u_k (U_at d i),
          apply_op op v_k (V_at d i),
          pre ++ <[y41p_y I := to_uint8 (Y_at d i)]> bs ++ rest).
Proof.
  intros Hi HI. unfold y41p_pixel.
  rewrite (pixel_at_lookup d i) by done. simpl.
  fold (Y_at d i) (U_at d i) (V_at d i).
  by rewrite store_mid.
Qed.

Lemma y41p_emit_step n i pre bs rest u_k v_k :
  (y41p_u n < length bs)%nat → (y41p_v n < length bs)%nat →
  y41p_emit n (i, length pre, u_k, v_k, pre ++ bs ++ rest)
  = Some (i, length pre, u_k, v_k,
          pre ++ <[y41p_v n := to_uint8 (Z.shiftr v_k 2)]>
                   (<[y41p_u n := to_uint8 (Z.shiftr u_k 2)]> bs) ++ rest).
Proof.
  intros Hu Hv. unfold y41p_emit.
  rewrite store_mid by done. simpl.
  by rewrite store_mid by (by rewrite length_insert).
Qed.

Local Arguments y41p_pixel : simpl never.
Local Arguments y41p_emit : simpl never.

Lemma y41p_body_spec d pre bs rest i u_k v_k :
  (i + 8 ≤ length d)%nat → length bs = 12%nat →
  ∃ u_k' v_k',
    y41p_body d (i, length pre, u_k, v_k, pre ++ bs ++ rest)
    = Some ((i + 8)%nat, (length pre + 12)%nat, u_k', v_k',
            pre ++ y41p_block d i ++ rest).
Proof.
  intros Hd Hbs. unfold y41p_body.
  do 10 (match goal with
         | |- context [y41p_pixel ?d' ?I ?op
                         (?j, length ?p, ?u, ?v, ?p ++ ?b ++ ?r)] =>
             rewrite (y41p_pixel_step d' I op j p b r u v)
               by (rewrite ?length_insert, ?Hbs; simpl; lia)
         | |- context [y41p_emit ?n (?j, length ?p, ?u, ?v, ?p ++ ?b ++ ?r)] =>
             rewrite (y41p_emit_step n j p b r u v)
               by (rewrite ?length_insert, ?Hbs; simpl; lia)
         end; simpl).
  repeat match goal with
         | |- context [to_uint16 (to_uint16 (to_uint16 (to_uint16 ?a + ?b)
                                             + ?c) + ?e)] =>
             rewrite (sum4_uint16 a b c e)
               by at_range
         end.
  do 12 (destruct bs as [|? bs]; [discriminate|]).
  destruct bs; [|discriminate]. clear Hbs.
  eexists _, _. f_equal.
  replace (S (S (S (S (S (S (S (S i)))))))) with (i + 8)%nat by lia.
  do 2 f_equal. unfold y41p_y, y41p_u, y41p_v.
  change (4 + 4)%nat with 8%nat. change (5 + 4)%nat with 9%nat.
  change (6 + 4)%nat with 10%nat. change (7 + 4)%nat with 11%nat.
  cbn [insert list_insert]. unfold y41p_block.
  pose proof (mean4_uint8 (U_at d) i (U_at_range d)) as H1.
  pose proof (mean4_uint8 (V_at d) i (V_at_range d)) as H2.
  pose proof (mean4_uint8 (U_at d) (i + 4) (U_at_range d)) as H3.
  pose proof (mean4_uint8 (V_at d) (i + 4) (V_at_range d)) as H4.
  rewrite !row_sum_4 in *.
  replace (i + 1)%nat with (S i) in * by lia.
  replace (i + 2)%nat with (S (S i)) in * by lia.
  replace (i + 3)%nat with (S (S (S i))) in * by lia.
  replace (i + 4)%nat with (S (S (S (S i)))) in * by lia.
  replace (i + 5)%nat with (S (S (S (S (S i))))) in * by lia.
  replace (i + 6)%nat with (S (S (S (S (S (S i)))))) in * by lia.
  replace (i + 7)%nat with (S (S (S (S (S (S (S i))))))) in * by lia.
  replace (S (S (S (S i))) + 1)%nat with (S (S (S (S (S i))))) in * by lia.
  replace (S (S (S (S i))) + 2)%nat with (S (S (S (S (S (S i)))))) in * by lia.
  replace (S (S (S (S i))) + 3)%nat
    with (S (S (S (S (S (S (S i))))))) in * by lia.
  rewrite (to_uint8_small _ H1), (to_uint8_small _ H2),
    (to_uint8_small _ H3), (to_uint8_small _ H4).
  rewrite !(to_uint8_small (Y_at d _)) by apply Y_at_range.
  done.
Qed.

Lemma transform_to_Y41P_spec d in_w in_h ot0 junk :
  ((in_w * in_h) mod 8 = 0)%nat →
  Z.of_nat in_w * Z.of_nat in_h < 2 ^ size_bits →
  length d = (in_w * in_h)%nat →
  length ot0 = (in_w * in_h + in_w * in_h / 2)%nat →
  transform_to_Y41P yuv_Y41P d in_w in_h ot0 junk
  = Some (y41p_image d (in_w * in_h / 8)).
Proof.
  intros Hev Hfit Hd Hot.
  unfold transform_to_Y41P. rewrite (size_mul_small _ _ Hfit). simpl.
  clear Hfit. set (s := (in_w * in_h)%nat) in *. clearbody s.
  destruct (while_inv
    (λ st, ∃ m u v, st = ((8 * m)%nat, (12 * m)%nat, u, v,
                          y41p_image d m ++ drop (12 * m) ot0)
                    ∧ (8 * m ≤ s)%nat)
    (λ '(i, _, _, _, _), (s - i)%nat)
    (λ '(i, _, _, _, _), bool_decide (i < s)%nat)
    (y41p_body d)) with (fuel := s)
    (st := (0%nat, 0%nat, u_k_init junk, v_k_init junk, ot0))
    as (st' & -> & (m & u & v & -> & Hm) & Hc).
  - intros st (m & u & v & -> & Hm) Hc. apply bool_decide_eq_true in Hc.
    destruct (drop_S_n ot0 (12 * m) 12) as (bs & Hbs & Hdrop); [lia|].
    rewrite Hdrop.
    destruct (y41p_body_spec d (y41p_image d m) bs (drop (12 * m + 12) ot0)
                (8 * m) u v) as (u' & v' & Hb); [lia|done|].
    rewrite y41p_image_length in Hb. rewrite Hb.
    eexists. split; [done|]. split; [|lia].
    exists (S m), u', v'. split; [|lia].
    rewrite y41p_image_S, <- app_assoc.
    repeat (f_equal; try lia).
  - exists 0%nat, (u_k_init junk), (v_k_init junk). split; [done|lia].
  - lia.
  - apply bool_decide_eq_false in Hc. simpl.
    assert (m = (s / 8)%nat) as -> by lia.
    rewrite drop_ge by lia. by rewrite app_nil_r.
Qed.
End writer_Y41P.

(** ** Block means *)

Section means.
Local Arguments Nat.mul : simpl never.
Local Arguments Nat.add : simpl never.
Local Arguments Nat.div : simpl never.
Local Arguments Nat.modulo : simpl never.
Local Arguments Z.add : simpl never.
Local Arguments Z.div : simpl never.
Local Arguments Z.of_nat : simpl never.

Lemma shiftr_div x k : 0 ≤ k → Z.shiftr x k = x / 2 ^ k.
Proof. intros. by apply Z.shiftr_div_pow2. Qed.

Lemma group_mean_2 f n Tar :
  block_shape Tar = (2, 1)%nat →
  group_mean f 2 1 n = mean_over f (block_pixels Tar 0 n)
  ∧ ∀ in_w, block_pixels Tar in_w n = block_pixels Tar 0 n.
Proof.
  intros HT. unfold block_pixels. rewrite HT. split; [|done].
  unfold group_mean, mean_over. rewrite row_sum_2, shiftr_div by lia.
  simpl. rewrite Nat.add_0_r, Z.add_0_r. done.
Qed.

Lemma group_mean_4 f n Tar :
  block_shape Tar = (4, 1)%nat →
  group_mean f 4 2 n = mean_over f (block_pixels Tar 0 n)
  ∧ ∀ in_w, block_pixels Tar in_w n = block_pixels Tar 0 n.
Proof.
  intros HT. unfold block_pixels. rewrite HT. split; [|done].
  unfold group_mean, mean_over. rewrite row_sum_4, shiftr_div by lia.
  simpl. rewrite Nat.add_0_r, Z.add_0_r, !Z.add_assoc. done.
Qed.

Lemma block_mean_2x2 f in_w m Tar :
  block_shape Tar = (2, 2)%nat →
  block_mean f in_w 2 2 2 m = mean_over f (block_pixels Tar in_w m).
Proof.
  intros HT. unfold block_pixels. rewrite HT.
  unfold block_mean, mean_over. rewrite shiftr_div by lia.
  unfold block_sum. rewrite !row_sum_2.
  simpl. rewrite !Nat.add_0_r, !Z.add_0_r, Z.add_0_l, !Z.add_assoc.
  rewrite ?Nat.add_assoc. done.
Qed.

Lemma block_mean_4x4 f in_w m Tar :
  block_shape Tar = (4, 4)%nat →
  block_mean f in_w 4 4 4 m = mean_over f (block_pixels Tar in_w m).
Proof.
  intros HT. unfold block_pixels. rewrite HT.
  unfold block_mean, mean_over. rewrite shiftr_div by lia.
  unfold block_sum. rewrite !row_sum_4.
  simpl. rewrite !Nat.add_0_r, !Z.add_0_r, Z.add_0_l, !Z.add_assoc.
  rewrite ?Nat.add_assoc. done.
Qed.

Lemma sum_over_bound f l :
  (∀ c, is_uint8 (f c)) → 0 ≤ sum_over f l ≤ 255 * Z.of_nat (length l).
Proof.
  intros Hf. induction l as [|i l IH]; simpl; [lia|].
  pose proof (Hf i) as H. unfold is_uint8 in H. lia.
Qed.

Lemma block_pixels_length Tar in_w n :
  is_subsampled Tar = true →
  length (block_pixels Tar in_w n)
  = ((block_shape Tar).1 * (block_shape Tar).2)%nat
  ∧ (length (block_pixels Tar in_w n) ≤ 16)%nat
  ∧ (0 < length (block_pixels Tar in_w n))%nat.
Proof. destruct Tar; try discriminate; intros _; vm_compute; lia. Qed.

Lemma mean_over_const f l c :
  (∀ i, f i = c) → (0 < length l)%nat → mean_over f l = c.
Proof.
  intros Hf Hl. unfold mean_over.
  assert (sum_over f l = c * Z.of_nat (length l)) as ->.
  { clear Hl. induction l as [|i l IH]; simpl; [lia|]. rewrite Hf, IH. lia. }
  apply Z.div_mul. lia.
Qed.
End means.

(** ** Every subsampled writer, in one statement *)

Section unified.
Import detail_transform_.
Local Arguments Nat.mul : simpl never.
Local Arguments Nat.add : simpl never.
Local Arguments Nat.div : simpl never.
Local Arguments Nat.modulo : simpl never.
Local Arguments Z.add : simpl never.
Local Arguments Z.div : simpl never.
Local Arguments Z.of_nat : simpl never.
Local Arguments Z.shiftr : simpl never.
Local Arguments row_sum : simpl never.
Local Arguments Y_at : simpl never.
Local Arguments U_at : simpl never.
Local Arguments V_at : simpl never.

Lemma lookup_concat_chunks {A} (f : nat → list A) sz m n k :
  (∀ i, length (f i) = sz) → (n < m)%nat → (k < sz)%nat →
  concat (f <$> seq 0 m) !! (sz * n + k)%nat = f n !! k.
Proof.
  intros Hlen. induction m as [|m IH]; intros Hn Hk; [lia|].
  assert (Hcl : ∀ m', length (concat (f <$> seq 0 m')) = (sz * m')%nat).
  { induction m' as [|m' IH']; [simpl; lia|].
    rewrite seq_S, fmap_app, concat_app, length_app, IH'. simpl.
    rewrite length_app, Hlen. simpl. lia. }
  rewrite seq_S, fmap_app, concat_app. simpl. rewrite app_nil_r.
  destruct (decide (n = m)) as [->|Hne].
  - rewrite lookup_app_r by (rewrite Hcl; lia).
    rewrite Hcl. f_equal. lia.
  - rewrite lookup_app_l by (rewrite Hcl; nia). apply IH; lia.
Qed.

Lemma planes_ok_ext Tar d s cu cv cu' cv' ot0 ot ny ne :
  (∀ n, (n < ne)%nat → cu n = cu' n ∧ cv n = cv' n) →
  planes_ok Tar d s cu cv ot0 ot ny ne →
  planes_ok Tar d s cu' cv' ot0 ot ny ne.
Proof.
  intros Hext (Hlen & HY & HC & HF). repeat split; try done.
  - rewrite <- (proj1 (Hext n H)). by apply HC.
  - rewrite <- (proj2 (Hext n H)). by apply HC.
Qed.

Lemma planes_subsampled Tar d in_w in_h cu cv ot0 out :
  is_planar Tar = true →
  planes_ok Tar d (in_w * in_h) cu cv ot0 out (in_w * in_h)
    (chroma_count Tar in_w in_h) →
  subsampled_ok Tar d in_w in_h cu cv ot0 out.
Proof.
  intros HT (Hlen & HY & HC & HF).
  assert (Hy : ∀ i, y_index Tar i = i) by (by destruct Tar).
  assert (Hcb : ∀ n, cb_index Tar (in_w * in_h) n = cb_pos Tar (in_w * in_h) n)
    by (by destruct Tar).
  assert (Hcr : ∀ n, cr_index Tar (in_w * in_h) n = cr_pos Tar (in_w * in_h) n)
    by (by destruct Tar).
  split; [done|]. split; [|split].
  - intros i Hi. rewrite Hy. by apply HY.
  - intros n Hn. rewrite Hcb, Hcr. by apply HC.
  - intros p Hp Hq. apply HF.
    + destruct (decide (in_w * in_h ≤ p)%nat); [done|].
      exfalso. apply (Hp p); [lia|]. by rewrite Hy.
    + intros n Hn. rewrite <- Hcb, <- Hcr. by apply Hq.
Qed.

Lemma packed_pair_length Tar d n :
  is_packed_422 Tar = true → length (packed_pair Tar d n) = 4%nat.
Proof. by destruct Tar. Qed.

Lemma packed_subsampled Tar d in_w in_h ot0 :
  is_packed_422 Tar = true →
  ((in_w * in_h) mod 2 = 0)%nat →
  length ot0 = (2 * (in_w * in_h))%nat →
  subsampled_ok Tar d in_w in_h
    (λ n, mean_over (U_at d) (block_pixels Tar in_w n))
    (λ n, mean_over (V_at d) (block_pixels Tar in_w n))
    ot0 (packed_422_image Tar d (in_w * in_h / 2)).
Proof.
  intros HT Hev Hot. unfold subsampled_ok.
  assert (Hcnt : chroma_count Tar in_w in_h = (in_w * in_h / 2)%nat)
    by (destruct Tar; try discriminate; done).
  rewrite Hcnt. clear Hcnt.
  set (s := (in_w * in_h)%nat) in *. clearbody s.
  assert (Hlook : ∀ n k, (n < s / 2)%nat → (k < 4)%nat →
            packed_422_image Tar d (s / 2) !! (4 * n + k)%nat
            = packed_pair Tar d n !! k).
  { intros n k Hn Hk. unfold packed_422_image.
    apply (lookup_concat_chunks (packed_pair Tar d) 4); [|done|done].
    intros i. by apply packed_pair_length. }
  assert (Hlook0 : ∀ n, (n < s / 2)%nat →
            packed_422_image Tar d (s / 2) !! (4 * n)%nat
            = packed_pair Tar d n !! 0%nat).
  { intros n Hn. rewrite <- (Hlook n 0%nat) by lia. f_equal. lia. }
  assert (Hmean : ∀ f n, mean_over f (block_pixels Tar in_w n)
                         = Z.shiftr (f (2 * n)%nat + f (2 * n + 1)%nat) 1).
  { intros f n.
    destruct (group_mean_2 f n Tar) as [E1 E2]; [by destruct Tar|].
    rewrite E2, <- E1. unfold group_mean. by rewrite row_sum_2. }
  split; [rewrite packed_422_image_length by done; lia|].
  split; [|split].
  - intros i Hi.
    assert (i mod 2 = 0 ∨ i mod 2 = 1)%nat as [E|E] by lia.
    + replace (Y_at d i) with (Y_at d (2 * (i / 2))) by (f_equal; lia).
      destruct Tar; try discriminate; unfold y_index; rewrite E;
        rewrite <- ?Nat.add_assoc; rewrite Hlook by lia; reflexivity.
    + replace (Y_at d i) with (Y_at d (2 * (i / 2) + 1)) by (f_equal; lia).
      destruct Tar; try discriminate; unfold y_index; rewrite E;
        rewrite <- ?Nat.add_assoc; rewrite Hlook by lia; reflexivity.
  - intros n Hn. rewrite !Hmean.
    destruct Tar; try discriminate; unfold cb_index, cr_index;
      rewrite ?(Hlook n 1%nat), ?(Hlook n 3%nat), ?(Hlook n 2%nat),
        ?(Hlook0 n) by lia;
      split; reflexivity.
  - intros p HpY HpC.
    destruct (decide (p < 2 * s)%nat) as [Hlt|Hge].
    + exfalso.
      pose proof (HpY (2 * (p / 4))%nat) as HY0.
      pose proof (HpY (2 * (p / 4) + 1)%nat) as HY1.
      pose proof (HpC (p / 4)%nat) as HC.
      destruct Tar; try discriminate;
        unfold y_index, cb_index, cr_index in *; lia.
    + rewrite !lookup_ge_None_2; [done|lia|].
      rewrite packed_422_image_length by done. lia.
Qed.

Lemma y41p_y_index m t :
  (t < 8)%nat →
  y_index yuv_Y41P (8 * m + t)
  = (12 * m + (if (t <? 4)%nat then 2 * t + 1 else t + 4))%nat.
Proof.
  intros Ht. unfold y_index.
  replace ((8 * m + t) / 8)%nat with m by lia.
  replace ((8 * m + t) mod 8)%nat with t by lia. done.
Qed.

Lemma y41p_subsampled d in_w in_h ot0 :
  ((in_w * in_h) mod 8 = 0)%nat →
  length ot0 = (in_w * in_h + in_w * in_h / 2)%nat →
  subsampled_ok yuv_Y41P d in_w in_h
    (λ n, mean_over (U_at d) (block_pixels yuv_Y41P in_w n))
    (λ n, mean_over (V_at d) (block_pixels yuv_Y41P in_w n))
    ot0 (y41p_image d (in_w * in_h / 8)).
Proof.
  intros Hev Hot. unfold subsampled_ok.
  change (chroma_count yuv_Y41P in_w in_h) with (in_w * in_h / 4)%nat.
  set (s := (in_w * in_h)%nat) in *. clearbody s.
  assert (Hlook : ∀ m k, (m < s / 8)%nat → (k < 12)%nat →
            y41p_image d (s / 8) !! (12 * m + k)%nat
            = y41p_block d (8 * m) !! k).
  { intros m k Hm Hk. unfold y41p_image.
    by apply (lookup_concat_chunks (λ m, y41p_block d (8 * m)) 12). }
  assert (Hmean : ∀ f n, mean_over f (block_pixels yuv_Y41P in_w n)
                         = Z.shiftr (row_sum f (4 * n) 4) 2).
  { intros f n. destruct (group_mean_4 f n yuv_Y41P) as [E1 E2]; [done|].
    by rewrite E2, <- E1. }
  split; [rewrite y41p_image_length; lia|].
  split; [|split].
  - intros i Hi.
    assert (∃ m t, i = 8 * m + t ∧ t < 8 ∧ m < s / 8)%nat
      as (m & t & -> & Ht & Hm)
      by (exists (i / 8)%nat, (i mod 8)%nat; lia).
    rewrite y41p_y_index by done.
    do 8 (destruct t as [|t]; [simpl; rewrite ?Nat.add_0_r, Hlook by lia;
                                reflexivity|]).
    lia.
  - intros n Hn. rewrite !Hmean.
    assert (∃ m b, n = 2 * m + b ∧ b < 2 ∧ m < s / 8)%nat
      as (m & b & -> & Hb & Hm)
      by (exists (n / 2)%nat, (n mod 2)%nat; lia).
    unfold cb_index, cr_index.
    replace ((2 * m + b) / 2)%nat with m by lia.
    replace ((2 * m + b) mod 2)%nat with b by lia.
    destruct b as [|[|b]]; [| |lia].
    + replace (4 * (2 * m + 0))%nat with (8 * m)%nat by lia.
      replace (12 * m + 4 * 0 + 2)%nat with (12 * m + 2)%nat by lia.
      replace (12 * m + 4 * 0)%nat with (12 * m + 0)%nat by lia.
      rewrite !Hlook by lia. split; reflexivity.
    + replace (4 * (2 * m + 1))%nat with (8 * m + 4)%nat by lia.
      replace (12 * m + 4 * 1 + 2)%nat with (12 * m + 6)%nat by lia.
      replace (12 * m + 4 * 1)%nat with (12 * m + 4)%nat by lia.
      rewrite !Hlook by lia. split; reflexivity.
  - intros p HpY HpC.
    destruct (decide (p < s + s / 2)%nat) as [Hlt|Hge].
    + exfalso.
      assert (∃ m k, p = 12 * m + k ∧ k < 12 ∧ m < s / 8)%nat
        as (m & k & -> & Hk & Hm)
        by (exists (p / 12)%nat, (p mod 12)%nat; lia).
      pose proof (λ t Ht, HpY (8 * m + t)%nat Ht) as HY.
      pose proof (HpC (2 * m)%nat) as HC0.
      pose proof (HpC (2 * m + 1)%nat) as HC1.
      unfold cb_index, cr_index in HC0, HC1.
      replace (2 * m / 2)%nat with m in HC0 by lia.
      replace (2 * m mod 2)%nat with 0%nat in HC0 by lia.
      replace ((2 * m + 1) / 2)%nat with m in HC1 by lia.
      replace ((2 * m + 1) mod 2)%nat with 1%nat in HC1 by lia.
      pose proof (HY 0%nat) as H0. pose proof (HY 1%nat) as H1.
      pose proof (HY 2%nat) as H2. pose proof (HY 3%nat) as H3.
      pose proof (HY 4%nat) as H4. pose proof (HY 5%nat) as H5.
      pose proof (HY 6%nat) as H6. pose proof (HY 7%nat) as H7.
      rewrite y41p_y_index in H0, H1, H2, H3, H4, H5, H6, H7 by lia.
      simpl in H0, H1, H2, H3, H4, H5, H6, H7.
      lia.
    + rewrite !lookup_ge_None_2; [done|lia|].
      rewrite y41p_image_length. lia.
Qed.

Lemma sized_length Tar in_w in_h (ot : list Z) :
  widest_size Tar (Z.of_nat in_w * Z.of_nat in_h) < 2 ^ size_bits →
  calculate_size Tar (Z.of_nat in_w) (Z.of_nat in_h)
  = Some (Z.of_nat (length ot)) →
  Z.of_nat in_w * Z.of_nat in_h < 2 ^ size_bits
  ∧ size_precondition Tar (Z.of_nat (in_w * in_h))
  ∧ Z.of_nat (length ot) = required_bytes Tar (Z.of_nat (in_w * in_h)).
Proof.
  intros Hfit Hsz.
  destruct (calculate_size_inv_exact Tar _ _ _ (Nat2Z.is_nonneg in_w)
              (Nat2Z.is_nonneg in_h) Hfit Hsz) as (_ & Hlt & Hpre & Hlen).
  rewrite Nat2Z.inj_mul. split; [done|done].
Qed.

Lemma on_heap_Some h r out :
  r = Some out → on_heap h r = Some (out, h).
Proof. by intros ->. Qed.

Lemma transform_to_packed {A : AllocT} Tar d in_w in_h ot junk h :
  is_packed_422 Tar = true →
  transform_to Tar d in_w in_h ot junk h
  = on_heap h (transform_to_422 Tar d in_w in_h ot junk).
Proof. by destruct Tar. Qed.

Lemma transform_to_subsampled {A : AllocT} Tar d in_w in_h ot junk h :
  is_subsampled Tar = true →
  aligned Tar in_w in_h →
  widest_size Tar (Z.of_nat in_w * Z.of_nat in_h) < 2 ^ size_bits →
  length d = (in_w * in_h)%nat →
  calculate_size Tar (Z.of_nat in_w) (Z.of_nat in_h)
  = Some (Z.of_nat (length ot)) →
  accumulators_allocated Tar in_w h →
  ∃ out h',
    transform_to Tar d in_w in_h ot junk h = Some (out, h')
    ∧ subsampled_ok Tar d in_w in_h
        (λ n, mean_over (U_at d) (block_pixels Tar in_w n))
        (λ n, mean_over (V_at d) (block_pixels Tar in_w n))
        ot out.
Proof.
  intros HT Hal Hfit Hd Hsz Hacc.
  destruct (sized_length Tar in_w in_h ot Hfit Hsz) as (Hfit' & Hpre & Hlen).
  destruct (is_packed_422 Tar) eqn:Hpk; [|destruct (is_420 Tar) eqn:H420;
    [|destruct (is_410 Tar) eqn:H410]].
  - (* 4:2:2 packed *)
    assert (((in_w * in_h) mod 2 = 0)%nat ∧ length ot = (2 * (in_w * in_h))%nat)
      as [Hev Hot]
      by (destruct Tar; try discriminate; simpl in *; lia).
    eexists _, h. split.
    + rewrite transform_to_packed by done.
      apply on_heap_Some. by apply transform_to_422_spec.
    + by apply packed_subsampled.
  - (* 4:2:0 *)
    assert ((in_w mod 2 = 0)%nat
            ∧ (in_w * in_h + 2 * (in_w * in_h / 4) ≤ length ot)%nat)
      as [Hev Hot]
      by (destruct Tar; try discriminate; simpl in *; lia).
    destruct (transform_to_420_spec Tar d in_w in_h ot junk h)
      as (out & h' & Hrun & Hok); try done.
    exists out, h'. split; [done|].
    apply planes_subsampled; [by apply is_420_planar|].
    replace (chroma_count Tar in_w in_h) with (in_h / 2 * (in_w / 2))%nat
      by (by destruct Tar).
    eapply planes_ok_ext; [|exact Hok].
    intros n _. split; apply block_mean_2x2; by destruct Tar.
  - (* 4:1:0 *)
    assert ((in_w mod 4 = 0)%nat
            ∧ (in_w * in_h + 2 * (in_w * in_h / 16) ≤ length ot)%nat)
      as [Hev Hot]
      by (destruct Tar; try discriminate; simpl in *; lia).
    destruct (transform_to_410_spec Tar d in_w in_h ot junk h)
      as (out & h' & Hrun & Hok); try done.
    exists out, h'. split; [done|].
    apply planes_subsampled; [by apply is_410_planar|].
    replace (chroma_count Tar in_w in_h) with (in_h / 4 * (in_w / 4))%nat
      by (by destruct Tar).
    eapply planes_ok_ext; [|exact Hok].
    intros n _. split; apply block_mean_4x4; by destruct Tar.
  - clear Hacc.
    destruct Tar; try discriminate; simpl in Hal, Hpre, Hlen.
    + (* 4:2:2 planar *)
      destruct (transform_to_422P_spec d in_w in_h ot junk)
        as (out & Hrun & Hok); [done|done|done|lia|].
      exists out, h. split; [by apply on_heap_Some|].
      apply planes_subsampled; [done|].
      eapply planes_ok_ext; [|exact Hok].
      intros n _.
      destruct (group_mean_2 (U_at d) n yuv_422P eq_refl) as [E1 E2].
      destruct (group_mean_2 (V_at d) n yuv_422P eq_refl) as [E3 _].
      by rewrite E2, E1, E3.
    + (* Y41P *)
      eexists _, h. split.
      * apply on_heap_Some. apply transform_to_Y41P_spec; (done || lia).
      * apply y41p_subsampled; [done|lia].
    + (* 4:1:1 planar *)
      destruct (transform_to_411P_spec d in_w in_h ot junk)
        as (out & Hrun & Hok); [done|done|done|lia|].
      exists out, h. split; [by apply on_heap_Some|].
      apply planes_subsampled; [done|].
      eapply planes_ok_ext; [|exact Hok].
      intros n _.
      destruct (group_mean_4 (U_at d) n yuv_411P eq_refl) as [E1 E2].
      destruct (group_mean_4 (V_at d) n yuv_411P eq_refl) as [E3 _].
      by rewrite E2, E1, E3.
Qed.
End unified.

(** ** Solid colours, and rows that do not emit *)

Section solid.
Import detail_transform_.
Local Arguments Nat.mul : simpl never.
Local Arguments Nat.add : simpl never.
Local Arguments Nat.div : simpl never.
Local Arguments Nat.modulo : simpl never.

Lemma div_mod_lt n c x : (n < x * c)%nat → (n / c < x ∧ n mod c < c)%nat.
Proof.
  intros H. assert (0 < c)%nat by nia. split.
  - apply Nat.Div0.div_lt_upper_bound. lia.
  - by apply Nat.mod_upper_bound, Nat.neq_0_lt_0.
Qed.

Lemma block_pixels_in_image Tar in_w in_h n i :
  is_subsampled Tar = true → aligned Tar in_w in_h →
  (n < chroma_count Tar in_w in_h)%nat →
  i ∈ block_pixels Tar in_w n → (i < in_w * in_h)%nat.
Proof.
  intros HT Hal Hn Hi.
  assert (Hblk : ∀ bw bh, (0 < bw)%nat → (in_w mod bw = 0)%nat →
            (n < in_h / bh * (in_w / bw))%nat →
            ∀ t c, (t < bh)%nat → (c < bw)%nat →
              ((bh * (n / (in_w / bw)) + t) * in_w
               + bw * (n mod (in_w / bw)) + c < in_w * in_h)%nat).
  { intros bw bh Hbw Hw Hn' t c Ht Hc.
    destruct (div_mod_lt n (in_w / bw) (in_h / bh) Hn') as [Hr Hk].
    set (r := (n / (in_w / bw))%nat) in *.
    set (k := (n mod (in_w / bw))%nat) in *.
    assert (in_w = bw * (in_w / bw))%nat as Hw'.
    { pose proof (Nat.div_mod_eq in_w bw). lia. }
    set (w' := (in_w / bw)%nat) in *. clearbody r k w'.
    assert (bh * r + t + 1 ≤ in_h)%nat as Hrow.
    { assert (0 < bh)%nat by lia.
      pose proof (Nat.div_mod_eq in_h bh).
      assert (bh * (r + 1) ≤ bh * (in_h / bh))%nat
        by (apply Nat.mul_le_mono_l; lia). lia. }
    assert (bw * k + c < in_w)%nat as Hcol.
    { assert (bw * (k + 1) ≤ bw * w')%nat by (apply Nat.mul_le_mono_l; lia).
      lia. }
    assert ((bh * r + t + 1) * in_w ≤ in_h * in_w)%nat
      by (apply Nat.mul_le_mono_r; lia).
    lia. }
  destruct Tar; try discriminate;
    unfold block_pixels, chroma_count, aligned in *; simpl in Hi;
    repeat (apply elem_of_cons in Hi as [->|Hi]); try (by inversion Hi);
    try lia;
    first [ by apply (Hblk 2 2)%nat; lia
          | by apply (Hblk 4 4)%nat; lia ].
Qed.

Lemma mean_over_const_on f l c :
  (∀ i, i ∈ l → f i = c) → (0 < length l)%nat → mean_over f l = c.
Proof.
  intros Hf Hl. unfold mean_over.
  assert (sum_over f l = c * Z.of_nat (length l)) as ->.
  { clear Hl. induction l as [|i l IH]; simpl; [lia|].
    rewrite Hf by apply list_elem_of_here.
    rewrite IH; [lia|]. intros j Hj. apply Hf. by apply list_elem_of_further. }
  apply Z.div_mul. lia.
Qed.

Lemma pixel_at_replicate s px i :
  (i < s)%nat → pixel_at (replicate s px) i = px.
Proof. intros Hi. unfold pixel_at. by rewrite lookup_replicate_2. Qed.

(** A row of the 4:2:0 writer on which [is_h_even] does not hold never
    moves the chroma cursor: it calls no [set_and_next]. *)
Lemma row_420_odd_cursor d n :
  ∀ j st st', for_ n j (row_420_odd d) st = Some st' →
              cursor_of st' = cursor_of st.
Proof.
  induction n as [|n IH]; intros j st st' H; simpl in H.
  - by injection H as <-.
  - destruct (row_420_odd d j st) as [st1|] eqn:E; [|done]. simpl in H.
    rewrite (IH _ _ _ H). clear H IH.
    destruct st as [[[[[[index p_y] p_uv] u] v] ot] b].
    unfold row_420_odd in E.
    destruct (d !! index); [|done]. simpl in E.
    destruct (store ot p_y _); [|done]. simpl in E.
    destruct b.
    + destruct (cell_add u _ _) as [[? ?]|]; [|done]. simpl in E.
      destruct (cell_add v _ _) as [[? ?]|]; [|done]. simpl in E.
      by injection E as <-.
    + destruct (cell_set u _ _); [|done]. simpl in E.
      destruct (cell_set v _ _); [|done]. simpl in E.
      by injection E as <-.
Qed.

Lemma rows_420_odd_cursor Tar d in_w i st st' :
  rows_420 Tar d in_w i st = Some st' → flag_of st = false →
  cursor_of st' = cursor_of st ∧ flag_of st' = true.
Proof.
  destruct st as [[[[[[index p_y] p_uv] u] v] ot] b]. simpl.
  intros H ->. unfold rows_420 in H.
  destruct (for_ in_w 0 (row_420_odd d) _) as [st1|] eqn:E; [|done].
  apply row_420_odd_cursor in E.
  destruct st1 as [[[[[[index1 p_y1] p_uv1] u1] v1] ot1] b1].
  simpl in *. injection H as <-. by subst.
Qed.
End solid.

(** ** The accumulators along a row *)

Section accumulator_runs.
Import detail_transform_.
Local Arguments Nat.mul : simpl never.
Local Arguments Nat.add : simpl never.
Local Arguments Nat.div : simpl never.
Local Arguments Nat.modulo : simpl never.
Local Arguments Nat.odd : simpl never.
Local Arguments Nat.shiftr : simpl never.
Local Arguments gsum : simpl never.
Local Arguments Y_at : simpl never.
Local Arguments U_at : simpl never.
Local Arguments V_at : simpl never.

(** A row of the 4:2:0 writer on which [is_h_even] does not hold, from
    any state: every cell ends as the sum of its two columns. *)
Lemma row_420_odd_sums d n a p p_uv u v ot :
  (a + 2 * n ≤ length d)%nat → (p + 2 * n ≤ length ot)%nat →
  length u = n → length v = n →
  ∃ u' v' ot' b,
    for_ (2 * n) 0 (row_420_odd d) (a, p, p_uv, u, v, ot, false)
    = Some ((a + 2 * n)%nat, (p + 2 * n)%nat, p_uv, u', v', ot', b)
    ∧ acc_seeded 2 (λ c, U_at d (a + c)) u' n (2 * n)
    ∧ acc_seeded 2 (λ c, V_at d (a + c)) v' n (2 * n)
    ∧ length ot' = length ot.
Proof.
  intros Ha Hp Hu Hv.
  destruct (for_inv
    (λ j st, ∃ u v ot',
       st = ((a + j)%nat, (p + j)%nat, p_uv, u, v, ot', Nat.odd j)
       ∧ acc_seeded 2 (λ c, U_at d (a + c)) u n j
       ∧ acc_seeded 2 (λ c, V_at d (a + c)) v n j
       ∧ length ot' = length ot)
    (row_420_odd d) (2 * n) 0 (a, p, p_uv, u, v, ot, false))
    as (st' & Hrun & (u' & v' & ot' & -> & HU & HV & Hlen)).
  - exists u, v, ot. rewrite !Nat.add_0_r.
    split; [done|]. split; [|split; [|done]]; (split; [done|]); intros k Hk; lia.
  - clear u v Hu Hv.
    intros j st Hj (u & v & ot1 & -> & HU & HV & Hlen).
    unfold row_420_odd.
    rewrite (pixel_at_lookup d (a + j)) by lia. simpl.
    fold (Y_at d (a + j)) (U_at d (a + j)) (V_at d (a + j)).
    rewrite store_Some by lia. simpl. rewrite shiftr_1.
    destruct (Nat.odd j) eqn:Hodd.
    + destruct (cell_add_seeded 2 (λ c, U_at d (a + c)) u n j)
        as (u' & Hu' & HU'); [lia|lia|by apply odd_true_mod
                             |intros; apply U_at_range|done|].
      destruct (cell_add_seeded 2 (λ c, V_at d (a + c)) v n j)
        as (v' & Hv' & HV'); [lia|lia|by apply odd_true_mod
                             |intros; apply V_at_range|done|].
      simpl in Hu', Hv'. rewrite Hu'. simpl.
      rewrite Hv'. simpl.
      eexists. split; [done|]. exists u', v'. eexists.
      rewrite odd_S, Hodd. replace (a + S j)%nat with (S (a + j)) by lia.
      replace (p + S j)%nat with (S (p + j)) by lia.
      split; [done|]. split; [done|]. split; [done|].
      by rewrite length_insert.
    + destruct (cell_set_seeded 2 (λ c, U_at d (a + c)) u n j)
        as (u' & Hu' & HU'); [lia|lia|by apply odd_false_mod
                             |apply U_at_range|done|].
      destruct (cell_set_seeded 2 (λ c, V_at d (a + c)) v n j)
        as (v' & Hv' & HV'); [lia|lia|by apply odd_false_mod
                             |apply V_at_range|done|].
      simpl in Hu', Hv'. rewrite Hu'. simpl.
      rewrite Hv'. simpl.
      eexists. split; [done|]. exists u', v'. eexists.
      rewrite odd_S, Hodd. replace (a + S j)%nat with (S (a + j)) by lia.
      replace (p + S j)%nat with (S (p + j)) by lia.
      split; [done|]. split; [done|]. split; [done|].
      by rewrite length_insert.
  - exists u', v', ot', (Nat.odd (0 + 2 * n)).
    rewrite Hrun. replace (a + (0 + 2 * n))%nat with (a + 2 * n)%nat by lia.
    replace (p + (0 + 2 * n))%nat with (p + 2 * n)%nat by lia.
    done.
Qed.

(** The first row of a quadruple of the 4:1:0 writer, from any state:
    every cell ends as the sum of its four columns. *)
Lemma row_410_first_sums d n a p p_uv u v ot :
  (a + 4 * n ≤ length d)%nat → (p + 4 * n ≤ length ot)%nat →
  length u = n → length v = n →
  ∃ u' v' ot' b,
    for_ (4 * n) 0 (row_410_first d) (a, p, p_uv, u, v, ot, 1)
    = Some ((a + 4 * n)%nat, (p + 4 * n)%nat, p_uv, u', v', ot', b)
    ∧ acc_seeded 4 (λ c, U_at d (a + c)) u' n (4 * n)
    ∧ acc_seeded 4 (λ c, V_at d (a + c)) v' n (4 * n)
    ∧ length ot' = length ot.
Proof.
  intros Ha Hp Hu Hv.
  destruct (for_inv
    (λ j st, ∃ u v ot',
       st = ((a + j)%nat, (p + j)%nat, p_uv, u, v, ot',
             Z.of_nat (j mod 4) + 1)
       ∧ acc_seeded 4 (λ c, U_at d (a + c)) u n j
       ∧ acc_seeded 4 (λ c, V_at d (a + c)) v n j
       ∧ length ot' = length ot)
    (row_410_first d) (4 * n) 0 (a, p, p_uv, u, v, ot, 1))
    as (st' & Hrun & (u' & v' & ot' & -> & HU & HV & Hlen)).
  - exists u, v, ot. rewrite !Nat.add_0_r.
    split; [done|]. split; [|split; [|done]]; (split; [done|]); intros k Hk; lia.
  - clear u v Hu Hv.
    intros j st Hj (u & v & ot1 & -> & HU & HV & Hlen).
    unfold row_410_first.
    rewrite (pixel_at_lookup d (a + j)) by lia. simpl.
    fold (Y_at d (a + j)) (U_at d (a + j)) (V_at d (a + j)).
    rewrite store_Some by lia. simpl.
    rewrite shiftr_2, w_flag_is_1, w_flag_is_4.
    case_bool_decide as E1.
    + destruct (cell_set_seeded 4 (λ c, U_at d (a + c)) u n j)
        as (u' & Hu' & HU'); [lia|lia|done|apply U_at_range|done|].
      destruct (cell_set_seeded 4 (λ c, V_at d (a + c)) v n j)
        as (v' & Hv' & HV'); [lia|lia|done|apply V_at_range|done|].
      simpl in Hu', Hv'. rewrite Hu'. simpl. rewrite Hv'. simpl.
      eexists. split; [done|]. exists u', v'. eexists.
      rewrite w_flag_next by lia.
      replace (a + S j)%nat with (S (a + j)) by lia.
      replace (p + S j)%nat with (S (p + j)) by lia.
      split; [done|]. split; [done|]. split; [done|].
      by rewrite length_insert.
    + destruct (cell_add_seeded 4 (λ c, U_at d (a + c)) u n j)
        as (u' & Hu' & HU'); [lia|lia|done|intros; apply U_at_range|done|].
      destruct (cell_add_seeded 4 (λ c, V_at d (a + c)) v n j)
        as (v' & Hv' & HV'); [lia|lia|done|intros; apply V_at_range|done|].
      simpl in Hu', Hv'. rewrite Hu'. simpl. rewrite Hv'. simpl.
      eexists. split; [done|]. exists u', v'. eexists.
      replace (a + S j)%nat with (S (a + j)) by lia.
      replace (p + S j)%nat with (S (p + j)) by lia.
      split; [|split; [done|split; [done|by rewrite length_insert]]].
      case_bool_decide as E4.
      * rewrite (w_flag_wrap j) by done. done.
      * rewrite w_flag_next by done. done.
  - exists u', v', ot'. eexists.
    rewrite Hrun. replace (a + (0 + 4 * n))%nat with (a + 4 * n)%nat by lia.
    replace (p + (0 + 4 * n))%nat with (p + 4 * n)%nat by lia.
    done.
Qed.

(** The second and third row of a quadruple, from any state whose cells
    hold at most [Amax ≤ 3060]: every cell grows by the sum of its four
    columns, and nothing is reduced. *)
Lemma row_410_middle_sums d n a p p_uv u v ot AU AV Amax :
  (a + 4 * n ≤ length d)%nat → (p + 4 * n ≤ length ot)%nat →
  acc_added 4 AU (λ c, U_at d (a + c)) u n 0 →
  acc_added 4 AV (λ c, V_at d (a + c)) v n 0 →
  (∀ k, 0 ≤ AU k ≤ Amax) → (∀ k, 0 ≤ AV k ≤ Amax) → Amax ≤ 3060 →
  ∃ u' v' ot' b,
    for_ (4 * n) 0 (row_410_middle d) (a, p, p_uv, u, v, ot, 1)
    = Some ((a + 4 * n)%nat, (p + 4 * n)%nat, p_uv, u', v', ot', b)
    ∧ acc_added 4 AU (λ c, U_at d (a + c)) u' n (4 * n)
    ∧ acc_added 4 AV (λ c, V_at d (a + c)) v' n (4 * n)
    ∧ length ot' = length ot.
Proof.
  intros Ha Hp HU0 HV0 HAU HAV Hmax.
  destruct (for_inv
    (λ j st, ∃ u v ot',
       st = ((a + j)%nat, (p + j)%nat, p_uv, u, v, ot', 1)
       ∧ acc_added 4 AU (λ c, U_at d (a + c)) u n j
       ∧ acc_added 4 AV (λ c, V_at d (a + c)) v n j
       ∧ length ot' = length ot)
    (row_410_middle d) (4 * n) 0 (a, p, p_uv, u, v, ot, 1))
    as (st' & Hrun & (u' & v' & ot' & -> & HU & HV & Hlen)).
  - exists u, v, ot. rewrite !Nat.add_0_r. done.
  - clear u v HU0 HV0.
    intros j st Hj (u & v & ot1 & -> & HU & HV & Hlen).
    unfold row_410_middle.
    rewrite (pixel_at_lookup d (a + j)) by lia. simpl.
    fold (Y_at d (a + j)) (U_at d (a + j)) (V_at d (a + j)).
    rewrite store_Some by lia. simpl. rewrite shiftr_2.
    destruct (cell_add_added 4 AU (λ c, U_at d (a + c)) u n j Amax)
      as (u' & Hu' & HU'); [lia|lia|intros; apply U_at_range|done|lia|done|].
    destruct (cell_add_added 4 AV (λ c, V_at d (a + c)) v n j Amax)
      as (v' & Hv' & HV'); [lia|lia|intros; apply V_at_range|done|lia|done|].
    simpl in Hu', Hv'. rewrite Hu'. simpl. rewrite Hv'. simpl.
    eexists. split; [done|]. exists u', v'. eexists.
    replace (a + S j)%nat with (S (a + j)) by lia.
    replace (p + S j)%nat with (S (p + j)) by lia.
    split; [done|]. split; [done|]. split; [done|].
    by rewrite length_insert.
  - exists u', v', ot'. eexists.
    rewrite Hrun. replace (a + (0 + 4 * n))%nat with (a + 4 * n)%nat by lia.
    replace (p + (0 + 4 * n))%nat with (p + 4 * n)%nat by lia.
    done.
Qed.

(** One pixel pair of the packed 4:2:2 writer, from any state: the two
    accumulators end as the sums of the pair. *)
Lemma packed_422_body_sums Tar L d i p u_k v_k ot :
  yuv_t_of Tar = Some L →
  (i + 2 ≤ length d)%nat → (p + 4 ≤ length ot)%nat →
  ∃ ot',
    packed_422_body L d (i, p, u_k, v_k, ot)
    = Some (S (S i), (p + 4)%nat, U_at d i + U_at d (S i),
            V_at d i + V_at d (S i), ot')
    ∧ length ot' = length ot.
Proof.
  intros HL Hd Hot. unfold packed_422_body.
  rewrite (pixel_at_lookup d i), (pixel_at_lookup d (S i)) by lia.
  cbn [mbind option_bind].
  fold (Y_at d i) (U_at d i) (V_at d i) (Y_at d (S i)) (U_at d (S i))
    (V_at d (S i)).
  pose proof (U_at_range d i) as HU0. pose proof (U_at_range d (S i)) as HU1.
  pose proof (V_at_range d i) as HV0. pose proof (V_at_range d (S i)) as HV1.
  unfold is_uint8 in *.
  rewrite (to_uint16_small (U_at d i)), (to_uint16_small (V_at d i))
    by (unfold is_uint16; lia).
  rewrite (to_uint16_small (U_at d i + U_at d (S i))),
    (to_uint16_small (V_at d i + V_at d (S i))) by (unfold is_uint16; lia).
  destruct Tar; try discriminate; simpl in HL; injection HL as <-;
    cbn [y0_ y1_ cb_ cr_];
    repeat (rewrite store_Some by (rewrite ?length_insert; lia);
            cbn [mbind option_bind]);
    (eexists; split; [reflexivity|]; by rewrite !length_insert).
Qed.

Lemma transform_to_420_heap {A : AllocT} Tar d in_w in_h ot junk h out h' :
  transform_to_420 Tar d in_w in_h ot junk h = Some (out, h') →
  let u_tmp := scope_block.new (T:=elem_uint16_t)
                 (Z.of_nat (Nat.shiftr in_w 1)) h in
  let v_tmp := scope_block.new (T:=elem_uint16_t)
                 (Z.of_nat (Nat.shiftr in_w 1)) u_tmp.2 in
  h' = scope_block.destroy u_tmp.1 (scope_block.destroy v_tmp.1 v_tmp.2).
Proof.
  unfold transform_to_420, new_cells.
  destruct (enable_if _); [|done]. cbn [mbind option_bind].
  destruct (split _ _ _ _); [|done]. cbn [mbind option_bind].
  destruct (fill _ _ _); [|done]. cbn [mbind option_bind].
  destruct (scope_block.new _ h) as [u_blk h1]. cbn [fst snd].
  destruct (scope_block.new _ h1) as [v_blk h2].
  destruct (for_ _ _ _ _) as [[[[[[[? ?] ?] ?] ?] ?] ?]|]; [|done].
  cbn [mbind option_bind]. intros E. by injection E as <- <-.
Qed.

Lemma transform_to_410_heap {A : AllocT} Tar d in_w in_h ot junk h out h' :
  transform_to_410 Tar d in_w in_h ot junk h = Some (out, h') →
  let u_tmp := scope_block.new (T:=elem_uint16_t)
                 (Z.of_nat (Nat.shiftr in_w 2)) h in
  let v_tmp := scope_block.new (T:=elem_uint16_t)
                 (Z.of_nat (Nat.shiftr in_w 2)) u_tmp.2 in
  h' = scope_block.destroy u_tmp.1 (scope_block.destroy v_tmp.1 v_tmp.2).
Proof.
  unfold transform_to_410, new_cells.
  destruct (enable_if _); [|done]. cbn [mbind option_bind].
  destruct (split _ _ _ _); [|done]. cbn [mbind option_bind].
  destruct (fill _ _ _); [|done]. cbn [mbind option_bind].
  destruct (scope_block.new _ h) as [u_blk h1]. cbn [fst snd].
  destruct (scope_block.new _ h1) as [v_blk h2].
  destruct (for_ _ _ _ _) as [[[[[[[? ?] ?] ?] ?] ?] ?]|]; [|done].
  cbn [mbind option_bind]. intros E. by injection E as <- <-.
Qed.
End accumulator_runs.

(** ** The writers: the claims *)

Section writer_claims.
Local Arguments Nat.mul : simpl never.
Local Arguments Nat.add : simpl never.
Local Arguments Nat.div : simpl never.
Local Arguments Nat.modulo : simpl never.
Local Arguments Nat.shiftr : simpl never.
Local Arguments Z.add : simpl never.
Local Arguments Z.mul : simpl never.
Local Arguments Z.div : simpl never.
Local Arguments Z.of_nat : simpl never.
Local Arguments Z.shiftr : simpl never.
Local Arguments Y_at : simpl never.
Local Arguments U_at : simpl never.
Local Arguments V_at : simpl never.

(** C4.  For every 4:2:2 packed target (YUY2, YVYU, UYVY, VYUY) and every
    image of even pixel count, with a destination of two bytes per pixel,
    the writer succeeds and the destination becomes the concatenation of
    one 4-byte group per consecutive pixel pair: the two Y bytes are the
    per-pixel Y conversions of the two pixels, the shared chroma bytes are
    (U0+U1)>>1 and (V0+V1)>>1 of the two pixels' converted chroma, and the
    byte order in the group is the one of the tag ([packed_group]).  The
    writer allocates nothing: whatever the allocator and the heap, the
    heap is left as it was. *)
Theorem C4_packed_422_groups (A : AllocT) (Tar : supported)
    (in_data : list rgb_t.t) (in_w in_h : nat) (ot_data : list Z)
    (junk : detail_transform_.indeterminate) (h : heap) :
  is_packed_422 Tar = true →
  Z.of_nat in_w * Z.of_nat in_h < 2 ^ size_bits →
  length in_data = (in_w * in_h)%nat →
  ((in_w * in_h) mod 2 = 0)%nat →
  length ot_data = (2 * (in_w * in_h))%nat →
  detail_transform_.transform_to Tar in_data in_w in_h ot_data junk h
  = Some (concat ((λ n,
            packed_group Tar
              (pixel_convert plane_Y (pixel_at in_data (2 * n)))
              (Z.shiftr (pixel_convert plane_U (pixel_at in_data (2 * n))
                         + pixel_convert plane_U (pixel_at in_data (2 * n + 1)))
                 1)
              (pixel_convert plane_Y (pixel_at in_data (2 * n + 1)))
              (Z.shiftr (pixel_convert plane_V (pixel_at in_data (2 * n))
                         + pixel_convert plane_V (pixel_at in_data (2 * n + 1)))
                 1))
          <$> seq 0 (in_w * in_h / 2)), h).
Proof.
  intros HT Hfit Hd Hev Hot.
  rewrite transform_to_packed by done. apply on_heap_Some.
  by apply transform_to_422_spec.
Qed.

Lemma C4_packed_422_groups_witness :
  detail_transform_.transform_to (A := allocator bump_new unmapping_delete)
    yuv_YUY2 [px_red; px_green] 2 1 [0; 0; 0; 0] junk_cd ∅
  = Some ([82; 72; 144; 137], ∅).
Proof.
  refine (eq_trans (C4_packed_422_groups (allocator bump_new unmapping_delete)
                      yuv_YUY2 [px_red; px_green] 2 1 [0; 0; 0; 0]
                      junk_cd ∅ eq_refl _ eq_refl eq_refl eq_refl) _).
  - reflexivity.
  - vm_compute. reflexivity.
Defined.

(** C2, as stated, fails twice.  A 3×4 image passes the size check of
    YU12 (12 pixels, 18 bytes) and the allocator delivers both
    accumulators, but the third pixel of the first row indexes cell 1 of
    the one-cell arrays: the writer has no defined result, so no output
    with one Y byte per pixel.  And on a 2×2 image, when the allocator
    has no memory left, the first pixel is stored through the null
    pointer the writer never tests. *)
Lemma C2_odd_width_or_no_memory :
  (let A := allocator bump_new unmapping_delete in
   size_precondition yuv_YU12 (3 * 4)
   ∧ calculate_size yuv_YU12 3 4 = Some 18
   ∧ accumulators_allocated yuv_YU12 3 ∅
   ∧ detail_transform_.transform_to yuv_YU12 (replicate 12 px_red) 3 4
       (replicate 18 0) junk_cd ∅ = None
   ∧ ¬ ∃ out h',
         detail_transform_.transform_to yuv_YU12 (replicate 12 px_red) 3 4
           (replicate 18 0) junk_cd ∅ = Some (out, h')
         ∧ ∀ i, (i < 3 * 4)%nat →
             out !! i = Some (pixel_convert plane_Y px_red))
  ∧ (let A := allocator exhausted_new silent_delete in
     calculate_size yuv_YU12 2 2 = Some 6
     ∧ detail_transform_.transform_to yuv_YU12 (replicate 4 px_red) 2 2
         (replicate 6 0) junk_cd ∅ = None).
Proof.
  split.
  - intros A. split; [reflexivity|]. split; [reflexivity|].
    split; [right; vm_compute; split; intros H; discriminate H|].
    assert (detail_transform_.transform_to yuv_YU12 (replicate 12 px_red) 3 4
              (replicate 18 0) junk_cd ∅ = None) as Hrun
      by (vm_compute; reflexivity).
    split; [exact Hrun|].
    intros (out & h' & Hout & _). rewrite Hrun in Hout. discriminate.
  - intros A. split; [reflexivity|]. vm_compute. reflexivity.
Qed.

(** C2 (amended).  For the 4:2:0 targets (YV12, YU12, NV12, NV21), an
    image of even width, a destination of the size [calculate_size] gives
    and two accumulator arrays that the allocator delivers: the writer
    returns; the destination holds one Y byte per pixel in row-major
    order; the chroma pair of the 2×2 block in block row [r] and block
    column [k] is the sum of the four per-pixel converted U (resp. V)
    values of that block shifted right by 2, at the position the tag gives
    to pair number [r·(width/2) + k]; the heap left is the one in which
    two arrays of [width >> 1] cells of [uint16_t] were allocated and
    freed; on a row on which [is_h_even] does not hold (the first row of a
    pair), from any state of the loop, the cell [column >> 1] of each
    array ends as the sum of the chroma of the two pixels of that column
    pair; and such a row leaves the chroma cursor where it was, so pairs
    are emitted on the second row of each pair only. *)
Theorem C2_420_block_average (A : AllocT) (Tar : supported)
    (in_data : list rgb_t.t) (in_w in_h : nat) (ot_data : list Z)
    (junk : detail_transform_.indeterminate) (h : heap) :
  is_420 Tar = true →
  (in_w mod 2 = 0)%nat →
  widest_size Tar (Z.of_nat in_w * Z.of_nat in_h) < 2 ^ size_bits →
  length in_data = (in_w * in_h)%nat →
  calculate_size Tar (Z.of_nat in_w) (Z.of_nat in_h)
  = Some (Z.of_nat (length ot_data)) →
  accumulators_allocated Tar in_w h →
  ∃ out h',
    detail_transform_.transform_to Tar in_data in_w in_h ot_data junk h
    = Some (out, h')
    ∧ length out = length ot_data
    ∧ (∀ i, (i < in_w * in_h)%nat →
         out !! i = Some (pixel_convert plane_Y (pixel_at in_data i)))
    ∧ (∀ r k, (r < in_h / 2)%nat → (k < in_w / 2)%nat →
         let n := (r * (in_w / 2) + k)%nat in
         let tl := (2 * r * in_w + 2 * k)%nat in
         out !! cb_pos Tar (in_w * in_h) n
         = Some (Z.shiftr (U_at in_data tl + U_at in_data (tl + 1)
                           + U_at in_data (tl + in_w)
                           + U_at in_data (tl + in_w + 1)) 2)
         ∧ out !! cr_pos Tar (in_w * in_h) n
           = Some (Z.shiftr (V_at in_data tl + V_at in_data (tl + 1)
                             + V_at in_data (tl + in_w)
                             + V_at in_data (tl + in_w + 1)) 2))
    ∧ (let u_tmp := scope_block.new (T:=elem_uint16_t)
                      (Z.of_nat (Nat.shiftr in_w 1)) h in
       let v_tmp := scope_block.new (T:=elem_uint16_t)
                      (Z.of_nat (Nat.shiftr in_w 1)) u_tmp.2 in
       h' = scope_block.destroy u_tmp.1
              (scope_block.destroy v_tmp.1 v_tmp.2))
    ∧ (∀ a p p_uv u_tmp v_tmp ot,
         (a + in_w ≤ length in_data)%nat → (p + in_w ≤ length ot)%nat →
         length u_tmp = Nat.shiftr in_w 1 → length v_tmp = Nat.shiftr in_w 1 →
         ∃ u_tmp' v_tmp' ot' b,
           for_ in_w 0 (detail_transform_.row_420_odd in_data)
             (a, p, p_uv, u_tmp, v_tmp, ot, false)
           = Some ((a + in_w)%nat, (p + in_w)%nat, p_uv, u_tmp', v_tmp', ot', b)
           ∧ ∀ column, (column < in_w)%nat →
               let c0 := (a + 2 * (column / 2))%nat in
               u_tmp' !! Nat.shiftr column 1
               = Some (U_at in_data c0 + U_at in_data (c0 + 1))
               ∧ v_tmp' !! Nat.shiftr column 1
                 = Some (V_at in_data c0 + V_at in_data (c0 + 1)))
    ∧ (∀ i st st',
         detail_transform_.rows_420 Tar in_data in_w i st = Some st' →
         flag_of st = false →
         cursor_of st' = cursor_of st ∧ flag_of st' = true).
Proof.
  intros HT Hw Hfit Hd Hsz Hacc.
  destruct (sized_length Tar in_w in_h ot_data Hfit Hsz) as (Hfit' & Hpre & Hlen).
  assert (in_w * in_h + 2 * (in_w * in_h / 4) ≤ length ot_data)%nat as Hot
    by (destruct Tar; try discriminate; simpl in *; lia).
  destruct (transform_to_420_spec Tar in_data in_w in_h ot_data junk h
              HT Hw Hfit' Hd Hot Hacc) as (out & h' & Hrun & Hlo & HY & HC & _).
  exists out, h'. split; [done|]. split; [done|]. split; [exact HY|].
  split; [|split; [|split]].
  - intros r k Hr Hk n tl.
    assert (n < in_h / 2 * (in_w / 2))%nat as Hn by (unfold n; nia).
    destruct (HC n Hn) as [-> ->].
    assert (in_w = 2 * (in_w / 2))%nat as Hw2 by lia.
    unfold n, tl. clear n tl Hn.
    set (w2 := (in_w / 2)%nat) in *. clearbody w2. subst in_w.
    rewrite !block_mean_420 by done.
    split; do 2 f_equal; repeat (f_equal; try lia).
  - apply (transform_to_420_heap Tar in_data in_w in_h ot_data junk h out).
    rewrite <- Hrun. by destruct Tar.
  - intros a p p_uv u_tmp v_tmp ot Ha Hp Hu Hv.
    rewrite shiftr_1 in Hu, Hv.
    assert (in_w = 2 * (in_w / 2))%nat as Hw2 by lia.
    set (n := (in_w / 2)%nat) in *. clearbody n. subst in_w.
    destruct (row_420_odd_sums in_data n a p p_uv u_tmp v_tmp ot Ha Hp Hu Hv)
      as (u' & v' & ot' & b & Hrow & [_ HU] & [_ HV] & _).
    exists u', v', ot', b. split; [exact Hrow|].
    intros column Hc c0. rewrite shiftr_1.
    assert (2 * (column / 2) < 2 * n)%nat as Hk by lia.
    rewrite (HU _ Hk), (HV _ Hk), !gsum_full_2 by lia.
    unfold c0. split; do 2 f_equal; f_equal; lia.
  - intros i st st'. apply rows_420_odd_cursor.
Qed.

Lemma C2_420_block_average_witness :
  ∃ out h',
    detail_transform_.transform_to (A := allocator bump_new unmapping_delete)
      yuv_YU12 [px_red; px_green; px_blue; px_red] 2 2
      [0; 0; 0; 0; 0; 0] junk_cd ∅ = Some (out, h')
    ∧ out !! 4%nat = Some (Z.shiftr (90 + 54 + 240 + 90) 2)
    ∧ out !! 5%nat = Some (Z.shiftr (240 + 34 + 110 + 240) 2).
Proof.
  destruct (C2_420_block_average (allocator bump_new unmapping_delete)
              yuv_YU12 [px_red; px_green; px_blue; px_red] 2 2
              [0; 0; 0; 0; 0; 0] junk_cd ∅ eq_refl eq_refl)
    as (out & h' & Hrun & _ & _ & HC & _);
    [reflexivity|reflexivity|reflexivity
    |right; vm_compute; split; intros H; discriminate H|].
  exists out, h'. split; [exact Hrun|].
  exact (HC 0%nat 0%nat (le_n 1) (le_n 1)).
Defined.

(** C10, as stated, fails where the writer has no defined result, and
    then no emitted byte: a 6×8 image passes the size check of YUV9 (48
    pixels, 54 bytes) and the allocator delivers both accumulators, but
    the fifth pixel of the first row indexes cell 1 of the one-cell
    arrays; and on a 4×4 image, when the allocator has no memory left,
    the first pixel is stored through a null pointer. *)
Lemma C10_misaligned_or_no_memory :
  (let A := allocator bump_new unmapping_delete in
   is_subsampled yuv_YUV9 = true
   ∧ calculate_size yuv_YUV9 6 8 = Some 54
   ∧ accumulators_allocated yuv_YUV9 6 ∅
   ∧ detail_transform_.transform_to yuv_YUV9 (replicate 48 px_red) 6 8
       (replicate 54 0) junk_cd ∅ = None
   ∧ ¬ ∃ out h',
         detail_transform_.transform_to yuv_YUV9 (replicate 48 px_red) 6 8
           (replicate 54 0) junk_cd ∅ = Some (out, h')
         ∧ ∀ n, (n < chroma_count yuv_YUV9 6 8)%nat →
             out !! cb_index yuv_YUV9 48 n
             = Some (mean_over (U_at (replicate 48 px_red))
                       (block_pixels yuv_YUV9 6 n)))
  ∧ (let A := allocator exhausted_new silent_delete in
     calculate_size yuv_YUV9 4 4 = Some 18
     ∧ detail_transform_.transform_to yuv_YUV9 (replicate 16 px_red) 4 4
         (replicate 18 0) junk_cd ∅ = None).
Proof.
  split.
  - intros A. split; [reflexivity|]. split; [reflexivity|].
    split; [right; vm_compute; split; intros H; discriminate H|].
    assert (detail_transform_.transform_to yuv_YUV9 (replicate 48 px_red) 6 8
              (replicate 54 0) junk_cd ∅ = None) as Hrun
      by (vm_compute; reflexivity).
    split; [exact Hrun|].
    intros (out & h' & Hout & _). rewrite Hrun in Hout. discriminate.
  - intros A. split; [reflexivity|]. vm_compute. reflexivity.
Qed.

(** C10 (amended).  In every subsampled writer, on dimensions that fit
    the writer's blocks (a size [calculate_size] accepts, a width that is
    a multiple of the block width for 4:2:0 and 4:1:0) and with
    accumulator arrays that the allocator delivers, the 16-bit
    accumulators never wrap.  The writer returns, the block of every
    emitted chroma pair has at most 16 pixels, the sum of the per-pixel
    converted chroma over it is at most 4080, and the byte the writer
    emits is the exact floor of the arithmetic mean of the block.  In the
    run itself: an assignment or addition to a [uint16_t] accumulator
    that holds at most 3825 stores the exact sum; one pixel pair of the
    packed 4:2:2 loop leaves the exact sums of the pair in [u_k] and
    [v_k]; and in the 4:1:0 writer, from any state of the loop, the first
    row of a quadruple leaves in every cell the exact sum of its four
    columns, and a further row on cells that hold at most 3060 adds the
    exact sum of four more to every cell. *)
Theorem C10_accumulators_never_wrap (A : AllocT) (Tar : supported)
    (in_data : list rgb_t.t) (in_w in_h : nat) (ot_data : list Z)
    (junk : detail_transform_.indeterminate) (h : heap) :
  is_subsampled Tar = true →
  aligned Tar in_w in_h →
  widest_size Tar (Z.of_nat in_w * Z.of_nat in_h) < 2 ^ size_bits →
  length in_data = (in_w * in_h)%nat →
  calculate_size Tar (Z.of_nat in_w) (Z.of_nat in_h)
  = Some (Z.of_nat (length ot_data)) →
  accumulators_allocated Tar in_w h →
  (∃ out h',
     detail_transform_.transform_to Tar in_data in_w in_h ot_data junk h
     = Some (out, h')
     ∧ ∀ n, (n < chroma_count Tar in_w in_h)%nat →
         let blk := block_pixels Tar in_w n in
         let su := sum_over (U_at in_data) blk in
         let sv := sum_over (V_at in_data) blk in
         (0 < length blk ≤ 16)%nat
         ∧ 0 ≤ su ≤ 4080 ∧ 0 ≤ sv ≤ 4080
         ∧ out !! cb_index Tar (in_w * in_h) n
           = Some (su / Z.of_nat (length blk))
         ∧ out !! cr_index Tar (in_w * in_h) n
           = Some (sv / Z.of_nat (length blk)))
  ∧ (∀ acc v, 0 ≤ acc ≤ 3825 → is_uint8 v →
       detail_transform_.apply_op detail_transform_.op_set acc v = v
       ∧ detail_transform_.apply_op detail_transform_.op_add acc v = acc + v
       ∧ ∀ tmp k, tmp !! k = Some acc →
           detail_transform_.cell_add tmp k v
           = Some (<[k := acc + v]> tmp, acc + v))
  ∧ (∀ L i p u_k v_k ot,
       detail_transform_.yuv_t_of Tar = Some L →
       (i + 2 ≤ length in_data)%nat → (p + 4 ≤ length ot)%nat →
       ∃ ot',
         detail_transform_.packed_422_body L in_data (i, p, u_k, v_k, ot)
         = Some (S (S i), (p + 4)%nat,
                 U_at in_data i + U_at in_data (S i),
                 V_at in_data i + V_at in_data (S i), ot'))
  ∧ (is_410 Tar = true →
     ∀ a p p_uv u_tmp v_tmp ot,
       (a + in_w ≤ length in_data)%nat → (p + in_w ≤ length ot)%nat →
       length u_tmp = Nat.shiftr in_w 2 → length v_tmp = Nat.shiftr in_w 2 →
       (∃ u_tmp' v_tmp' ot' b,
          for_ in_w 0 (detail_transform_.row_410_first in_data)
            (a, p, p_uv, u_tmp, v_tmp, ot, 1)
          = Some ((a + in_w)%nat, (p + in_w)%nat, p_uv, u_tmp', v_tmp', ot', b)
          ∧ ∀ k, (k < Nat.shiftr in_w 2)%nat →
              u_tmp' !! k = Some (row_sum (U_at in_data) (a + 4 * k) 4)
              ∧ v_tmp' !! k = Some (row_sum (V_at in_data) (a + 4 * k) 4))
       ∧ ((∀ k x, u_tmp !! k = Some x → 0 ≤ x ≤ 3060) →
          (∀ k x, v_tmp !! k = Some x → 0 ≤ x ≤ 3060) →
          ∃ u_tmp' v_tmp' ot' b,
            for_ in_w 0 (detail_transform_.row_410_middle in_data)
              (a, p, p_uv, u_tmp, v_tmp, ot, 1)
            = Some ((a + in_w)%nat, (p + in_w)%nat, p_uv, u_tmp', v_tmp', ot', b)
            ∧ ∀ k x y, u_tmp !! k = Some x → v_tmp !! k = Some y →
                u_tmp' !! k = Some (x + row_sum (U_at in_data) (a + 4 * k) 4)
                ∧ v_tmp' !! k
                  = Some (y + row_sum (V_at in_data) (a + 4 * k) 4))).
Proof.
  intros HT Hal Hfit Hd Hsz Hacc.
  split; [|split; [|split]].
  - destruct (transform_to_subsampled Tar in_data in_w in_h ot_data junk h
                HT Hal Hfit Hd Hsz Hacc) as (out & h' & Hrun & _ & _ & HC & _).
    exists out, h'. split; [done|]. intros n Hn blk su sv.
    destruct (block_pixels_length Tar in_w n HT) as (_ & Hle & Hpos).
    fold blk in Hle, Hpos.
    pose proof (sum_over_bound (U_at in_data) blk (U_at_range in_data)) as Hu.
    pose proof (sum_over_bound (V_at in_data) blk (V_at_range in_data)) as Hv.
    fold su in Hu. fold sv in Hv.
    assert (0 ≤ su ≤ 4080 ∧ 0 ≤ sv ≤ 4080) as [Hu' Hv'] by lia.
    split; [lia|]. split; [done|]. split; [done|].
    exact (HC n Hn).
  - intros acc v Hacc' Hv. unfold is_uint8 in Hv.
    unfold detail_transform_.apply_op, detail_transform_.cell_add.
    rewrite (to_uint16_small v), (to_uint16_small (acc + v))
      by (unfold is_uint16; lia).
    split; [done|]. split; [done|].
    intros tmp k Hk. rewrite Hk. cbn [mbind option_bind].
    by rewrite (to_uint16_small (acc + v)) by (unfold is_uint16; lia).
  - intros L i p u_k v_k ot HL Hi Hp.
    destruct (packed_422_body_sums Tar L in_data i p u_k v_k ot HL Hi Hp)
      as (ot' & Hrun & _).
    by exists ot'.
  - intros H410 a p p_uv u_tmp v_tmp ot Ha Hp Hu Hv.
    rewrite shiftr_2 in *.
    assert (in_w mod 4 = 0)%nat as Hw4
      by (destruct Tar; try discriminate; exact Hal).
    assert (in_w = 4 * (in_w / 4))%nat as Hw by lia.
    set (n := (in_w / 4)%nat) in *. clearbody n. subst in_w.
    split.
    + destruct (row_410_first_sums in_data n a p p_uv u_tmp v_tmp ot
                  Ha Hp Hu Hv)
        as (u' & v' & ot' & b & Hrow & [_ HU] & [_ HV] & _).
      exists u', v', ot', b. split; [exact Hrow|].
      intros k Hk.
      rewrite (HU k), (HV k), !gsum_row_sum_4 by lia. done.
    + intros HbU HbV.
      set (AU := λ k, default 0 (u_tmp !! k)).
      set (AV := λ k, default 0 (v_tmp !! k)).
      assert (HAU : ∀ k, 0 ≤ AU k ≤ 3060).
      { intros k. unfold AU. destruct (u_tmp !! k) as [x|] eqn:E; simpl;
          [by apply (HbU k)|lia]. }
      assert (HAV : ∀ k, 0 ≤ AV k ≤ 3060).
      { intros k. unfold AV. destruct (v_tmp !! k) as [x|] eqn:E; simpl;
          [by apply (HbV k)|lia]. }
      destruct (row_410_middle_sums in_data n a p p_uv u_tmp v_tmp ot
                  AU AV 3060 Ha Hp)
        as (u' & v' & ot' & b & Hrow & [_ HU] & [_ HV] & _);
        [| |done|done|lia|].
      * apply acc_added_0; [done|]. intros k Hk. unfold AU.
        destruct (lookup_lt_is_Some_2 u_tmp k) as [x ->]; [lia|done].
      * apply acc_added_0; [done|]. intros k Hk. unfold AV.
        destruct (lookup_lt_is_Some_2 v_tmp k) as [x ->]; [lia|done].
      * exists u', v', ot', b. split; [exact Hrow|].
        intros k x y Hx Hy.
        assert (k < n)%nat as Hk
          by (apply lookup_lt_Some in Hx; lia).
        rewrite (HU k Hk), (HV k Hk), !gsum_row_sum_4 by lia.
        unfold AU, AV. rewrite Hx, Hy. done.
Qed.

Lemma C10_accumulators_never_wrap_witness :
  ∃ out h',
    detail_transform_.transform_to (A := allocator bump_new unmapping_delete)
      yuv_YUV9 (replicate 8 px_red ++ replicate 8 px_blue) 4 4
      (replicate 18 0) junk_cd ∅ = Some (out, h')
    ∧ out !! 16%nat = Some ((8 * 90 + 8 * 240) / 16)
    ∧ out !! 17%nat = Some ((8 * 240 + 8 * 110) / 16).
Proof.
  destruct (C10_accumulators_never_wrap
              (allocator bump_new unmapping_delete) yuv_YUV9
              (replicate 8 px_red ++ replicate 8 px_blue) 4 4 (replicate 18 0)
              junk_cd ∅ eq_refl eq_refl)
    as ((out & h' & Hrun & HC) & _);
    [reflexivity|reflexivity|reflexivity
    |right; vm_compute; split; intros H; discriminate H|].
  exists out, h'. split; [exact Hrun|].
  destruct (HC 0%nat (le_n 1)) as (_ & _ & _ & Hu & Hv).
  split; [exact Hu|exact Hv].
Defined.

(** C9, as stated, fails where the writer has no defined result: a 3×4
    solid image passes the size check of YU12 (12 pixels, a multiple of
    4; 18 bytes) and the allocator delivers both accumulators, but its
    rows have an odd number of pixels, so the third pixel of a row
    indexes cell 1 of the one-cell accumulators, and there is no output
    whose two chroma pairs are those of the pixel; and on a 2×2 solid
    image, when the allocator has no memory left, the first pixel is
    stored through a null pointer. *)
Lemma C9_odd_width_has_no_result :
  (let A := allocator bump_new unmapping_delete in
   size_precondition yuv_YU12 (3 * 4)
   ∧ calculate_size yuv_YU12 3 4 = Some 18
   ∧ accumulators_allocated yuv_YU12 3 ∅
   ∧ chroma_count yuv_YU12 3 4 = 2%nat
   ∧ detail_transform_.transform_to yuv_YU12 (replicate (3 * 4) px_red) 3 4
       (replicate 18 0) junk_cd ∅ = None
   ∧ ¬ ∃ out h',
         detail_transform_.transform_to yuv_YU12 (replicate (3 * 4) px_red) 3 4
           (replicate 18 0) junk_cd ∅ = Some (out, h')
         ∧ ∀ n, (n < chroma_count yuv_YU12 3 4)%nat →
             out !! cb_index yuv_YU12 (3 * 4) n
             = Some (pixel_convert plane_U px_red)
             ∧ out !! cr_index yuv_YU12 (3 * 4) n
               = Some (pixel_convert plane_V px_red))
  ∧ (let A := allocator exhausted_new silent_delete in
     size_precondition yuv_YU12 (2 * 2)
     ∧ calculate_size yuv_YU12 2 2 = Some 6
     ∧ detail_transform_.transform_to yuv_YU12 (replicate (2 * 2) px_red) 2 2
         (replicate 6 0) junk_cd ∅ = None).
Proof.
  split.
  - intros A. split; [reflexivity|]. split; [reflexivity|].
    split; [right; vm_compute; split; intros H; discriminate H|].
    split; [reflexivity|].
    assert (detail_transform_.transform_to yuv_YU12 (replicate (3 * 4) px_red)
              3 4 (replicate 18 0) junk_cd ∅ = None) as Hrun
      by (vm_compute; reflexivity).
    split; [exact Hrun|].
    intros (out & h' & Hout & _). rewrite Hrun in Hout. discriminate.
  - intros A. split; [reflexivity|]. split; [reflexivity|].
    vm_compute. reflexivity.
Qed.

(** C9 (amended).  For every solid-colour image whose size passes
    [calculate_size], whose width is a multiple of the width of the
    target's chroma block (for the targets whose blocks span several
    rows: even for 4:2:0, a multiple of 4 for 4:1:0) and whose
    accumulator arrays the allocator delivers, every subsampled writer
    returns, and every chroma byte it writes is the U (resp. V) value of
    the single pixel converted through the matrix. *)
Theorem C9_solid_color_chroma (A : AllocT) (Tar : supported) (px : rgb_t.t)
    (in_w in_h : nat) (ot_data : list Z)
    (junk : detail_transform_.indeterminate) (h : heap) :
  is_subsampled Tar = true →
  aligned Tar in_w in_h →
  widest_size Tar (Z.of_nat in_w * Z.of_nat in_h) < 2 ^ size_bits →
  calculate_size Tar (Z.of_nat in_w) (Z.of_nat in_h)
  = Some (Z.of_nat (length ot_data)) →
  accumulators_allocated Tar in_w h →
  ∃ out h',
    detail_transform_.transform_to Tar (replicate (in_w * in_h) px) in_w in_h
      ot_data junk h = Some (out, h')
    ∧ ∀ n, (n < chroma_count Tar in_w in_h)%nat →
        out !! cb_index Tar (in_w * in_h) n = Some (pixel_convert plane_U px)
        ∧ out !! cr_index Tar (in_w * in_h) n = Some (pixel_convert plane_V px).
Proof.
  intros HT Hal Hfit Hsz Hacc.
  destruct (transform_to_subsampled Tar (replicate (in_w * in_h) px) in_w in_h
              ot_data junk h HT Hal Hfit (length_replicate _ _) Hsz Hacc)
    as (out & h' & Hrun & _ & _ & HC & _).
  exists out, h'. split; [done|]. intros n Hn.
  destruct (HC n Hn) as [Hu Hv]. rewrite Hu, Hv.
  destruct (block_pixels_length Tar in_w n HT) as (_ & _ & Hpos).
  split; f_equal; apply mean_over_const_on; try done; intros i Hi;
    unfold U_at, V_at; rewrite pixel_at_replicate; try done;
    by eapply block_pixels_in_image.
Qed.

Lemma C9_solid_color_chroma_witness :
  ∃ out h',
    detail_transform_.transform_to (A := allocator bump_new unmapping_delete)
      yuv_YU12 (replicate (2 * 2) px_red) 2 2 (replicate 6 0) junk_cd ∅
    = Some (out, h')
    ∧ out !! 4%nat = Some 90 ∧ out !! 5%nat = Some 240.
Proof.
  destruct (C9_solid_color_chroma (allocator bump_new unmapping_delete)
              yuv_YU12 px_red 2 2 (replicate 6 0) junk_cd ∅ eq_refl eq_refl)
    as (out & h' & Hrun & HC);
    [reflexivity|reflexivity
    |right; vm_compute; split; intros H; discriminate H|].
  exists out, h'. split; [exact Hrun|].
  exact (HC 0%nat (le_n 1)).
Defined.
End writer_claims.

(** * Further properties of the header *)

(** ** Colour conversion *)

Section colour.
Local Arguments Z.mul : simpl never.
Local Arguments Z.add : simpl never.

Lemma shiftr8_bounds x lo hi :
  lo * 256 ≤ x → x < (hi + 1) * 256 → lo ≤ Z.shiftr x 8 ≤ hi.
Proof.
  intros H1 H2. rewrite Z.shiftr_div_pow2 by lia. change (2 ^ 8) with 256. lia.
Qed.

Lemma clip_id x : 0 ≤ x ≤ 255 → convertor.clip x = x.
Proof.
  intros Hx. unfold convertor.clip.
  destruct (Z.ltb_spec x 0); [lia|]. destruct (Z.ltb_spec 255 x); [lia|].
  apply to_uint8_small. unfold is_uint8. lia.
Qed.

Lemma forall_uint8 (P : Z → Prop) (check : Z → bool) :
  (∀ x, check x = true → P x) →
  forallb (λ n, check (Z.of_nat n)) (seq 0 256) = true →
  ∀ x, is_uint8 x → P x.
Proof.
  intros Hc Hall x [Hx0 Hx1]. apply Hc.
  rewrite forallb_forall in Hall.
  rewrite <- (Z2Nat.id x) by lia. apply Hall.
  apply in_seq. change (2 ^ 8) with 256 in Hx1. lia.
Qed.
End colour.

Lemma forward_unclipped (p : rgb_t.t) :
  rgb_t.wf p →
  let R := rgb_t.r_ p in
  let G := rgb_t.g_ p in
  let B := rgb_t.b_ p in
  (pixel_convert plane_Y p = Z.shiftr (66 * R + 129 * G + 25 * B + 128) 8 + 16
   ∧ 16 ≤ pixel_convert plane_Y p ≤ 235)
  ∧ (pixel_convert plane_U p
     = Z.shiftr (- 38 * R + - 74 * G + 112 * B + 128) 8 + 128
     ∧ 16 ≤ pixel_convert plane_U p ≤ 240)
  ∧ (pixel_convert plane_V p
     = Z.shiftr (112 * R + - 94 * G + - 18 * B + 128) 8 + 128
     ∧ 16 ≤ pixel_convert plane_V p ≤ 240).
Proof.
  destruct p as [B G R]. intros (HB & HG & HR) R' G' B'.
  subst R' G' B'. unfold is_uint8 in *. simpl in *.
  change (2 ^ 8) with 256 in *.
  unfold pixel_convert, pixel_convert_planes, convertor.convert,
    convertor.raw. simpl.
  pose proof (shiftr8_bounds (66 * R + 129 * G + 25 * B + 128) 0 219) as HY.
  pose proof (shiftr8_bounds (- 38 * R + - 74 * G + 112 * B + 128) (-112) 112)
    as HU.
  pose proof (shiftr8_bounds (112 * R + - 94 * G + - 18 * B + 128) (-112) 112)
    as HV.
  rewrite !clip_id by lia. lia.
Qed.


(** X1.  For every pixel whose channels are bytes, the converted values
    lie in the studio range: Y in [16,235], U and V in [16,240]; [clip]
    never saturates on the way from RGB to YUV, so each value is the
    shifted sum of its matrix row plus the row's offset. *)
Theorem X1_forward_studio_range (p : rgb_t.t) :
  rgb_t.wf p →
  let R := rgb_t.r_ p in
  let G := rgb_t.g_ p in
  let B := rgb_t.b_ p in
  (pixel_convert plane_Y p = Z.shiftr (66 * R + 129 * G + 25 * B + 128) 8 + 16
   ∧ 16 ≤ pixel_convert plane_Y p ≤ 235)
  ∧ (pixel_convert plane_U p
     = Z.shiftr (- 38 * R + - 74 * G + 112 * B + 128) 8 + 128
     ∧ 16 ≤ pixel_convert plane_U p ≤ 240)
  ∧ (pixel_convert plane_V p
     = Z.shiftr (112 * R + - 94 * G + - 18 * B + 128) 8 + 128
     ∧ 16 ≤ pixel_convert plane_V p ≤ 240).
Proof. apply forward_unclipped. Qed.

Lemma X1_forward_studio_range_witness :
  pixel_convert plane_Y (rgb_t.mk 255 255 255) = 235
  ∧ pixel_convert plane_U (rgb_t.mk 255 0 0) = 240
  ∧ pixel_convert plane_V (rgb_t.mk 255 0 0) = 110.
Proof.
  pose proof (X1_forward_studio_range (rgb_t.mk 255 255 255)) as HW.
  pose proof (X1_forward_studio_range (rgb_t.mk 255 0 0)) as HB.
  assert (rgb_t.wf (rgb_t.mk 255 255 255)) as H1 by (vm_compute; intuition discriminate).
  assert (rgb_t.wf (rgb_t.mk 255 0 0)) as H2 by (vm_compute; intuition discriminate).
  destruct (HW H1) as ((-> & _) & _).
  destruct (HB H2) as (_ & (-> & _) & (-> & _)).
  vm_compute. done.
Defined.

(** X2.  A grey pixel has neutral chroma, and grey survives the way there
    and back: for every byte [v], the pixel (v,v,v) converts to U = V =
    128, and converting (Y,128,128) back gives three equal channels that
    differ from [v] by at most 1. *)
Theorem X2_grey_round_trip (v : Z) :
  is_uint8 v →
  let p := rgb_t.mk v v v in
  let q := yuv_t.mk (pixel_convert plane_V p) (pixel_convert plane_U p)
             (pixel_convert plane_Y p) in
  pixel_convert plane_U p = 128
  ∧ pixel_convert plane_V p = 128
  ∧ pixel_convert_yuv plane_G q = pixel_convert_yuv plane_R q
  ∧ pixel_convert_yuv plane_B q = pixel_convert_yuv plane_R q
  ∧ v - 1 ≤ pixel_convert_yuv plane_R q ≤ v + 1.
Proof.
  revert v.
  apply (forall_uint8 _ (λ v,
    let p := rgb_t.mk v v v in
    let q := yuv_t.mk (pixel_convert plane_V p) (pixel_convert plane_U p)
               (pixel_convert plane_Y p) in
    (pixel_convert plane_U p =? 128)
    && (pixel_convert plane_V p =? 128)
    && (pixel_convert_yuv plane_G q =? pixel_convert_yuv plane_R q)
    && (pixel_convert_yuv plane_B q =? pixel_convert_yuv plane_R q)
    && (v - 1 <=? pixel_convert_yuv plane_R q)
    && (pixel_convert_yuv plane_R q <=? v + 1))).
  - intros v Hv. cbv zeta in Hv.
    repeat (apply andb_prop in Hv as [Hv ?]).
    repeat match goal with
           | H : (_ =? _) = true |- _ => apply Z.eqb_eq in H
           | H : (_ <=? _) = true |- _ => apply Z.leb_le in H
           end.
    cbv zeta. by repeat split.
  - vm_compute. reflexivity.
Qed.

Lemma X2_grey_round_trip_witness :
  pixel_convert plane_U (rgb_t.mk 200 200 200) = 128
  ∧ pixel_convert plane_V (rgb_t.mk 200 200 200) = 128.
Proof.
  assert (is_uint8 200) as H by (vm_compute; intuition discriminate).
  destruct (X2_grey_round_trip 200 H) as (HU & HV & _).
  exact (conj HU HV).
Defined.

(** X3.  On the way back the conversion saturates: with neutral chroma
    every luma up to 16 gives black and every luma from 235 on gives
    white, and the channel never falls when the luma grows. *)
Theorem X3_inverse_saturates (y : Z) :
  is_uint8 y →
  let q := yuv_t.mk 128 128 y in
  let q' := yuv_t.mk 128 128 (y + 1) in
  (y ≤ 16 → pixel_convert_yuv plane_R q = 0
            ∧ pixel_convert_yuv plane_G q = 0
            ∧ pixel_convert_yuv plane_B q = 0)
  ∧ (235 ≤ y → pixel_convert_yuv plane_R q = 255
               ∧ pixel_convert_yuv plane_G q = 255
               ∧ pixel_convert_yuv plane_B q = 255)
  ∧ (y < 255 → pixel_convert_yuv plane_R q ≤ pixel_convert_yuv plane_R q').
Proof.
  revert y.
  apply (forall_uint8 _ (λ y,
    let q := yuv_t.mk 128 128 y in
    let q' := yuv_t.mk 128 128 (y + 1) in
    ((16 <? y) || ((pixel_convert_yuv plane_R q =? 0)
                   && (pixel_convert_yuv plane_G q =? 0)
                   && (pixel_convert_yuv plane_B q =? 0)))
    && ((y <? 235) || ((pixel_convert_yuv plane_R q =? 255)
                       && (pixel_convert_yuv plane_G q =? 255)
                       && (pixel_convert_yuv plane_B q =? 255)))
    && ((255 <=? y)
        || (pixel_convert_yuv plane_R q <=? pixel_convert_yuv plane_R q')))).
  - intros y Hy. cbv zeta in Hy.
    apply andb_prop in Hy as [Hy H3]. apply andb_prop in Hy as [H1 H2].
    cbv zeta. split; [|split].
    3: { intros Hlt. apply orb_prop in H3 as [H3|H3];
           [apply Z.leb_le in H3; lia|by apply Z.leb_le in H3]. }
    + intros Hle. apply orb_prop in H1 as [H1|H1];
        [apply Z.ltb_lt in H1; lia|].
      apply andb_prop in H1 as [H1 Hb]. apply andb_prop in H1 as [Hr Hg].
      apply Z.eqb_eq in Hr, Hg, Hb. done.
    + intros Hle. apply orb_prop in H2 as [H2|H2];
        [apply Z.ltb_lt in H2; lia|].
      apply andb_prop in H2 as [H2 Hb]. apply andb_prop in H2 as [Hr Hg].
      apply Z.eqb_eq in Hr, Hg, Hb. done.
  - vm_compute. reflexivity.
Qed.

Lemma X3_inverse_saturates_witness :
  pixel_convert_yuv plane_R (yuv_t.mk 128 128 240) = 255.
Proof.
  assert (is_uint8 240) as H by (vm_compute; intuition discriminate).
  destruct (X3_inverse_saturates 240 H) as (_ & H2 & _).
  apply H2. lia.
Defined.

(** X4.  Luma is monotone: raising any channel of a pixel never lowers
    its Y. *)
Theorem X4_luma_monotone (p p' : rgb_t.t) :
  rgb_t.wf p → rgb_t.wf p' →
  rgb_t.r_ p ≤ rgb_t.r_ p' → rgb_t.g_ p ≤ rgb_t.g_ p' →
  rgb_t.b_ p ≤ rgb_t.b_ p' →
  pixel_convert plane_Y p ≤ pixel_convert plane_Y p'.
Proof.
  intros Hp Hp' Hr Hg Hb.
  destruct (forward_unclipped p Hp) as ((-> & _) & _).
  destruct (forward_unclipped p' Hp') as ((-> & _) & _).
  rewrite !Z.shiftr_div_pow2 by lia.
  apply Z.add_le_mono_r, Z.div_le_mono; lia.
Qed.

Lemma X4_luma_monotone_witness :
  pixel_convert plane_Y (rgb_t.mk 0 0 0) ≤ pixel_convert plane_Y (rgb_t.mk 10 20 30).
Proof.
  apply X4_luma_monotone; vm_compute; intuition discriminate.
Defined.

(** ** Buffer sizes *)

(** X5.  [calculate_size] has a result exactly for the format tags whose
    pixel count passes the assertion of the tag: for dimensions whose byte
    count is a [size_t], it has none if and only if the tag is a sentinel
    or the pixel count is not a multiple of what the tag needs. *)
Theorem X5_calculate_size_rejects (S : supported) (in_w in_h : Z) :
  0 ≤ in_w → 0 ≤ in_h → in_w * in_h * 4 < 2 ^ size_bits →
  calculate_size S in_w in_h = None
  ↔ is_rgb S || is_yuv S = false ∨ ¬ size_precondition S (in_w * in_h).
Proof.
  intros Hw Hh Hfit. split.
  - intros HN. destruct (is_rgb S || is_yuv S) eqn:HS; [right|by left].
    intros Hpre. by rewrite calculate_size_formula in HN.
  - intros Hbad. destruct (calculate_size S in_w in_h) as [n|] eqn:Hn; [|done].
    apply calculate_size_inv in Hn as (HS & Hpre & _); [|done..].
    destruct Hbad as [Hbad|Hbad]; [congruence|done].
Qed.

Lemma X5_calculate_size_rejects_witness :
  calculate_size yuv_YU12 3 3 = None.
Proof.
  apply X5_calculate_size_rejects; [lia|lia|reflexivity|].
  right. vm_compute. discriminate.
Defined.

(** X6.  [calculate_size] does not notice that the pixel count leaves
    [size_t]: whenever [in_w * in_h] is 0 modulo 2^64, which includes the
    empty image, every format tag gets size 0, and [create_buffer] then
    returns an owning block with a null pointer and count 0 without
    calling [operator new]. *)
Theorem X6_size_wraps_to_zero (S : supported) (in_w in_h : Z) :
  is_rgb S || is_yuv S = true →
  to_size_t (in_w * in_h) = 0 →
  calculate_size S in_w in_h = Some 0
  ∧ ∀ operator_new operator_delete h,
      create_buffer (A := allocator operator_new operator_delete) S in_w in_h h
      = Some (scope_block.mk NULL 0 true, h).
Proof.
  intros HS Hz.
  assert (calculate_size S in_w in_h = Some 0) as Hsz.
  { unfold calculate_size, detail_create_buffer_.size. rewrite Hz.
    destruct S; try discriminate; reflexivity. }
  split; [done|]. intros operator_new operator_delete h.
  unfold create_buffer. rewrite Hsz. reflexivity.
Qed.

Lemma X6_size_wraps_to_zero_witness :
  calculate_size yuv_YU12 (2 ^ 32) (2 ^ 32) = Some 0
  ∧ calculate_size rgb_444 0 480 = Some 0.
Proof.
  split.
  - apply (X6_size_wraps_to_zero yuv_YU12 (2 ^ 32) (2 ^ 32)); reflexivity.
  - apply (X6_size_wraps_to_zero rgb_444 0 480); reflexivity.
Defined.

(** ** Memory blocks *)

Lemma resplit_back (c sT sU : Z) :
  0 ≤ c → 0 < sT → 0 < sU →
  (c * sT / sU * sU) / sT ≤ c
  ∧ ((c * sT / sU * sU) / sT = c ↔ (c * sT) mod sU = 0).
Proof.
  intros Hc HT HU.
  pose proof (Z.div_mod (c * sT) sU) as Hdm.
  pose proof (Z.mod_pos_bound (c * sT) sU HU) as Hm.
  assert (c * sT / sU * sU = c * sT - (c * sT) mod sU) as -> by lia.
  set (r := (c * sT) mod sU) in *. clearbody r.
  split.
  - apply Z.div_le_upper_bound; [done|]. nia.
  - split.
    + intros Heq. destruct (decide (r = 0)) as [|Hr]; [done|].
      assert ((c * sT - r) / sT < c); [|lia].
      apply Z.div_lt_upper_bound; [done|]. nia.
    + intros ->. rewrite Z.sub_0_r. by apply Z.div_mul, Z.neq_sym, Z.lt_neq.
Qed.

(** X7.  Swapping twice.  The same-type [swap] is an involution.  The
    cross-type [swap] applied twice gives each block its pointer and its
    ownership flag back, but a count only when nothing was lost on the
    way: the count a block ends with never exceeds the count it began
    with, and equals it exactly when the byte size of the block is a
    multiple of the other element size. *)
Theorem X7_swap_twice (T U : elem_type)
    (this : scope_block.t T) (rhs : scope_block.t U)
    (x y : scope_block.t T) :
  0 ≤ scope_block.count this →
  scope_block.count this * sizeof T < 2 ^ size_bits →
  0 ≤ scope_block.count rhs →
  scope_block.count rhs * sizeof U < 2 ^ size_bits →
  let once := scope_block.swap_U this rhs in
  let twice := scope_block.swap_U once.1 once.2 in
  scope_block.swap (scope_block.swap x y).1 (scope_block.swap x y).2 = (x, y)
  ∧ scope_block.data twice.1 = scope_block.data this
  ∧ scope_block.data twice.2 = scope_block.data rhs
  ∧ scope_block.is_trusted twice.1 = scope_block.is_trusted this
  ∧ scope_block.is_trusted twice.2 = scope_block.is_trusted rhs
  ∧ scope_block.count twice.1 ≤ scope_block.count this
  ∧ scope_block.count twice.2 ≤ scope_block.count rhs
  ∧ (scope_block.count twice.1 = scope_block.count this
     ↔ (scope_block.count this * sizeof T) mod sizeof U = 0)
  ∧ (scope_block.count twice.2 = scope_block.count rhs
     ↔ (scope_block.count rhs * sizeof U) mod sizeof T = 0).
Proof.
  destruct this as [p n t], rhs as [q m u], x as [xp xn xt], y as [yp yn yt].
  unfold scope_block.count. simpl. intros Hn Hnf Hm Hmf.
  split; [reflexivity|].
  pose proof (sizeof_pos T) as HT. pose proof (sizeof_pos U) as HU.
  unfold scope_block.swap_U, scope_block.data, scope_block.is_trusted,
    scope_block.count. simpl.
  do 4 (split; [reflexivity|]).
  rewrite !size_mk.
  rewrite (to_size_t_small (n * sizeof T)) by (unfold is_size_t; nia).
  rewrite (to_size_t_small (m * sizeof U)) by (unfold is_size_t; nia).
  destruct (resplit_back n (sizeof T) (sizeof U) Hn HT HU) as [Hle1 Hiff1].
  destruct (resplit_back m (sizeof U) (sizeof T) Hm HU HT) as [Hle2 Hiff2].
  assert (0 ≤ n * sizeof T / sizeof U * sizeof U ≤ n * sizeof T) as Hb1.
  { pose proof (Z.div_mod (n * sizeof T) (sizeof U)).
    pose proof (Z.mod_pos_bound (n * sizeof T) (sizeof U) HU).
    assert (0 ≤ n * sizeof T / sizeof U) by (apply Z.div_pos; nia). nia. }
  assert (0 ≤ m * sizeof U / sizeof T * sizeof T ≤ m * sizeof U) as Hb2.
  { pose proof (Z.div_mod (m * sizeof U) (sizeof T)).
    pose proof (Z.mod_pos_bound (m * sizeof U) (sizeof T) HT).
    assert (0 ≤ m * sizeof U / sizeof T) by (apply Z.div_pos; nia). nia. }
  rewrite (to_size_t_small (n * sizeof T / sizeof U * sizeof U))
    by (unfold is_size_t; lia).
  rewrite (to_size_t_small (m * sizeof U / sizeof T * sizeof T))
    by (unfold is_size_t; lia).
  done.
Qed.

Lemma X7_swap_twice_witness :
  let this : scope_block.t elem_rgb_t := scope_block.mk 4096 2 true in
  let rhs : scope_block.t elem_uint16_t := scope_block.mk 8192 5 false in
  let once := scope_block.swap_U this rhs in
  let twice := scope_block.swap_U once.1 once.2 in
  scope_block.count twice.1 = 2 ∧ scope_block.count twice.2 ≤ 5.
Proof.
  intros this rhs once twice.
  destruct (X7_swap_twice elem_rgb_t elem_uint16_t this rhs this this)
    as (_ & _ & _ & _ & _ & _ & H2 & H3 & _);
    [simpl; lia | reflexivity | simpl; lia | reflexivity |].
  split; [|exact H2]. apply H3. reflexivity.
Defined.

(** X8.  No operation that exchanges blocks duplicates or loses
    ownership: for every pointer, the number of blocks whose destructor
    frees it is the same before and after [swap], the cross-type [swap],
    [move] and the converting constructor; and a dismissed block frees
    nothing. *)
Theorem X8_ownership_is_conserved (T U : elem_type)
    (this : scope_block.t T) (rhs : scope_block.t U) (x y : scope_block.t T)
    (p : ptr) :
  (owns (scope_block.swap_U this rhs).1 p + owns (scope_block.swap_U this rhs).2 p
   = owns this p + owns rhs p)%nat
  ∧ (owns (scope_block.move_U this rhs).1 p + owns (scope_block.move_U this rhs).2 p
     = owns this p + owns rhs p)%nat
  ∧ (owns (scope_block.from (T := T) rhs).1 p + owns (scope_block.from (T := T) rhs).2 p
     = owns rhs p)%nat
  ∧ (owns (scope_block.swap x y).1 p + owns (scope_block.swap x y).2 p
     = owns x p + owns y p)%nat
  ∧ (owns (scope_block.move x y).1 p + owns (scope_block.move x y).2 p
     = owns x p + owns y p)%nat
  ∧ owns (scope_block.dismiss x).2 p = 0%nat.
Proof.
  destruct this as [tp tn tt], rhs as [rp rn rt], x as [xp xn xt],
    y as [yp yn yt].
  unfold owns, scope_block.from, scope_block.move_U, scope_block.move,
    scope_block.swap_U, scope_block.swap, scope_block.dismiss,
    scope_block.is_trusted, scope_block.data, scope_block.init. simpl.
  repeat split; lia.
Qed.

(** ** The writers *)

Section writer_444.
Import detail_transform_.
Local Arguments Nat.mul : simpl never.
Local Arguments Nat.add : simpl never.
Local Arguments Y_at : simpl never.
Local Arguments U_at : simpl never.
Local Arguments V_at : simpl never.

Lemma transform_to_444_spec Tar d in_w in_h ot0 o_cb o_cr :
  inner_of Tar = Some (o_cb, o_cr) →
  Tar = yuv_NV24 ∨ Tar = yuv_NV42 →
  Z.of_nat in_w * Z.of_nat in_h < 2 ^ size_bits →
  length d = (in_w * in_h)%nat →
  (3 * (in_w * in_h) ≤ length ot0)%nat →
  ∃ out,
    transform_to_444 Tar d in_w in_h ot0 = Some out
    ∧ length out = length ot0
    ∧ (∀ i, (i < in_w * in_h)%nat →
         out !! i = Some (Y_at d i)
         ∧ out !! (in_w * in_h + 2 * i + o_cb)%nat = Some (U_at d i)
         ∧ out !! (in_w * in_h + 2 * i + o_cr)%nat = Some (V_at d i))
    ∧ (∀ p, (3 * (in_w * in_h) ≤ p)%nat → out !! p = ot0 !! p).
Proof.
  intros Hin HT Hfit Hd HL.
  assert ((o_cb = 0 ∧ o_cr = 1) ∨ (o_cb = 1 ∧ o_cr = 0))%nat as Ho
    by (destruct HT as [-> | ->]; simpl in Hin; injection Hin as <- <-; lia).
  unfold transform_to_444.
  assert (enable_if (tag_eqb Tar yuv_NV24 || tag_eqb Tar yuv_NV42) = Some ())
    as -> by (by destruct HT as [-> | ->]).
  assert (split Tar plane_Y in_w in_h = Some 0%nat) as -> by done.
  assert (fill Tar in_w in_h = Some (uv_pairs (size_mul in_w in_h))) as ->
    by (by destruct HT as [-> | ->]).
  rewrite Hin, (size_mul_small _ _ Hfit). simpl.
  set (s := (in_w * in_h)%nat) in *. clearbody s.
  destruct (for_inv
    (λ i st, ∃ ot, st = (i, (s + 2 * i)%nat, ot)
       ∧ length ot = length ot0
       ∧ (∀ j, (j < i)%nat →
            ot !! j = Some (Y_at d j)
            ∧ ot !! (s + 2 * j + o_cb)%nat = Some (U_at d j)
            ∧ ot !! (s + 2 * j + o_cr)%nat = Some (V_at d j))
       ∧ (∀ p, (i ≤ p < s ∨ s + 2 * i ≤ p)%nat → ot !! p = ot0 !! p))
    (λ i '(p_y, uv, ot),
       rgb ← d !! i;
       ot ← store ot p_y (pixel_convert plane_Y rgb);
       ot ← store ot (uv + o_cb) (pixel_convert plane_U rgb);
       ot ← store ot (uv + o_cr) (pixel_convert plane_V rgb);
       Some (S p_y, (uv + 2)%nat, ot))
    s 0%nat (0%nat, s, ot0))
    as (st & Hrun & ot & -> & Hlen & Hpix & Hframe).
  - exists ot0. split; [repeat f_equal; lia|]. split; [done|].
    split; [intros; lia|done].
  - intros i st Hi (ot & -> & Hlen & Hpix & Hframe).
    rewrite (pixel_at_lookup d i) by lia. simpl.
    fold (Y_at d i) (U_at d i) (V_at d i).
    destruct (store ot i (Y_at d i)) as [ot1|] eqn:H1;
      [|unfold store in H1; rewrite decide_True in H1 by lia; done].
    pose proof (length_store _ _ _ _ H1) as Hl1. simpl.
    destruct (store ot1 (s + 2 * i + o_cb) (U_at d i)) as [ot2|] eqn:H2;
      [|unfold store in H2; rewrite decide_True in H2 by lia; done].
    pose proof (length_store _ _ _ _ H2) as Hl2. simpl.
    destruct (store ot2 (s + 2 * i + o_cr) (V_at d i)) as [ot3|] eqn:H3;
      [|unfold store in H3; rewrite decide_True in H3 by lia; done].
    pose proof (length_store _ _ _ _ H3) as Hl3. simpl.
    eexists. split; [reflexivity|]. exists ot3.
    split; [repeat (f_equal; try lia)|]. split; [lia|].
    assert (∀ q, q ≠ i → q ≠ (s + 2 * i + o_cb)%nat →
                 q ≠ (s + 2 * i + o_cr)%nat → ot3 !! q = ot !! q) as Hne.
    { intros q ? ? ?.
      rewrite (lookup_store_ne _ _ _ _ q H3) by done.
      rewrite (lookup_store_ne _ _ _ _ q H2) by done.
      by rewrite (lookup_store_ne _ _ _ _ q H1). }
    split.
    + intros j Hj. destruct (decide (j = i)) as [->|Hji].
      * split; [|split].
        -- rewrite (lookup_store_ne _ _ _ _ i H3) by lia.
           rewrite (lookup_store_ne _ _ _ _ i H2) by lia.
           rewrite (lookup_store_eq _ _ _ _ H1).
           f_equal. apply to_uint8_small, Y_at_range.
        -- rewrite (lookup_store_ne _ _ _ _ _ H3) by lia.
           rewrite (lookup_store_eq _ _ _ _ H2).
           f_equal. apply to_uint8_small, U_at_range.
        -- rewrite (lookup_store_eq _ _ _ _ H3).
           f_equal. apply to_uint8_small, V_at_range.
      * destruct (Hpix j) as (HY & HU & HV); [lia|].
        rewrite !Hne by lia. done.
    + intros p Hp. rewrite Hne by lia. apply Hframe. lia.
  - exists ot. split; [by rewrite Hrun|]. split; [done|].
    split; [by apply Hpix|]. intros p Hp. apply Hframe. lia.
Qed.
End writer_444.

(** X9.  The 4:4:4 writer (NV24, NV42) stores one Y byte per pixel in
    row-major order, followed from byte [in_w * in_h] on by one two-byte
    group per pixel holding the pixel's own U and V, U first for NV24 and
    V first for NV42; nothing is averaged, and the bytes after the three
    planes' worth are left as they were.  The writer allocates nothing:
    the heap is left as it was. *)
Theorem X9_444_writer (A : AllocT) (Tar : supported) (in_data : list rgb_t.t)
    (in_w in_h : nat) (ot_data : list Z)
    (junk : detail_transform_.indeterminate) (h : heap) :
  Tar = yuv_NV24 ∨ Tar = yuv_NV42 →
  Z.of_nat in_w * Z.of_nat in_h < 2 ^ size_bits →
  length in_data = (in_w * in_h)%nat →
  (3 * (in_w * in_h) ≤ length ot_data)%nat →
  let u_first := tag_eqb Tar yuv_NV24 in
  ∃ out,
    detail_transform_.transform_to Tar in_data in_w in_h ot_data junk h
    = Some (out, h)
    ∧ length out = length ot_data
    ∧ (∀ i, (i < in_w * in_h)%nat →
         out !! i = Some (pixel_convert plane_Y (pixel_at in_data i))
         ∧ out !! (in_w * in_h + 2 * i + (if u_first then 0 else 1))%nat
           = Some (pixel_convert plane_U (pixel_at in_data i))
         ∧ out !! (in_w * in_h + 2 * i + (if u_first then 1 else 0))%nat
           = Some (pixel_convert plane_V (pixel_at in_data i)))
    ∧ (∀ p, (3 * (in_w * in_h) ≤ p)%nat → out !! p = ot_data !! p).
Proof.
  intros HT Hfit Hd HL u_first. subst u_first.
  destruct HT as [-> | ->].
  - destruct (transform_to_444_spec yuv_NV24 in_data in_w in_h ot_data 0 1
                eq_refl (or_introl eq_refl) Hfit Hd HL) as (out & Hrun & Hout).
    exists out. split; [exact (on_heap_Some h _ out Hrun)|exact Hout].
  - destruct (transform_to_444_spec yuv_NV42 in_data in_w in_h ot_data 1 0
                eq_refl (or_intror eq_refl) Hfit Hd HL) as (out & Hrun & Hout).
    exists out. split; [exact (on_heap_Some h _ out Hrun)|exact Hout].
Qed.

Lemma X9_444_writer_witness :
  ∃ out,
    detail_transform_.transform_to (A := allocator bump_new unmapping_delete)
      yuv_NV42 [px_red; px_green] 2 1 [0; 0; 0; 0; 0; 0; 7] junk_cd ∅
    = Some (out, ∅)
    ∧ out !! 2%nat = Some 240 ∧ out !! 3%nat = Some 90 ∧ out !! 6%nat = Some 7.
Proof.
  destruct (X9_444_writer (allocator bump_new unmapping_delete)
              yuv_NV42 [px_red; px_green] 2 1
              [0; 0; 0; 0; 0; 0; 7] junk_cd ∅ (or_intror eq_refl))
    as (out & Hrun & _ & Hpix & Hframe);
    [reflexivity | reflexivity | simpl; lia |].
  exists out. split; [exact Hrun|].
  destruct (Hpix 0%nat) as (_ & HU & HV); [simpl; lia|].
  split; [exact HV|]. split; [exact HU|].
  exact (Hframe 6%nat (le_n 6)).
Defined.

Section writer_facts.
Import detail_transform_.
Local Arguments Nat.mul : simpl never.
Local Arguments Nat.add : simpl never.
Local Arguments Nat.div : simpl never.
Local Arguments Nat.modulo : simpl never.
Local Arguments Nat.shiftr : simpl never.

Lemma subsampled_ok_unique Tar d in_w in_h cu cv ot out1 out2 :
  subsampled_ok Tar d in_w in_h cu cv ot out1 →
  subsampled_ok Tar d in_w in_h cu cv ot out2 →
  out1 = out2.
Proof.
  intros (Hl1 & HY1 & HC1 & HF1) (Hl2 & HY2 & HC2 & HF2).
  apply list_eq. intros p.
  destruct (decide (Exists (λ i, p = y_index Tar i) (seq 0 (in_w * in_h))))
    as [HE|HE].
  { apply Exists_exists in HE as (i & Hi & ->).
    apply elem_of_seq in Hi. rewrite HY1, HY2 by lia. done. }
  destruct (decide (Exists (λ n, p = cb_index Tar (in_w * in_h) n
                                 ∨ p = cr_index Tar (in_w * in_h) n)
                      (seq 0 (chroma_count Tar in_w in_h)))) as [HE'|HE'].
  { apply Exists_exists in HE' as (n & Hn & Hp).
    apply elem_of_seq in Hn.
    destruct (HC1 n) as [Hu1 Hv1]; [lia|]. destruct (HC2 n) as [Hu2 Hv2]; [lia|].
    destruct Hp as [-> | ->]; congruence. }
  rewrite HF1, HF2; [done|..].
  - intros i Hi ->. apply HE, Exists_exists. exists i.
    split; [apply elem_of_seq; lia|done].
  - intros n Hn. split; intros ->; apply HE', Exists_exists; exists n;
      (split; [apply elem_of_seq; lia|]); [by left|by right].
  - intros i Hi ->. apply HE, Exists_exists. exists i.
    split; [apply elem_of_seq; lia|done].
  - intros n Hn. split; intros ->; apply HE', Exists_exists; exists n;
      (split; [apply elem_of_seq; lia|]); [by left|by right].
Qed.

Lemma for_None {St : Type} (Inv : St → Prop) (body : nat → St → option St) j :
  (∀ i st st', Inv st → body i st = Some st' → Inv st') →
  (∀ st, Inv st → body j st = None) →
  ∀ n j0 st, Inv st → (j0 ≤ j < j0 + n)%nat → for_ n j0 body st = None.
Proof.
  intros Hkeep Hfail. induction n as [|n IH]; intros j0 st HI Hj; [lia|].
  simpl. destruct (decide (j = j0)) as [->|Hne].
  - by rewrite Hfail.
  - destruct (body j0 st) as [st1|] eqn:Hb; [simpl|done].
    apply IH; [by eapply Hkeep|lia].
Qed.

Lemma cell_set_length tmp k v tmp' :
  cell_set tmp k v = Some tmp' → length tmp' = length tmp.
Proof.
  unfold cell_set. case_decide; [|done]. intros [= <-]. apply length_insert.
Qed.

Lemma cell_add_length tmp k v tmp' x :
  cell_add tmp k v = Some (tmp', x) → length tmp' = length tmp.
Proof.
  unfold cell_add. destruct (tmp !! k); [|done]. simpl.
  intros [= <- _]. apply length_insert.
Qed.

Lemma cell_set_outside tmp k v : (length tmp ≤ k)%nat → cell_set tmp k v = None.
Proof. intros H. unfold cell_set. by rewrite decide_False by lia. Qed.

Lemma cell_add_outside tmp k v : (length tmp ≤ k)%nat → cell_add tmp k v = None.
Proof.
  intros H. unfold cell_add. by rewrite (proj2 (lookup_ge_None tmp k)).
Qed.

Ltac row_step Hb :=
  repeat match type of Hb with
         | context [@mbind option _ _ _ _ ?x] =>
             let E := fresh "E" in
             destruct x as [?|] eqn:E; simpl in Hb; [|discriminate Hb]
         | (let '(_, _) := ?x in _) = _ => destruct x
         | (if ?b then _ else _) = _ => destruct b
         end.

Lemma row_420_odd_cells d i st st' :
  row_420_odd d i st = Some st' → length (cells_of st') = length (cells_of st).
Proof.
  destruct st as [[[[[[index p_y] p_uv] u_tmp] v_tmp] ot] flag].
  unfold row_420_odd. intros Hb. row_step Hb; injection Hb as <-; simpl.
  - by eapply cell_add_length.
  - by eapply cell_set_length.
Qed.

Lemma row_420_odd_outside d j st :
  (length (cells_of st) ≤ Nat.shiftr j 1)%nat → row_420_odd d j st = None.
Proof.
  destruct st as [[[[[[index p_y] p_uv] u_tmp] v_tmp] ot] flag].
  simpl. intros Hk. unfold row_420_odd.
  destruct (d !! index); [simpl|done].
  destruct (store _ _ _); [simpl|done].
  destruct flag.
  - rewrite (cell_add_outside u_tmp) by exact Hk. reflexivity.
  - rewrite (cell_set_outside u_tmp) by exact Hk. reflexivity.
Qed.

Lemma row_410_first_cells d i st st' :
  row_410_first d i st = Some st' → length (cells_of st') = length (cells_of st).
Proof.
  destruct st as [[[[[[index p_y] p_uv] u_tmp] v_tmp] ot] flag].
  unfold row_410_first. intros Hb. row_step Hb; injection Hb as <-; simpl.
  - by eapply cell_set_length.
  - by eapply cell_add_length.
Qed.

Lemma row_410_first_outside d j st :
  (length (cells_of st) ≤ Nat.shiftr j 2)%nat → row_410_first d j st = None.
Proof.
  destruct st as [[[[[[index p_y] p_uv] u_tmp] v_tmp] ot] flag].
  simpl. intros Hk. unfold row_410_first.
  destruct (d !! index); [simpl|done].
  destruct (store _ _ _); [simpl|done].
  destruct (flag =? 1).
  - rewrite (cell_set_outside u_tmp) by exact Hk. reflexivity.
  - rewrite (cell_add_outside u_tmp) by exact Hk. reflexivity.
Qed.

Lemma bind_all_None {A B : Type} (m : option A) (f : A → option B) :
  (∀ x, f x = None) → m ≫= f = None.
Proof. intros H. destruct m; [apply H|done]. Qed.

Lemma for_S {St : Type} n j (body : nat → St → option St) st :
  for_ (S n) j body st = body j st ≫= for_ n (S j) body.
Proof. reflexivity. Qed.

Lemma transform_to_misaligned {A : AllocT} Tar d in_w in_h ot junk h :
  (is_420 Tar = true ∧ in_w mod 2 ≠ 0 ∨ is_410 Tar = true ∧ in_w mod 4 ≠ 0)%nat →
  (0 < in_h)%nat →
  transform_to Tar d in_w in_h ot junk h = None.
Proof.
  intros [[HT Hw]|[HT Hw]] Hh; destruct in_h as [|h']; try lia.
  - assert (transform_to Tar d in_w (S h') ot junk h
            = transform_to_420 Tar d in_w (S h') ot junk h) as ->
      by (destruct Tar; try discriminate; reflexivity).
    unfold transform_to_420.
    apply bind_all_None. intros _.
    apply bind_all_None. intros p_y.
    apply bind_all_None. intros p_uv.
    destruct (new_cells_spec (u_tmp_init junk) (Nat.shiftr in_w 1) h)
      as (u_blk & u0 & h1 & -> & _ & _ & Hu0).
    destruct (new_cells_spec (v_tmp_init junk) (Nat.shiftr in_w 1) h1)
      as (v_blk & v0 & h2 & -> & _ & _ & _).
    rewrite for_S. unfold rows_420.
    rewrite (for_None (λ st, length (cells_of st) ≤ in_w / 2)%nat
               (row_420_odd d) (2 * (in_w / 2))%nat); [done|..].
    + intros i st st' HI Hb. by rewrite (row_420_odd_cells _ _ _ _ Hb).
    + intros st HI. apply row_420_odd_outside. rewrite shiftr_1. lia.
    + simpl. by rewrite <- shiftr_1.
    + lia.
  - assert (transform_to Tar d in_w (S h') ot junk h
            = transform_to_410 Tar d in_w (S h') ot junk h) as ->
      by (destruct Tar; try discriminate; reflexivity).
    unfold transform_to_410.
    apply bind_all_None. intros _.
    apply bind_all_None. intros p_y.
    apply bind_all_None. intros p_uv.
    destruct (new_cells_spec (u_tmp_init junk) (Nat.shiftr in_w 2) h)
      as (u_blk & u0 & h1 & -> & _ & _ & Hu0).
    destruct (new_cells_spec (v_tmp_init junk) (Nat.shiftr in_w 2) h1)
      as (v_blk & v0 & h2 & -> & _ & _ & _).
    rewrite for_S. unfold rows_410.
    rewrite (for_None (λ st, length (cells_of st) ≤ in_w / 4)%nat
               (row_410_first d) (4 * (in_w / 4))%nat); [done|..].
    + intros i st st' HI Hb. by rewrite (row_410_first_cells _ _ _ _ Hb).
    + intros st HI. apply row_410_first_outside. rewrite shiftr_2. lia.
    + simpl. by rewrite <- shiftr_2.
    + lia.
Qed.

(** A null accumulator array has no cell. *)
Lemma new_cells_null {A : AllocT} init count h :
  scope_block.data (scope_block.new (T:=elem_uint16_t) (Z.of_nat count) h).1
  = NULL →
  (new_cells init count h).1.2 = [].
Proof.
  unfold new_cells.
  destruct (scope_block.new (T:=elem_uint16_t) (Z.of_nat count) h)
    as [blk h']. cbn [fst snd]. by intros ->.
Qed.

Lemma transform_to_null_accumulator {A : AllocT} Tar d in_w in_h ot junk h :
  is_420 Tar || is_410 Tar = true →
  (0 < in_w)%nat → (0 < in_h)%nat →
  scope_block.data
    (scope_block.new (T:=elem_uint16_t)
       (Z.of_nat (accumulator_cells Tar in_w)) h).1 = NULL →
  transform_to Tar d in_w in_h ot junk h = None.
Proof.
  intros HT Hw Hh Hnull; destruct in_h as [|h']; try lia.
  destruct (is_420 Tar) eqn:H420.
  - assert (transform_to Tar d in_w (S h') ot junk h
            = transform_to_420 Tar d in_w (S h') ot junk h) as ->
      by (destruct Tar; try discriminate; reflexivity).
    assert (accumulator_cells Tar in_w = Nat.shiftr in_w 1) as Hc
      by (rewrite shiftr_1; by destruct Tar).
    rewrite Hc in Hnull.
    unfold transform_to_420.
    apply bind_all_None. intros _.
    apply bind_all_None. intros p_y.
    apply bind_all_None. intros p_uv.
    pose proof (new_cells_null (u_tmp_init junk) _ h Hnull) as Hu0.
    destruct (new_cells (u_tmp_init junk) (Nat.shiftr in_w 1) h)
      as [[u_blk u0] h1]. cbn [fst snd] in Hu0. subst u0.
    destruct (new_cells (v_tmp_init junk) (Nat.shiftr in_w 1) h1)
      as [[v_blk v0] h2].
    rewrite for_S. unfold rows_420.
    rewrite (for_None (λ st, length (cells_of st) = 0)%nat
               (row_420_odd d) 0%nat); [done|..].
    + intros i st st' HI Hb. by rewrite (row_420_odd_cells _ _ _ _ Hb).
    + intros st HI. apply row_420_odd_outside. rewrite HI. lia.
    + done.
    + lia.
  - assert (is_410 Tar = true) as H410 by (by destruct Tar).
    assert (transform_to Tar d in_w (S h') ot junk h
            = transform_to_410 Tar d in_w (S h') ot junk h) as ->
      by (destruct Tar; try discriminate; reflexivity).
    assert (accumulator_cells Tar in_w = Nat.shiftr in_w 2) as Hc
      by (rewrite shiftr_2; by destruct Tar).
    rewrite Hc in Hnull.
    unfold transform_to_410.
    apply bind_all_None. intros _.
    apply bind_all_None. intros p_y.
    apply bind_all_None. intros p_uv.
    pose proof (new_cells_null (u_tmp_init junk) _ h Hnull) as Hu0.
    destruct (new_cells (u_tmp_init junk) (Nat.shiftr in_w 2) h)
      as [[u_blk u0] h1]. cbn [fst snd] in Hu0. subst u0.
    destruct (new_cells (v_tmp_init junk) (Nat.shiftr in_w 2) h1)
      as [[v_blk v0] h2].
    rewrite for_S. unfold rows_410.
    rewrite (for_None (λ st, length (cells_of st) = 0)%nat
               (row_410_first d) 0%nat); [done|..].
    + intros i st st' HI Hb. by rewrite (row_410_first_cells _ _ _ _ Hb).
    + intros st HI. apply row_410_first_outside. rewrite HI. lia.
    + done.
    + lia.
Qed.

Lemma on_heap_inv h r out h' : on_heap h r = Some (out, h') → h' = h.
Proof. destruct r; [|done]. by intros [= _ <-]. Qed.

(** The heap a writer leaves does not depend on what uninitialised
    storage held. *)
Lemma transform_to_heap_indep {A : AllocT} Tar d in_w in_h ot junk junk' h
    out1 h1 out2 h2 :
  transform_to Tar d in_w in_h ot junk h = Some (out1, h1) →
  transform_to Tar d in_w in_h ot junk' h = Some (out2, h2) →
  h1 = h2.
Proof.
  intros H1 H2.
  destruct Tar; try discriminate H1;
    try (apply on_heap_inv in H1; apply on_heap_inv in H2; congruence);
    try (apply transform_to_420_heap in H1; apply transform_to_420_heap in H2;
         congruence);
    (apply transform_to_410_heap in H1; apply transform_to_410_heap in H2;
     congruence).
Qed.
End writer_facts.

(** X10.  Luma is never subsampled: in every subsampled layout, packed or
    planar, the writer stores the Y of every pixel, unaveraged, at the
    byte the layout gives to that pixel ([y_index]), and the output has
    the length of the destination.  The writers with accumulator arrays
    need the allocator to deliver them. *)
Theorem X10_luma_per_pixel (A : AllocT) (Tar : supported)
    (in_data : list rgb_t.t) (in_w in_h : nat) (ot_data : list Z)
    (junk : detail_transform_.indeterminate) (h : heap) :
  is_subsampled Tar = true →
  aligned Tar in_w in_h →
  widest_size Tar (Z.of_nat in_w * Z.of_nat in_h) < 2 ^ size_bits →
  length in_data = (in_w * in_h)%nat →
  calculate_size Tar (Z.of_nat in_w) (Z.of_nat in_h)
  = Some (Z.of_nat (length ot_data)) →
  accumulators_allocated Tar in_w h →
  ∃ out h',
    detail_transform_.transform_to Tar in_data in_w in_h ot_data junk h
    = Some (out, h')
    ∧ length out = length ot_data
    ∧ ∀ i, (i < in_w * in_h)%nat →
        out !! y_index Tar i = Some (pixel_convert plane_Y (pixel_at in_data i)).
Proof.
  intros HT Hal Hfit Hd Hsz Hacc.
  destruct (transform_to_subsampled Tar in_data in_w in_h ot_data junk h
              HT Hal Hfit Hd Hsz Hacc) as (out & h' & Hrun & Hlen & HY & _).
  exists out, h'. split; [done|]. split; [done|]. exact HY.
Qed.

Lemma X10_luma_per_pixel_witness :
  ∃ out h',
    detail_transform_.transform_to (A := allocator bump_new unmapping_delete)
      yuv_YU12 (replicate 7 px_red ++ [px_green]) 4 2 (replicate 12 0)
      junk_cd ∅ = Some (out, h')
    ∧ out !! 7%nat = Some 144.
Proof.
  destruct (X10_luma_per_pixel (allocator bump_new unmapping_delete)
              yuv_YU12 (replicate 7 px_red ++ [px_green]) 4 2
              (replicate 12 0) junk_cd ∅ eq_refl eq_refl)
    as (out & h' & Hrun & _ & HY);
    [reflexivity|reflexivity|reflexivity
    |right; vm_compute; split; intros H; discriminate H|].
  exists out, h'. split; [exact Hrun|].
  exact (HY 7%nat (le_n 8)).
Defined.

(** X11.  What an incomplete block row costs: a 4:2:0 (4:1:0) writer
    emits chroma for complete pairs (quadruples) of rows only, so when the
    height is not a multiple of 2 (of 4) the chroma samples of the last
    rows are never written: the bytes of both chroma planes from sample
    number [chroma_count] up to the capacity of the plane are what the
    destination held before (the accumulator arrays being delivered by
    the allocator). *)
Theorem X11_trailing_rows_have_no_chroma (A : AllocT) (Tar : supported)
    (in_data : list rgb_t.t) (in_w in_h : nat) (ot_data : list Z)
    (junk : detail_transform_.indeterminate) (h : heap) :
  is_420 Tar || is_410 Tar = true →
  aligned Tar in_w in_h →
  widest_size Tar (Z.of_nat in_w * Z.of_nat in_h) < 2 ^ size_bits →
  length in_data = (in_w * in_h)%nat →
  calculate_size Tar (Z.of_nat in_w) (Z.of_nat in_h)
  = Some (Z.of_nat (length ot_data)) →
  accumulators_allocated Tar in_w h →
  ∃ out h',
    detail_transform_.transform_to Tar in_data in_w in_h ot_data junk h
    = Some (out, h')
    ∧ ∀ m, (chroma_count Tar in_w in_h ≤ m < chroma_capacity Tar (in_w * in_h))%nat →
        out !! cb_pos Tar (in_w * in_h) m = ot_data !! cb_pos Tar (in_w * in_h) m
        ∧ out !! cr_pos Tar (in_w * in_h) m
          = ot_data !! cr_pos Tar (in_w * in_h) m.
Proof.
  intros HT Hal Hfit Hd Hsz Hacc.
  assert (is_subsampled Tar = true ∧ is_planar Tar = true) as [HS HP]
    by (by destruct Tar).
  destruct (transform_to_subsampled Tar in_data in_w in_h ot_data junk h
              HS Hal Hfit Hd Hsz Hacc) as (out & h' & Hrun & _ & _ & _ & HF).
  exists out, h'. split; [done|]. intros m Hm.
  destruct (sized_length Tar in_w in_h ot_data Hfit Hsz) as (_ & Hpre & Hlen).
  assert (in_w * in_h + 2 * chroma_capacity Tar (in_w * in_h)
          ≤ length ot_data)%nat as Hcap.
  { destruct Tar; try discriminate; unfold chroma_capacity;
      unfold required_bytes, size_precondition in *; lia. }
  assert (chroma_count Tar in_w in_h ≤ chroma_capacity Tar (in_w * in_h))%nat
    as Hcc by lia.
  assert (Hcb : ∀ n, cb_index Tar (in_w * in_h) n = cb_pos Tar (in_w * in_h) n)
    by (by destruct Tar).
  assert (Hcr : ∀ n, cr_index Tar (in_w * in_h) n = cr_pos Tar (in_w * in_h) n)
    by (by destruct Tar).
  assert (Hy : ∀ i, y_index Tar i = i) by (by destruct Tar).
  destruct (layout_ok Tar (in_w * in_h) (length ot_data) HP Hcap m)
    as (Hb & Hr & Hsep); [lia|].
  split; apply HF.
  - intros i Hi. rewrite Hy. lia.
  - intros n Hn. rewrite Hcb, Hcr.
    destruct (Hsep n) as (H1 & H2 & H3); [lia|].
    split; [intros Heq; apply H2 in Heq; lia|done].
  - intros i Hi. rewrite Hy. lia.
  - intros n Hn. rewrite Hcb, Hcr.
    destruct (layout_ok Tar (in_w * in_h) (length ot_data) HP Hcap n)
      as (_ & _ & Hsep'); [lia|].
    destruct (Hsep' m) as (H1 & H2 & H3); [lia|].
    split; [intros Heq; by apply H1|
            intros Heq; symmetry in Heq; apply H3 in Heq; lia].
Qed.

Lemma X11_trailing_rows_have_no_chroma_witness :
  ∃ out h',
    detail_transform_.transform_to (A := allocator bump_new unmapping_delete)
      yuv_YU12 (replicate 12 px_red) 4 3 (replicate 18 7) junk_cd ∅
    = Some (out, h')
    ∧ out !! 14%nat = Some 7 ∧ out !! 17%nat = Some 7.
Proof.
  destruct (X11_trailing_rows_have_no_chroma
              (allocator bump_new unmapping_delete) yuv_YU12
              (replicate 12 px_red) 4 3 (replicate 18 7) junk_cd ∅
              eq_refl eq_refl)
    as (out & h' & Hrun & HF);
    [reflexivity|reflexivity|reflexivity
    |right; vm_compute; split; intros H; discriminate H|].
  exists out, h'. split; [exact Hrun|].
  refine (HF 2%nat _). vm_compute. split; [apply le_n|apply le_n].
Defined.

(** X12.  The writers never let uninitialised storage reach the output:
    whatever the accumulator variables and the accumulator arrays the
    allocator delivered hold to begin with, every subsampled writer
    returns, produces the same bytes and leaves the same heap. *)
Theorem X12_output_ignores_uninitialised (A : AllocT) (Tar : supported)
    (in_data : list rgb_t.t) (in_w in_h : nat) (ot_data : list Z)
    (junk junk' : detail_transform_.indeterminate) (h : heap) :
  is_subsampled Tar = true →
  aligned Tar in_w in_h →
  widest_size Tar (Z.of_nat in_w * Z.of_nat in_h) < 2 ^ size_bits →
  length in_data = (in_w * in_h)%nat →
  calculate_size Tar (Z.of_nat in_w) (Z.of_nat in_h)
  = Some (Z.of_nat (length ot_data)) →
  accumulators_allocated Tar in_w h →
  is_Some (detail_transform_.transform_to Tar in_data in_w in_h ot_data junk h)
  ∧ detail_transform_.transform_to Tar in_data in_w in_h ot_data junk h
    = detail_transform_.transform_to Tar in_data in_w in_h ot_data junk' h.
Proof.
  intros HT Hal Hfit Hd Hsz Hacc.
  destruct (transform_to_subsampled Tar in_data in_w in_h ot_data junk h
              HT Hal Hfit Hd Hsz Hacc) as (out & h1 & Hrun & Hok).
  destruct (transform_to_subsampled Tar in_data in_w in_h ot_data junk' h
              HT Hal Hfit Hd Hsz Hacc) as (out' & h2 & Hrun' & Hok').
  pose proof (transform_to_heap_indep _ _ _ _ _ _ _ _ _ _ _ _ Hrun Hrun')
    as ->.
  rewrite Hrun, Hrun'. split; [by eexists|]. do 2 f_equal.
  by eapply subsampled_ok_unique.
Qed.

Lemma X12_output_ignores_uninitialised_witness :
  let A := allocator bump_new unmapping_delete in
  detail_transform_.transform_to yuv_YUV9
    (replicate 8 px_red ++ replicate 8 px_blue) 4 4 (replicate 18 0) junk_cd ∅
  = detail_transform_.transform_to yuv_YUV9
      (replicate 8 px_red ++ replicate 8 px_blue) 4 4 (replicate 18 0)
      {| detail_transform_.u_k_init := 1; detail_transform_.v_k_init := 2;
         detail_transform_.u_tmp_init := λ k, Z.of_nat k;
         detail_transform_.v_tmp_init := λ _, 65535 |} ∅.
Proof.
  intros A.
  apply (X12_output_ignores_uninitialised A); try reflexivity.
  right. vm_compute. split; intros H; discriminate H.
Defined.

(** X13.  A row that is not a whole number of chroma blocks has no
    defined result: for every 4:2:0 target and odd width, and for every
    4:1:0 target and width that is not a multiple of 4, the writer indexes
    its accumulator array one past its end in the first row, whatever the
    pixels, the destination and the height (at least one row). *)
Theorem X13_misaligned_width_is_out_of_bounds (A : AllocT) (Tar : supported)
    (in_data : list rgb_t.t) (in_w in_h : nat) (ot_data : list Z)
    (junk : detail_transform_.indeterminate) (h : heap) :
  (is_420 Tar = true ∧ in_w mod 2 ≠ 0 ∨ is_410 Tar = true ∧ in_w mod 4 ≠ 0)%nat →
  (0 < in_h)%nat →
  detail_transform_.transform_to Tar in_data in_w in_h ot_data junk h = None.
Proof. apply transform_to_misaligned. Qed.

Lemma X13_misaligned_width_is_out_of_bounds_witness :
  detail_transform_.transform_to (A := allocator bump_new unmapping_delete)
    yuv_YVU9 (replicate 96 px_green) 6 16 (replicate 108 0) junk_cd ∅ = None.
Proof.
  apply X13_misaligned_width_is_out_of_bounds; [|lia].
  right. split; [reflexivity|]. vm_compute. discriminate.
Defined.

(** X23.  The accumulator arrays are never tested: when the allocator
    returns a null pointer for the first array of a 4:2:0 or 4:1:0 writer
    (it has no memory left), the writer stores the chroma of the first
    pixel through that pointer, so on an image with at least one pixel it
    has no defined result, whatever the pixels and the destination. *)
Theorem X23_null_accumulator_is_dereferenced (A : AllocT) (Tar : supported)
    (in_data : list rgb_t.t) (in_w in_h : nat) (ot_data : list Z)
    (junk : detail_transform_.indeterminate) (h : heap) :
  is_420 Tar || is_410 Tar = true →
  (0 < in_w)%nat → (0 < in_h)%nat →
  scope_block.data
    (scope_block.new (T:=elem_uint16_t)
       (Z.of_nat (accumulator_cells Tar in_w)) h).1 = NULL →
  detail_transform_.transform_to Tar in_data in_w in_h ot_data junk h = None.
Proof. apply transform_to_null_accumulator. Qed.

Lemma X23_null_accumulator_is_dereferenced_witness :
  detail_transform_.transform_to (A := allocator exhausted_new silent_delete)
    yuv_NV12 (replicate 16 px_blue) 4 4 (replicate 24 0) junk_cd ∅ = None.
Proof.
  apply X23_null_accumulator_is_dereferenced;
    [reflexivity|lia|lia|reflexivity].
Defined.

(** ** The normaliser: what it writes *)

Section normaliser_values.
Import detail_rgb_format_.
Local Arguments Z.mul : simpl never.
Local Arguments Z.add : simpl never.
Local Arguments Z.shiftl : simpl never.
Local Arguments Z.shiftr : simpl never.
Local Arguments Z.land : simpl never.
Local Arguments to_size_t : simpl never.
Local Arguments to_uint8 : simpl never.
Local Arguments load : simpl never.
Local Arguments load_uint16 : simpl never.
Local Arguments store : simpl never.
Local Arguments load_rgb : simpl never.

Lemma to_uint8_idem x : to_uint8 (to_uint8 x) = to_uint8 x.
Proof. unfold to_uint8. by rewrite Z.mod_mod. Qed.

Lemma load_outside lo hi h0 h p :
  writes_within lo hi h0 h → ¬ (lo ≤ p < hi) → load h p = load h0 p.
Proof. intros [_ Hout] Hp. unfold load. by rewrite Hout. Qed.

Lemma load_uint16_outside lo hi h0 h p :
  writes_within lo hi h0 h → ¬ (lo ≤ p < hi) → ¬ (lo ≤ p + 1 < hi) →
  load_uint16 h p = load_uint16 h0 p.
Proof.
  intros Hw Hp Hq. unfold load_uint16.
  by rewrite (load_outside _ _ _ _ p Hw), (load_outside _ _ _ _ (p + 1) Hw).
Qed.

Lemma store_step_eq lo hi h0 h p v :
  writes_within lo hi h0 h → lo ≤ p < hi → is_Some (h0 !! p) →
  store h p v = Some (<[p := to_uint8 v]> h)
  ∧ writes_within lo hi h0 (<[p := to_uint8 v]> h).
Proof.
  intros [Hdom Hout] Hin Hp. pose proof Hp as Hp'.
  apply Hdom in Hp' as [old Hold].
  unfold store. rewrite Hold. simpl. split; [done|]. split.
  - intros a. destruct (decide (a = p)) as [->|Hne].
    + rewrite lookup_insert_eq. split; [done|eauto].
    + rewrite lookup_insert_ne by done. apply Hdom.
  - intros a Ha. rewrite lookup_insert_ne by (intros ->; lia). by apply Hout.
Qed.

Lemma load_insert_eq h p v : load (<[p := v]> h) p = Some (to_uint8 v).
Proof. unfold load. by rewrite lookup_insert_eq. Qed.

Lemma load_insert_ne h p q v : p ≠ q → load (<[p := v]> h) q = load h q.
Proof. intros ?. unfold load. by rewrite lookup_insert_ne. Qed.

Lemma copy_loop_inv (Inv : Z → heap → Prop) (step n : Z)
    (body : Z * ptr * ptr * heap → option (Z * ptr * ptr * heap))
    (in0 ot0 : Z) (h0 : heap) :
  0 < step → 0 ≤ n → step * n < 2 ^ size_bits →
  Inv 0 h0 →
  (∀ k h, 0 ≤ k < n → Inv k h →
     ∃ i' c' o' h',
       body (step * k, in0 + step * k, ot0 + 3 * k, h) = Some (i', c', o', h')
       ∧ i' = step * (k + 1) ∧ c' = in0 + step * (k + 1)
       ∧ o' = ot0 + 3 * (k + 1) ∧ Inv (k + 1) h') →
  ∃ st,
    while_ (Z.to_nat (step * n)) (λ '(i, _, _, _), i <? step * n) body
      (0, in0, ot0, h0) = Some st
    ∧ Inv n st.2.
Proof.
  intros Hstep Hn Hfit H0 Hbody.
  destruct (while_inv
              (λ st, ∃ k h, st = (step * k, in0 + step * k, ot0 + 3 * k, h)
                            ∧ 0 ≤ k ≤ n ∧ Inv k h)
              (λ st, Z.to_nat (step * n - st.1.1.1))
              (λ '(i, _, _, _), i <? step * n) body) with
    (fuel := Z.to_nat (step * n)) (st := (0, in0, ot0, h0))
    as (st & Hrun & (k & h & -> & Hk & HI) & Hc).
  - intros st (k & h & -> & Hk & HI) Hc.
    apply Z.ltb_lt in Hc.
    destruct (Hbody k h) as (i' & c' & o' & h' & Hb & -> & -> & -> & HI');
      [nia|done|].
    eexists. split; [exact Hb|]. split.
    + exists (k + 1), h'. split; [done|]. split; [nia|done].
    + simpl. nia.
  - exists 0, h0. split; [repeat f_equal; lia|]. split; [lia|done].
  - simpl. lia.
  - eexists. split; [exact Hrun|]. simpl.
    apply Z.ltb_ge in Hc. assert (k = n) as -> by nia. done.
Qed.

Lemma load_rgb_insert_ne h p a v :
  ¬ (p ≤ a < p + 3) → load_rgb (<[a := v]> h) p = load_rgb h p.
Proof.
  intros Ha. unfold load_rgb, offset_b_, offset_g_, offset_r_.
  by rewrite !load_insert_ne by lia.
Qed.

Lemma load_rgb_inserts h p b g r :
  load_rgb (<[p + 0 := b]> (<[p + 1 := g]> (<[p + 2 := r]> h))) p
  = Some (rgb_t.mk (to_uint8 b) (to_uint8 g) (to_uint8 r)).
Proof.
  assert (load (<[p + 0 := b]> (<[p + 1 := g]> (<[p + 2 := r]> h))) (p + 0)
          = Some (to_uint8 b)) as H0 by apply load_insert_eq.
  assert (load (<[p + 0 := b]> (<[p + 1 := g]> (<[p + 2 := r]> h))) (p + 1)
          = Some (to_uint8 g)) as H1
    by (rewrite load_insert_ne by lia; apply load_insert_eq).
  assert (load (<[p + 0 := b]> (<[p + 1 := g]> (<[p + 2 := r]> h))) (p + 2)
          = Some (to_uint8 r)) as H2
    by (rewrite !load_insert_ne by lia; apply load_insert_eq).
  unfold load_rgb, offset_b_, offset_g_, offset_r_.
  rewrite H0. simpl. rewrite H1. simpl. rewrite H2. done.
Qed.

Ltac val_step Hsrc Hdst :=
  match goal with
  | Hw : writes_within ?lo ?hi ?h0 ?h |- context [load_uint16 ?h ?p] =>
      rewrite (load_uint16_outside lo hi h0 h p Hw) by lia;
      rewrite Hsrc by lia; simpl
  | Hw : writes_within ?lo ?hi ?h0 ?h |- context [load ?h ?p] =>
      rewrite (load_outside lo hi h0 h p Hw) by lia;
      rewrite Hsrc by lia; simpl
  | Hw : writes_within ?lo ?hi ?h0 ?h |- context [store ?h ?p ?v] =>
      let Hw' := fresh "Hw" in
      destruct (store_step_eq lo hi h0 h p v Hw) as [-> Hw'];
      [lia | apply Hdst; lia | clear Hw; simpl]
  end.

Lemma bmp_16_transform_values MR MG MB SR SG SB in0 ot0 n h0 (src : Z → Z) :
  0 ≤ n → 2 * n < 2 ^ size_bits → in0 ≠ ot0 →
  (∀ k, 0 ≤ k < n → load_uint16 h0 (in0 + 2 * k) = Some (src k)) →
  mapped ot0 (ot0 + 3 * n) h0 →
  disjoint_ranges in0 (2 * n) ot0 (3 * n) →
  ∃ h',
    bmp_16_transform MR MG MB SR SG SB in0 (2 * n) ot0 h0 = Some h'
    ∧ writes_within ot0 (ot0 + 3 * n) h0 h'
    ∧ ∀ k, 0 ≤ k < n →
        load_rgb h' (ot0 + 3 * k) = Some (expand_16 MR MG MB SR SG SB (src k)).
Proof.
  intros Hn Hfit Hne Hsrc Hdst Hdisj. unfold disjoint_ranges in Hdisj.
  unfold bmp_16_transform.
  rewrite (proj2 (Z.eqb_neq in0 ot0) Hne). simpl.
  replace (Z.land (2 * n) 1 =? 0) with true
    by (symmetry; apply Z.eqb_eq; change 1 with (Z.ones 1);
        rewrite Z.land_ones by lia; change (2 ^ 1) with 2; lia).
  simpl.
  destruct (copy_loop_inv
    (λ k h, writes_within ot0 (ot0 + 3 * n) h0 h
            ∧ ∀ j, 0 ≤ j < k →
                load_rgb h (ot0 + 3 * j)
                = Some (expand_16 MR MG MB SR SG SB (src j)))
    2 n (bmp_16_body MR MG MB SR SG SB) in0 ot0 h0)
    as (st & -> & Hw & Hval); [lia|lia|lia| | |by eauto].
  - split; [apply writes_within_refl|]. intros j Hj. lia.
  - intros k h Hk [Hw Hval].
    unfold bmp_16_body, offset_r_, offset_g_, offset_b_, sizeof_rgb_t,
      sizeof_uint16_t.
    do 6 val_step Hsrc Hdst.
    do 4 eexists. split; [reflexivity|].
    rewrite to_size_t_small by (unfold is_size_t; lia).
    split; [lia|]. split; [lia|]. split; [lia|]. split; [done|].
    intros j Hj. destruct (decide (j = k)) as [->|Hjk].
    + rewrite load_rgb_inserts. unfold expand_16.
      by rewrite !to_uint8_idem.
    + rewrite !load_rgb_insert_ne by lia. apply Hval. lia.
Qed.

Lemma load_rgb_inserts_rev h p b g r :
  load_rgb (<[p + 2 := r]> (<[p + 1 := g]> (<[p + 0 := b]> h))) p
  = Some (rgb_t.mk (to_uint8 b) (to_uint8 g) (to_uint8 r)).
Proof.
  assert (load (<[p + 2 := r]> (<[p + 1 := g]> (<[p + 0 := b]> h))) (p + 0)
          = Some (to_uint8 b)) as H0
    by (rewrite !load_insert_ne by lia; apply load_insert_eq).
  assert (load (<[p + 2 := r]> (<[p + 1 := g]> (<[p + 0 := b]> h))) (p + 1)
          = Some (to_uint8 g)) as H1
    by (rewrite load_insert_ne by lia; apply load_insert_eq).
  assert (load (<[p + 2 := r]> (<[p + 1 := g]> (<[p + 0 := b]> h))) (p + 2)
          = Some (to_uint8 r)) as H2 by apply load_insert_eq.
  unfold load_rgb, offset_b_, offset_g_, offset_r_.
  rewrite H0. simpl. rewrite H1. simpl. rewrite H2. done.
Qed.

Lemma load_byte_at h a : is_Some (h !! a) → load h a = Some (byte_at h a).
Proof. intros [v Hv]. unfold byte_at, load. by rewrite Hv. Qed.

Lemma byte_at_uint8 h a : to_uint8 (byte_at h a) = byte_at h a.
Proof.
  unfold byte_at, load. destruct (h !! a); simpl; [apply to_uint8_idem|done].
Qed.

Lemma load_rgb_byte_at h p :
  mapped p (p + 3) h →
  load_rgb h p
  = Some (rgb_t.mk (byte_at h (p + 0)) (byte_at h (p + 1)) (byte_at h (p + 2))).
Proof.
  intros Hm. unfold load_rgb, offset_b_, offset_g_, offset_r_.
  rewrite !load_byte_at by (apply Hm; lia). done.
Qed.

Lemma rgb_888X_values in0 ot0 n h0 :
  0 ≤ n → 4 * n < 2 ^ size_bits → in0 ≠ ot0 →
  mapped in0 (in0 + 4 * n) h0 →
  mapped ot0 (ot0 + 3 * n) h0 →
  disjoint_ranges in0 (4 * n) ot0 (3 * n) →
  ∃ h',
    to_888 rgb_888X in0 (4 * n) ot0 h0 = Some h'
    ∧ writes_within ot0 (ot0 + 3 * n) h0 h'
    ∧ ∀ k, 0 ≤ k < n →
        load_rgb h' (ot0 + 3 * k) = load_rgb h0 (in0 + 4 * k)
        ∧ is_Some (load_rgb h0 (in0 + 4 * k)).
Proof.
  intros Hn Hfit Hne Hmap Hdst Hdisj. unfold disjoint_ranges in Hdisj.
  assert (Hsrc : ∀ a, in0 ≤ a < in0 + 4 * n → load h0 a = Some (byte_at h0 a))
    by (intros a Ha; apply load_byte_at, Hmap, Ha).
  unfold to_888.
  rewrite (proj2 (Z.eqb_neq in0 ot0) Hne). simpl.
  replace (4 * n mod 4 =? 0) with true by (symmetry; apply Z.eqb_eq; lia).
  simpl.
  destruct (copy_loop_inv
    (λ k h, writes_within ot0 (ot0 + 3 * n) h0 h
            ∧ ∀ j, 0 ≤ j < k →
                load_rgb h (ot0 + 3 * j) = load_rgb h0 (in0 + 4 * j))
    4 n rgb_888X_body in0 ot0 h0)
    as (st & -> & Hw & Hval); [lia|lia|lia| | |].
  - split; [apply writes_within_refl|]. intros j Hj. lia.
  - intros k h Hk [Hw Hval].
    unfold rgb_888X_body, offset_r_, offset_g_, offset_b_, sizeof_rgb_t,
      sizeof_uint32_t.
    do 6 val_step Hsrc Hdst.
    do 4 eexists. split; [reflexivity|].
    rewrite to_size_t_small by (unfold is_size_t; lia).
    split; [lia|]. split; [lia|]. split; [lia|]. split; [done|].
    intros j Hj. destruct (decide (j = k)) as [->|Hjk].
    + rewrite load_rgb_inserts_rev, !byte_at_uint8.
      symmetry. apply load_rgb_byte_at. intros a Ha. apply Hmap. lia.
    + rewrite !load_rgb_insert_ne by lia. apply Hval. lia.
  - eexists. split; [reflexivity|]. split; [done|].
    intros k Hk. split; [by apply Hval|].
    rewrite load_rgb_byte_at; [by eexists|].
    intros a Ha. apply Hmap. lia.
Qed.

Lemma rgb_444_values in0 ot0 n h0 :
  0 < n → 3 * n < 2 ^ size_bits → in0 ≠ ot0 →
  mapped in0 (in0 + 3 * n) h0 →
  mapped ot0 (ot0 + 3 * (n + 1)) h0 →
  disjoint_ranges in0 (3 * n) ot0 (3 * (n + 1)) →
  ∃ h',
    to_888 rgb_444 in0 (3 * n) ot0 h0 = Some h'
    ∧ writes_within ot0 (ot0 + 3 * (n + 1)) h0 h'
    ∧ (∀ k, 0 ≤ k < n →
         load_rgb h' (ot0 + 3 * k)
         = Some (unpack_444_first (byte_at h0 (in0 + 3 * k))
                   (byte_at h0 (in0 + 3 * k + 1))))
    ∧ load_rgb h' (ot0 + 3 * n)
      = Some (unpack_444_second (byte_at h0 (in0 + 3 * (n - 1) + 1))
                (byte_at h0 (in0 + 3 * (n - 1) + 2))).
Proof.
  intros Hn Hfit Hne Hmap Hdst Hdisj. unfold disjoint_ranges in Hdisj.
  assert (Hsrc : ∀ a, in0 ≤ a < in0 + 3 * n → load h0 a = Some (byte_at h0 a))
    by (intros a Ha; apply load_byte_at, Hmap, Ha).
  unfold to_888.
  rewrite (proj2 (Z.eqb_neq in0 ot0) Hne). simpl.
  replace (3 * n mod 3 =? 0) with true by (symmetry; apply Z.eqb_eq; lia).
  simpl.
  destruct (copy_loop_inv
    (λ k h, writes_within ot0 (ot0 + 3 * (n + 1)) h0 h
            ∧ (∀ j, 0 ≤ j < k →
                 load_rgb h (ot0 + 3 * j)
                 = Some (unpack_444_first (byte_at h0 (in0 + 3 * j))
                           (byte_at h0 (in0 + 3 * j + 1))))
            ∧ (0 < k →
               load_rgb h (ot0 + 3 * k)
               = Some (unpack_444_second (byte_at h0 (in0 + 3 * (k - 1) + 1))
                         (byte_at h0 (in0 + 3 * (k - 1) + 2)))))
    3 n rgb_444_body in0 ot0 h0)
    as (st & -> & Hw & Hval & Hlast); [lia|lia|lia| | |].
  - split; [apply writes_within_refl|]. split; intros; lia.
  - intros k h Hk (Hw & Hval & Hlast).
    unfold rgb_444_body, offset_r_, offset_g_, offset_b_, sizeof_rgb_t.
    do 12 val_step Hsrc Hdst.
    do 4 eexists. split; [reflexivity|].
    rewrite to_size_t_small by (unfold is_size_t; lia).
    split; [lia|]. split; [lia|]. split; [lia|]. split; [done|]. split.
    + intros j Hj. destruct (decide (j = k)) as [->|Hjk].
      * rewrite !(load_rgb_insert_ne _ (ot0 + 3 * k) (ot0 + 3 * k + 3 + _))
          by lia.
        rewrite load_rgb_inserts_rev. unfold unpack_444_first.
        by rewrite !to_uint8_idem.
      * rewrite !load_rgb_insert_ne by lia. apply Hval. lia.
    + intros _. replace (k + 1 - 1) with k by lia.
      replace (ot0 + 3 * (k + 1)) with (ot0 + 3 * k + 3) by lia.
      rewrite load_rgb_inserts_rev. unfold unpack_444_second.
      rewrite !to_uint8_idem.
      replace (in0 + 3 * k + 1 + 1) with (in0 + 3 * k + 2) by lia. done.
  - eexists. split; [reflexivity|]. split; [done|]. split; [done|].
    by apply Hlast.
Qed.

Lemma all_from_spec check :
  ∀ fuel from, all_from fuel from check = true →
    ∀ x, from ≤ x < from + Z.of_nat fuel → check x = true.
Proof.
  induction fuel as [|fuel IH]; intros from Hall x Hx; [lia|].
  simpl in Hall. apply andb_prop in Hall as [H0 Hrest].
  destruct (decide (x = from)) as [->|Hne]; [done|].
  apply (IH (from + 1)); [done|lia].
Qed.

Lemma rgb_eqb_eq p q : rgb_eqb p q = true → p = q.
Proof.
  destruct p, q. unfold rgb_eqb. simpl. intros H.
  apply andb_prop in H as [H Hr]. apply andb_prop in H as [Hb Hg].
  apply Z.eqb_eq in Hb, Hg, Hr. by subst.
Qed.

Lemma expand_565_channels px :
  0 ≤ px < 65536 → expand_565 px = channels_565 px.
Proof.
  intros Hpx. apply rgb_eqb_eq.
  apply (all_from_spec (λ x, rgb_eqb (expand_565 x) (channels_565 x))
           (Z.to_nat 65536) 0); [vm_compute; reflexivity|lia].
Qed.

Lemma expand_555_channels px :
  0 ≤ px < 65536 → expand_555 px = channels_555 px.
Proof.
  intros Hpx. apply rgb_eqb_eq.
  apply (all_from_spec (λ x, rgb_eqb (expand_555 x) (channels_555 x))
           (Z.to_nat 65536) 0); [vm_compute; reflexivity|lia].
Qed.

Lemma load_uint16_range h p px : load_uint16 h p = Some px → 0 ≤ px < 65536.
Proof.
  unfold load_uint16, load. destruct (h !! p) as [lo|]; [simpl|done].
  destruct (h !! (p + 1)) as [hi|]; [simpl|done]. intros [= <-].
  rewrite Z.shiftl_mul_pow2 by lia. unfold to_uint8.
  pose proof (Z.mod_pos_bound lo (2 ^ 8)). pose proof (Z.mod_pos_bound hi (2 ^ 8)).
  change (2 ^ 8) with 256 in *. lia.
Qed.

Lemma load_uint16_mapped h p :
  is_Some (h !! p) → is_Some (h !! (p + 1)) → is_Some (load_uint16 h p).
Proof.
  intros [lo Hlo] [hi Hhi]. unfold load_uint16, load. rewrite Hlo, Hhi.
  by eexists.
Qed.

Lemma while_first_None {St : Type} fuel (cond : St → bool) body st :
  cond st = true → body st = None → while_ fuel cond body st = None.
Proof. intros Hc Hb. destruct fuel; simpl; rewrite Hc; [done|by rewrite Hb]. Qed.

Lemma bind_all_None_l {A B : Type} (m : option A) (f : A → option B) :
  m = None → m ≫= f = None.
Proof. by intros ->. Qed.

Lemma store_unmapped h p v : h !! p = None → store h p v = None.
Proof. intros H. unfold store. by rewrite H. Qed.
End normaliser_values.

Lemma rgb_format_16_values (S : supported) (in_rgb ot_rgb : ptr) (n : Z)
    (h0 : heap) :
  S = rgb_565 ∨ S = rgb_555 →
  0 ≤ n → 2 * n < 2 ^ size_bits → in_rgb ≠ ot_rgb →
  mapped in_rgb (in_rgb + 2 * n) h0 →
  mapped ot_rgb (ot_rgb + 3 * n) h0 →
  disjoint_ranges in_rgb (2 * n) ot_rgb (3 * n) →
  ∃ h',
    rgb_format S in_rgb (2 * n) ot_rgb h0 = Some h'
    ∧ writes_within ot_rgb (ot_rgb + 3 * n) h0 h'
    ∧ ∀ k, 0 ≤ k < n →
        ∃ px,
          detail_rgb_format_.load_uint16 h0 (in_rgb + 2 * k) = Some px
          ∧ 0 ≤ px < 65536
          ∧ load_rgb h' (ot_rgb + 3 * k)
            = Some (if tag_eqb S rgb_565 then channels_565 px
                    else channels_555 px).
Proof.
  intros HS Hn Hfit Hne Hsrc Hdst Hdisj.
  set (src := λ k, default 0 (detail_rgb_format_.load_uint16 h0 (in_rgb + 2 * k))).
  assert (Hload : ∀ k, 0 ≤ k < n →
            detail_rgb_format_.load_uint16 h0 (in_rgb + 2 * k) = Some (src k)).
  { intros k Hk. unfold src.
    destruct (load_uint16_mapped h0 (in_rgb + 2 * k)) as [px ->];
      [apply Hsrc; lia|apply Hsrc; lia|done]. }
  destruct HS as [-> | ->]; unfold rgb_format, detail_rgb_format_.to_888.
  - destruct (bmp_16_transform_values 63488 2016 31
                (λ x, Z.shiftr x 8) (λ x, Z.shiftr x 3) (λ x, Z.shiftl x 3)
                in_rgb ot_rgb n h0 src) as (h' & Hrun & Hw & Hval); try done.
    exists h'. split; [done|]. split; [done|]. intros k Hk.
    exists (src k). split; [by apply Hload|].
    pose proof (load_uint16_range _ _ _ (Hload k Hk)) as Hr.
    split; [done|]. rewrite Hval by done.
    change (tag_eqb rgb_565 rgb_565) with true. simpl. f_equal.
    by apply expand_565_channels.
  - destruct (bmp_16_transform_values 31744 992 31
                (λ x, Z.shiftr x 7) (λ x, Z.shiftr x 2) (λ x, Z.shiftl x 3)
                in_rgb ot_rgb n h0 src) as (h' & Hrun & Hw & Hval); try done.
    exists h'. split; [done|]. split; [done|]. intros k Hk.
    exists (src k). split; [by apply Hload|].
    pose proof (load_uint16_range _ _ _ (Hload k Hk)) as Hr.
    split; [done|]. rewrite Hval by done.
    change (tag_eqb rgb_555 rgb_565) with false. simpl. f_equal.
    by apply expand_555_channels.
Qed.


(** X14.  What the 16-bit normalisers write.  For RGB 565 and RGB 555,
    with source and destination apart, [rgb_format] returns, changes the
    heap inside the destination only, and pixel [k] of the destination is
    the expansion of the [k]-th little-endian 16-bit word of the source:
    each five- or six-bit field is moved to the top of its byte and the
    low bits are zero (555 ignores bit 15), so no channel ever exceeds 248
    (252 for the green of 565). *)
Theorem X14_expand_16_bit (S : supported) (in_rgb ot_rgb : ptr) (n : Z)
    (h0 : heap) :
  S = rgb_565 ∨ S = rgb_555 →
  0 ≤ n → 2 * n < 2 ^ size_bits → in_rgb ≠ ot_rgb →
  mapped in_rgb (in_rgb + 2 * n) h0 →
  mapped ot_rgb (ot_rgb + 3 * n) h0 →
  disjoint_ranges in_rgb (2 * n) ot_rgb (3 * n) →
  ∃ h',
    rgb_format S in_rgb (2 * n) ot_rgb h0 = Some h'
    ∧ writes_within ot_rgb (ot_rgb + 3 * n) h0 h'
    ∧ ∀ k, 0 ≤ k < n →
        ∃ px,
          detail_rgb_format_.load_uint16 h0 (in_rgb + 2 * k) = Some px
          ∧ 0 ≤ px < 65536
          ∧ load_rgb h' (ot_rgb + 3 * k)
            = Some (if tag_eqb S rgb_565 then channels_565 px
                    else channels_555 px).
Proof. apply rgb_format_16_values. Qed.

Lemma X14_expand_16_bit_witness :
  ∃ h',
    rgb_format rgb_565 100 4 4096 (arena_new 4096 6 heap_565).2 = Some h'
    ∧ load_rgb h' 4096 = Some (rgb_t.mk 248 0 248)
    ∧ load_rgb h' 4099 = Some (rgb_t.mk 0 252 0).
Proof.
  destruct (X14_expand_16_bit rgb_565 100 4096 2 (arena_new 4096 6 heap_565).2)
    as (h' & Hrun & _ & Hval).
  - by left.
  - lia.
  - reflexivity.
  - discriminate.
  - intros a Ha.
    assert (a = 100 ∨ a = 101 ∨ a = 102 ∨ a = 103)
      as [->|[->|[->| ->]]] by lia; vm_compute; eauto.
  - intros a Ha.
    assert (a = 4096 ∨ a = 4097 ∨ a = 4098 ∨ a = 4099 ∨ a = 4100 ∨ a = 4101)
      as [->|[->|[->|[->|[->| ->]]]]] by lia; vm_compute; eauto.
  - left. lia.
  - exists h'. split; [exact Hrun|].
    destruct (Hval 0) as (px0 & Hpx0 & _ & Hq0); [lia|].
    destruct (Hval 1) as (px1 & Hpx1 & _ & Hq1); [lia|].
    vm_compute in Hpx0. vm_compute in Hpx1.
    injection Hpx0 as <-. injection Hpx1 as <-.
    split; [exact Hq0|exact Hq1].
Defined.

(** X15.  What the padded-888 normaliser writes: with source and
    destination apart, pixel [k] of the destination is the first three
    bytes of the [k]-th four-byte group of the source, so the padding byte
    is dropped and nothing else changes. *)
Theorem X15_888X_drops_padding (in_rgb ot_rgb : ptr) (n : Z) (h0 : heap) :
  0 ≤ n → 4 * n < 2 ^ size_bits → in_rgb ≠ ot_rgb →
  mapped in_rgb (in_rgb + 4 * n) h0 →
  mapped ot_rgb (ot_rgb + 3 * n) h0 →
  disjoint_ranges in_rgb (4 * n) ot_rgb (3 * n) →
  ∃ h',
    rgb_format rgb_888X in_rgb (4 * n) ot_rgb h0 = Some h'
    ∧ writes_within ot_rgb (ot_rgb + 3 * n) h0 h'
    ∧ ∀ k, 0 ≤ k < n →
        load_rgb h' (ot_rgb + 3 * k) = load_rgb h0 (in_rgb + 4 * k)
        ∧ is_Some (load_rgb h0 (in_rgb + 4 * k)).
Proof. apply rgb_888X_values. Qed.

Lemma X15_888X_drops_padding_witness :
  ∃ h',
    rgb_format rgb_888X 100 4 4096 (arena_new 4096 3 heap_565).2 = Some h'
    ∧ load_rgb h' 4096 = Some (rgb_t.mk 31 248 224).
Proof.
  destruct (X15_888X_drops_padding 100 4096 1 (arena_new 4096 3 heap_565).2)
    as (h' & Hrun & _ & Hval).
  - lia.
  - reflexivity.
  - discriminate.
  - intros a Ha.
    assert (a = 100 ∨ a = 101 ∨ a = 102 ∨ a = 103)
      as [->|[->|[->| ->]]] by lia; vm_compute; eauto.
  - intros a Ha.
    assert (a = 4096 ∨ a = 4097 ∨ a = 4098) as [->|[->| ->]] by lia;
      vm_compute; eauto.
  - left. lia.
  - exists h'. split; [exact Hrun|].
    destruct (Hval 0) as [Hq _]; [lia|]. exact Hq.
Defined.

(** X16.  What the 4:4:4 normaliser writes.  Every three source bytes
    hold two pixels, but the loop advances the destination by one pixel
    per iteration: with [n] triples ([2·n] pixels) and source and array
    apart, the normaliser returns the array of the allocator with pixel
    [k < n] the first pixel of triple [k], pixel [n] the second pixel of
    the last triple, and every byte from pixel [n + 1] on as the allocator
    left it: the second pixel of every other triple is overwritten, and
    the upper part of the array is never written. *)
Theorem X16_444_writes_half (A : AllocT) (in_rgb : ptr) (in_w in_h n : Z)
    (h : heap) (p : ptr) (h1 : heap) :
  0 ≤ in_w → 0 ≤ in_h → in_w * in_h * 4 < 2 ^ size_bits →
  in_w * in_h = 2 * n → 0 < n →
  alloc (in_w * in_h * 3) h = (p, h1) →
  in_rgb ≠ p →
  mapped in_rgb (in_rgb + 3 * n) h1 →
  mapped p (p + 3 * (n + 1)) h1 →
  disjoint_ranges in_rgb (3 * n) p (3 * (n + 1)) →
  ∃ h',
    detail_transform_.rgb_formatter.to_888 rgb_444 in_rgb in_w in_h h
    = Some (scope_block.mk p (in_w * in_h * 3) true, h')
    ∧ (∀ k, 0 ≤ k < n →
         load_rgb h' (p + 3 * k)
         = Some (unpack_444_first (byte_at h1 (in_rgb + 3 * k))
                   (byte_at h1 (in_rgb + 3 * k + 1))))
    ∧ load_rgb h' (p + 3 * n)
      = Some (unpack_444_second (byte_at h1 (in_rgb + 3 * (n - 1) + 1))
                (byte_at h1 (in_rgb + 3 * (n - 1) + 2)))
    ∧ ∀ a, p + 3 * (n + 1) ≤ a → h' !! a = h1 !! a.
Proof.
  intros Hw Hh Hfit Hs Hn Hal Hne Hsrc Hdst Hdisj.
  rewrite (to_888_other_run rgb_444 in_rgb in_w in_h h p h1) by done.
  rewrite (calculate_size_formula rgb_444 in_w in_h) by done.
  unfold required_bytes. rewrite Hs.
  replace ((2 * n * 3 + 1) / 2) with (3 * n) by lia.
  cbn [mbind option_bind]. unfold rgb_format.
  destruct (rgb_444_values in_rgb p n h1) as (h' & -> & Hww & Hval & Hlast);
    try done; [lia|].
  cbn [mbind option_bind]. exists h'. split; [done|]. split; [done|]. split; [done|].
  intros a Ha. apply Hww. lia.
Qed.

Lemma X16_444_writes_half_witness :
  ∃ h',
    detail_transform_.rgb_formatter.to_888
      (A := allocator (arena_new 4096) silent_delete) rgb_444 100 4 1 heap_444
    = Some (scope_block.mk 4096 12 true, h')
    ∧ load_rgb h' 4099 = Some (rgb_t.mk 112 128 144)
    ∧ load_rgb h' 4102 = Some (rgb_t.mk 160 176 192)
    ∧ h' !! 4105 = Some 0.
Proof.
  destruct (X16_444_writes_half (allocator (arena_new 4096) silent_delete)
              100 4 1 2 heap_444 4096 (arena_new 4096 12 heap_444).2)
    as (h' & Hrun & Hval & Hlast & Hrest).
  - lia.
  - lia.
  - reflexivity.
  - reflexivity.
  - lia.
  - reflexivity.
  - discriminate.
  - intros a Ha.
    assert (a = 100 ∨ a = 101 ∨ a = 102 ∨ a = 103 ∨ a = 104 ∨ a = 105)
      as [->|[->|[->|[->|[->| ->]]]]] by lia; vm_compute; eauto.
  - intros a Ha.
    assert (a = 4096 ∨ a = 4097 ∨ a = 4098 ∨ a = 4099 ∨ a = 4100 ∨ a = 4101
            ∨ a = 4102 ∨ a = 4103 ∨ a = 4104)
      as [->|[->|[->|[->|[->|[->|[->|[->| ->]]]]]]]] by lia; vm_compute; eauto.
  - left. lia.
  - exists h'. split; [exact Hrun|].
    split; [exact (Hval 1 ltac:(lia))|]. split; [exact Hlast|].
    rewrite (Hrest 4105) by lia. vm_compute. reflexivity.
Defined.

(** X17.  A 4:4:4 source of an odd number of pixels is refused: its byte
    count [(3·pixels + 1) / 2] is not a multiple of 3, so the assertion of
    the normaliser fails whatever the buffers are. *)
Theorem X17_444_odd_count_is_refused (A : AllocT) (in_rgb : ptr) (in_w in_h : Z)
    (h : heap) :
  0 ≤ in_w → 0 ≤ in_h → in_w * in_h * 4 < 2 ^ size_bits →
  (in_w * in_h) mod 2 = 1 →
  detail_transform_.rgb_formatter.to_888 rgb_444 in_rgb in_w in_h h = None.
Proof.
  intros Hw Hh Hfit Hodd.
  destruct (alloc (in_w * in_h * 3) h) as [p h1] eqn:Hal.
  rewrite (to_888_other_run rgb_444 in_rgb in_w in_h h p h1) by done.
  rewrite (calculate_size_formula rgb_444 in_w in_h) by done.
  unfold required_bytes. cbn [mbind option_bind].
  unfold rgb_format, detail_rgb_format_.to_888.
  destruct (assert (negb (in_rgb =? p))); [cbn [mbind option_bind]|done].
  replace (((in_w * in_h * 3 + 1) / 2) mod 3 =? 0) with false; [done|].
  symmetry. apply Z.eqb_neq. lia.
Qed.

Lemma X17_444_odd_count_is_refused_witness :
  detail_transform_.rgb_formatter.to_888
    (A := allocator (arena_new 4096) silent_delete) rgb_444 100 3 1 heap_444
  = None.
Proof.
  apply X17_444_odd_count_is_refused; [lia|lia|reflexivity|reflexivity].
Defined.

(** X18.  A failed allocation is not noticed by the normaliser: when the
    allocator returns null for a non-empty image (and nothing is mapped at
    the addresses 0 to 2), the 565, 555, 444 and padded-888 normalisers
    store through the null pointer and have no defined result. *)
Theorem X18_normaliser_null_array (A : AllocT) (S : supported) (in_rgb : ptr)
    (in_w in_h : Z) (h h1 : heap) :
  is_other_rgb S = true →
  0 < in_w → 0 < in_h → in_w * in_h * 4 < 2 ^ size_bits →
  alloc (in_w * in_h * 3) h = (NULL, h1) →
  (∀ a, 0 ≤ a < 3 → h1 !! a = None) →
  detail_transform_.rgb_formatter.to_888 S in_rgb in_w in_h h = None.
Proof.
  intros HS Hw Hh Hfit Hal Hnull.
  rewrite (to_888_other_run S in_rgb in_w in_h h NULL h1) by (done || lia).
  assert (0 < in_w * in_h) as Hs by nia.
  rewrite (calculate_size_formula S in_w in_h);
    [|by destruct S|lia|lia|done|by destruct S].
  cbn [mbind option_bind]. apply bind_all_None_l.
  unfold rgb_format, detail_rgb_format_.to_888, required_bytes.
  destruct S; try discriminate; unfold detail_rgb_format_.bmp_16_transform;
    (apply bind_all_None; intros _;
     apply bind_all_None; intros _; apply bind_all_None_l;
     apply while_first_None; [apply Z.ltb_lt; lia|]).
  - unfold detail_rgb_format_.bmp_16_body.
    apply bind_all_None. intros px. apply bind_all_None_l.
    apply store_unmapped, Hnull. unfold NULL, offset_r_. lia.
  - unfold detail_rgb_format_.bmp_16_body.
    apply bind_all_None. intros px. apply bind_all_None_l.
    apply store_unmapped, Hnull. unfold NULL, offset_r_. lia.
  - unfold detail_rgb_format_.rgb_444_body.
    apply bind_all_None. intros x. apply bind_all_None_l.
    apply store_unmapped, Hnull. unfold NULL, offset_b_. lia.
  - unfold detail_rgb_format_.rgb_888X_body.
    do 3 (apply bind_all_None; intros ?). apply bind_all_None_l.
    apply store_unmapped, Hnull. unfold NULL, offset_b_. lia.
Qed.

Lemma X18_normaliser_null_array_witness :
  detail_transform_.rgb_formatter.to_888
    (A := allocator exhausted_new silent_delete) rgb_565 100 2 1 heap_565
  = None.
Proof.
  apply (X18_normaliser_null_array (allocator exhausted_new silent_delete)
           rgb_565 100 2 1 heap_565 heap_565);
    [reflexivity|lia|lia|reflexivity|reflexivity|].
  intros a Ha. assert (a = 0 ∨ a = 1 ∨ a = 2) as [->|[->| ->]] by lia;
    vm_compute; reflexivity.
Defined.

(** ** The entry point *)

Section entry_point.
Local Arguments Z.mul : simpl never.
Local Arguments Z.add : simpl never.
Local Arguments Z.of_nat : simpl never.
Local Arguments Nat.mul : simpl never.
Local Arguments to_size_t : simpl never.
Local Arguments load_rgb : simpl never.
Local Arguments scope_block.from : simpl never.

End entry_point.

(** X19.  The guards of the entry point: [transform] has no result for a
    null destination, for a source tag that is not RGB or a target tag
    that is not YUV (no such specialisation), for dimensions the target
    refuses, and for a destination whose byte size is not exactly
    [calculate_size] of the target. *)
Theorem X19_transform_guards (A : AllocT) (In Ot : supported) (in_data : ptr)
    (in_w in_h : nat) (ot_data : scope_block.t elem_byte_t) (ot_bytes : list Z)
    (junk : detail_transform_.indeterminate) (h : heap) :
  transform In Ot in_data in_w in_h None junk h = None
  ∧ (is_rgb In = false ∨ is_yuv Ot = false →
     transform In Ot in_data in_w in_h (Some (ot_data, ot_bytes)) junk h = None)
  ∧ (calculate_size Ot (Z.of_nat in_w) (Z.of_nat in_h) = None →
     transform In Ot in_data in_w in_h (Some (ot_data, ot_bytes)) junk h = None)
  ∧ (∀ n, calculate_size Ot (Z.of_nat in_w) (Z.of_nat in_h) = Some n →
       scope_block.size ot_data ≠ n →
       transform In Ot in_data in_w in_h (Some (ot_data, ot_bytes)) junk h
       = None).
Proof.
  split; [reflexivity|]. unfold transform. cbn [mbind option_bind].
  unfold impl_.transform. split; [|split].
  - intros [HIn|HOt].
    + assert ((kind_of In =? kind_rgb) = false) as -> by (by destruct In).
      reflexivity.
    + assert ((kind_of Ot =? kind_yuv) = false) as -> by (by destruct Ot).
      rewrite andb_false_r. reflexivity.
  - intros ->. by destruct (enable_if _).
  - intros n -> Hne. destruct (enable_if _); [|done].
    cbn [mbind option_bind].
    by rewrite (proj2 (Z.eqb_neq _ _) Hne).
Qed.

Lemma X19_transform_guards_witness :
  transform (A := allocator (arena_new 4096) silent_delete) rgb_888 yuv_YUY2 200 2 2
    (Some (scope_block.mk 8192 7 true, replicate 8 0)) junk_cd heap_888 = None.
Proof.
  destruct (X19_transform_guards (allocator (arena_new 4096) silent_delete)
              rgb_888 yuv_YUY2 200 2 2 (scope_block.mk 8192 7 true)
              (replicate 8 0) junk_cd heap_888) as (_ & _ & _ & H).
  apply (H 8); [reflexivity|]. vm_compute. discriminate.
Defined.

(** ** Layout families *)

Lemma same_shape_same_blocks Tar Tar' in_w in_h n :
  is_subsampled Tar = true → is_subsampled Tar' = true →
  block_shape Tar = block_shape Tar' →
  block_pixels Tar in_w n = block_pixels Tar' in_w n
  ∧ chroma_count Tar in_w in_h = chroma_count Tar' in_w in_h.
Proof.
  intros HT HT' Hsh. split.
  - unfold block_pixels. by rewrite Hsh.
  - destruct Tar; try discriminate HT; destruct Tar'; try discriminate HT';
      try discriminate Hsh; reflexivity.
Qed.

(** X22.  The tags of one subsampling family differ in layout only: two
    subsampled targets with the same chroma block shape (say YU12, YV12,
    NV12 and NV21, or YUY2 and 422P, or Y41P and 411P) store the same Y
    for every pixel and the same U and V for every block, each at the
    position its own layout gives to the sample, when the accumulator
    arrays of both writers are delivered. *)
Theorem X22_same_family_same_samples (A : AllocT) (Tar Tar' : supported)
    (in_data : list rgb_t.t) (in_w in_h : nat) (ot_data ot_data' : list Z)
    (junk junk' : detail_transform_.indeterminate) (h h' : heap) :
  is_subsampled Tar = true → is_subsampled Tar' = true →
  block_shape Tar = block_shape Tar' →
  aligned Tar in_w in_h → aligned Tar' in_w in_h →
  widest_size Tar (Z.of_nat in_w * Z.of_nat in_h) < 2 ^ size_bits →
  length in_data = (in_w * in_h)%nat →
  calculate_size Tar (Z.of_nat in_w) (Z.of_nat in_h)
  = Some (Z.of_nat (length ot_data)) →
  calculate_size Tar' (Z.of_nat in_w) (Z.of_nat in_h)
  = Some (Z.of_nat (length ot_data')) →
  accumulators_allocated Tar in_w h → accumulators_allocated Tar' in_w h' →
  ∃ out out',
    fst <$> detail_transform_.transform_to Tar in_data in_w in_h ot_data junk h
    = Some out
    ∧ fst <$> detail_transform_.transform_to Tar' in_data in_w in_h ot_data'
                junk' h'
      = Some out'
    ∧ (∀ i, (i < in_w * in_h)%nat →
         is_Some (out !! y_index Tar i)
         ∧ out !! y_index Tar i = out' !! y_index Tar' i)
    ∧ (∀ n, (n < chroma_count Tar in_w in_h)%nat →
         is_Some (out !! cb_index Tar (in_w * in_h) n)
         ∧ out !! cb_index Tar (in_w * in_h) n
           = out' !! cb_index Tar' (in_w * in_h) n
         ∧ out !! cr_index Tar (in_w * in_h) n
           = out' !! cr_index Tar' (in_w * in_h) n).
Proof.
  intros HT HT' Hsh Hal Hal' Hfit Hd Hsz Hsz' Hacc Hacc'.
  assert (widest_size Tar' (Z.of_nat in_w * Z.of_nat in_h) < 2 ^ size_bits)
    as Hfit'
    by (destruct Tar; try discriminate HT; destruct Tar'; try discriminate HT';
        try discriminate Hsh; exact Hfit).
  destruct (transform_to_subsampled Tar in_data in_w in_h ot_data junk h
              HT Hal Hfit Hd Hsz Hacc) as (out & h1 & Hrun & _ & HY & HC & _).
  destruct (transform_to_subsampled Tar' in_data in_w in_h ot_data' junk' h'
              HT' Hal' Hfit' Hd Hsz' Hacc')
    as (out' & h2 & Hrun' & _ & HY' & HC' & _).
  exists out, out'. rewrite Hrun, Hrun'.
  split; [done|]. split; [done|]. split.
  - intros i Hi. rewrite HY, HY' by done. split; [by eexists|done].
  - intros n Hn.
    destruct (same_shape_same_blocks Tar Tar' in_w in_h n HT HT' Hsh)
      as [Hblk Hcnt].
    destruct (HC n Hn) as [-> ->].
    destruct (HC' n) as [-> ->]; [lia|].
    rewrite Hblk. split; [by eexists|done].
Qed.

Lemma X22_same_family_same_samples_witness :
  let A := allocator bump_new unmapping_delete in
  ∃ out out',
    fst <$> detail_transform_.transform_to yuv_YU12
              [px_red; px_green; px_blue; px_red] 2 2 (replicate 6 0) junk_cd ∅
    = Some out
    ∧ fst <$> detail_transform_.transform_to yuv_NV21
                [px_red; px_green; px_blue; px_red] 2 2 (replicate 6 9)
                junk_cd ∅
      = Some out'
    ∧ out !! 4%nat = out' !! 5%nat ∧ out !! 5%nat = out' !! 4%nat.
Proof.
  intros A.
  destruct (X22_same_family_same_samples A yuv_YU12 yuv_NV21
              [px_red; px_green; px_blue; px_red] 2 2 (replicate 6 0)
              (replicate 6 9) junk_cd junk_cd ∅ ∅)
    as (out & out' & Hrun & Hrun' & _ & HC); try reflexivity;
    try (right; vm_compute; split; intros H; discriminate H).
  exists out, out'. split; [exact Hrun|]. split; [exact Hrun'|].
  destruct (HC 0%nat (le_n 1)) as (_ & Hu & Hv).
  split; [exact Hu|exact Hv].
Defined.

(** ** The normaliser: the claim *)

Section normaliser_claim.
Local Arguments Z.mul : simpl never.
Local Arguments Z.add : simpl never.
Local Arguments to_size_t : simpl never.
Local Arguments load_rgb : simpl never.
Local Arguments scope_block.from : simpl never.




End normaliser_claim.
